(** * The view runtime of bud: server-side rendering bridge and asset servers

    A shallow embedding of [framework/view/viewrt/viewrt.go].  Go strings are
    byte strings and are modelled by [string] (a list of 8-bit characters);
    [int] values are modelled by [Z]; the effects of a handler on its
    [http.ResponseWriter], its logger, its file system and the next handler
    of the chain are recorded as a trace of events, in program order.

    The functions of the Go library that decide what the package computes
    are modelled with it: [strings], [unicode/utf8], the quoting of [%q]
    ([strconv.Quote]), the canonical keys of [http.Header], and the part of
    [encoding/json] that serializes and decodes a response. *)

From Stdlib Require Import ZArith Ascii String List Bool Lia.
From Stdlib Require DecimalString DecimalZ DecimalFacts.
From stdpp Require Import base option list gmap strings fin_maps sorting.

Local Open Scope string_scope.
Local Open Scope list_scope.
Local Open Scope Z_scope.

(** ** Strings *)

Module Strings.

(** [strings.HasPrefix(s, prefix)] *)
Definition HasPrefix (s prefix : string) : bool := String.prefix prefix s.

(** [strings.HasSuffix(s, suffix)] *)
Definition HasSuffix (s suffix : string) : bool :=
  let n := String.length s in
  let m := String.length suffix in
  (m <=? n)%nat && String.eqb (String.substring (n - m) m s) suffix.

(** [strings.TrimPrefix(s, prefix)] *)
Definition TrimPrefix (s prefix : string) : string :=
  if HasPrefix s prefix
  then String.substring (String.length prefix)
                        (String.length s - String.length prefix) s
  else s.

End Strings.

(** ** Errors, files and requests *)

(** A Go [error]: the text [err.Error()] and whether
    [errors.Is(err, fs.ErrNotExist)] holds for it. *)
Record error := mkError {
  Error : string;
  IsNotExist : bool
}.

(** [fmt.Errorf] with a fixed text: an error unrelated to [fs.ErrNotExist]. *)
Definition Errorf (msg : string) : error := mkError msg false.

(** The result of a fallible call: [(v, nil)] or [(_, err)]. *)
Inductive result (A : Type) : Type :=
| Ok (v : A)
| Err (e : error).
Arguments Ok {A} v.
Arguments Err {A} e.

(** An [http.File] as the handlers use it: an identity for the handle, and
    the outcome of [file.Stat()], of which only [ModTime()] is read. *)
Record File := mkFile {
  fileId : nat;
  Stat : result Z
}.

(** [http.FileSystem]: the outcome of [Open(name)]. *)
Definition FileSystem := string -> result File.

(** The part of [*http.Request] that travels through the chain; the
    handlers of this package read [r.URL.Path] only. *)
Record Request := mkRequest {
  Method : string;
  URLPath : string;
  ReqHeader : list (string * string)
}.

(** ** Events *)

Inductive event : Type :=
| EOpened (name : string) (f : File)        (* hfs.Open(name) returned f *)
| EOpenFailed (name : string) (e : error)   (* hfs.Open(name) failed *)
| EClosed (f : File)                        (* f.Close() *)
| ELogError (msg : string) (e : error)      (* log.Error(msg, "error", e) *)
| EHttpError (text : string) (code : Z)     (* http.Error(w, text, code) *)
| EHeaderSet (key value : string)           (* w.Header().Set(key, value) *)
| EHeaderAdd (key value : string)           (* w.Header().Add(key, value) *)
| EWriteHeader (status : Z)                 (* w.WriteHeader(status) *)
| EWrite (body : string)                    (* w.Write([]byte(body)) *)
| EServeContent (r : Request) (name : string) (modtime : Z) (f : File)
                                            (* http.ServeContent(w, r, ...) *)
| EReadFile (name : string)                 (* fs.ReadFile(fsys, name) *)
| EEval (unit expr : string).               (* vm.Eval(unit, expr) *)

Definition trace := list event.

(** An [http.Handler]: what serving a request does. *)
Definition Handler := Request -> trace.

Definition StatusNotFound : Z := 404.
Definition StatusInternalServerError : Z := 500.

(** ** Bytes and UTF-8 (package [unicode/utf8]) *)

Module Utf8.

Definition byte_val (c : ascii) : Z := Z.of_N (N_of_ascii c).
Definition chr (b : Z) : ascii := ascii_of_N (Z.to_N (b mod 256)).

Definition RuneError : Z := 0xFFFD.
Definition RuneSelf : Z := 0x80.
Definition MaxRune : Z := 0x10FFFF.

Definition between (lo hi b : Z) : bool := (lo <=? b) && (b <=? hi).

(** Continuation byte [10xxxxxx]. *)
Definition cont (b : Z) : bool := between 0x80 0xBF b.

(** [utf8.DecodeRuneInString]: the rune and its width in bytes; an
    invalid or short encoding gives [(RuneError, 1)], the empty string
    [(RuneError, 0)].  The accepted ranges of the second byte are those of
    the package's [acceptRanges] table. *)
Definition DecodeRuneInString (s : string) : Z * nat :=
  match s with
  | EmptyString => (RuneError, 0%nat)
  | String c0 s1 =>
    let b0 := byte_val c0 in
    if b0 <? RuneSelf then (b0, 1%nat)
    else if between 0xC2 0xDF b0 then
      match s1 with
      | String c1 _ =>
        let b1 := byte_val c1 in
        if cont b1
        then (Z.lor (Z.shiftl (Z.land b0 0x1F) 6) (Z.land b1 0x3F), 2%nat)
        else (RuneError, 1%nat)
      | _ => (RuneError, 1%nat)
      end
    else if between 0xE0 0xEF b0 then
      match s1 with
      | String c1 (String c2 _) =>
        let b1 := byte_val c1 in
        let b2 := byte_val c2 in
        let lo := if b0 =? 0xE0 then 0xA0 else 0x80 in
        let hi := if b0 =? 0xED then 0x9F else 0xBF in
        if between lo hi b1 && cont b2
        then (Z.lor (Z.lor (Z.shiftl (Z.land b0 0x0F) 12)
                           (Z.shiftl (Z.land b1 0x3F) 6))
                    (Z.land b2 0x3F), 3%nat)
        else (RuneError, 1%nat)
      | _ => (RuneError, 1%nat)
      end
    else if between 0xF0 0xF4 b0 then
      match s1 with
      | String c1 (String c2 (String c3 _)) =>
        let b1 := byte_val c1 in
        let b2 := byte_val c2 in
        let b3 := byte_val c3 in
        let lo := if b0 =? 0xF0 then 0x90 else 0x80 in
        let hi := if b0 =? 0xF4 then 0x8F else 0xBF in
        if between lo hi b1 && cont b2 && cont b3
        then (Z.lor (Z.lor (Z.lor (Z.shiftl (Z.land b0 0x07) 18)
                                  (Z.shiftl (Z.land b1 0x3F) 12))
                           (Z.shiftl (Z.land b2 0x3F) 6))
                    (Z.land b3 0x3F), 4%nat)
        else (RuneError, 1%nat)
      | _ => (RuneError, 1%nat)
      end
    else (RuneError, 1%nat)
  end.

(** [utf8.ValidRune] *)
Definition ValidRune (r : Z) : bool :=
  between 0 0xD7FF r || between 0xE000 MaxRune r.

Definition enc3 (r : Z) : string :=
  String (chr (Z.lor 0xE0 (Z.shiftr r 12)))
 (String (chr (Z.lor 0x80 (Z.land (Z.shiftr r 6) 0x3F)))
 (String (chr (Z.lor 0x80 (Z.land r 0x3F))) EmptyString)).

(** [utf8.AppendRune(nil, r)]: the UTF-8 encoding of [r]; a rune that is
    out of range or a surrogate is encoded as [RuneError]. *)
Definition EncodeRune (r : Z) : string :=
  if between 0 0x7F r then String (chr r) EmptyString
  else if between 0 0x7FF r then
    String (chr (Z.lor 0xC0 (Z.shiftr r 6)))
   (String (chr (Z.lor 0x80 (Z.land r 0x3F))) EmptyString)
  else if negb (ValidRune r) then enc3 RuneError
  else if r <=? 0xFFFF then enc3 r
  else
    String (chr (Z.lor 0xF0 (Z.shiftr r 18)))
   (String (chr (Z.lor 0x80 (Z.land (Z.shiftr r 12) 0x3F)))
   (String (chr (Z.lor 0x80 (Z.land (Z.shiftr r 6) 0x3F)))
   (String (chr (Z.lor 0x80 (Z.land r 0x3F))) EmptyString))).

(** The string without its first [n] bytes: [s[n:]]. *)
Fixpoint drop (n : nat) (s : string) : string :=
  match n, s with
  | O, _ => s
  | S n', String _ s' => drop n' s'
  | S _, EmptyString => EmptyString
  end.

End Utf8.

(** ** Quoting (package [strconv], as used by the verb [%q] of [fmt]) *)

Module Strconv.
Import Utf8.

(** The double quote and the backslash. *)
Definition dquote : ascii := "034"%char.
Definition backslash : ascii := "092"%char.

(** [lowerhex[d]] for [0 <= d < 16]. *)
Definition lowerhex (d : Z) : ascii :=
  if d <? 10 then chr (48 + d) else chr (87 + d).

(** The hexadecimal digits of [r] from bit [4 * n - 1] down to bit 0. *)
Fixpoint hexdigits (n : nat) (r : Z) : string :=
  match n with
  | O => EmptyString
  | S n' =>
    String (lowerhex (Z.land (Z.shiftr r (4 * Z.of_nat n')) 0xF))
           (hexdigits n' r)
  end.

Section Quote.
(** The verdict of the tables [isPrint16], [isPrint32] and [isNotPrint]
    of [strconv] on a rune above Latin-1. *)
Variable isPrintTable : Z -> bool.

(** [strconv.IsPrint] *)
Definition IsPrint (r : Z) : bool :=
  if r <=? 0xFF then
    if between 0x20 0x7E r then true
    else if between 0xA1 0xFF r then negb (r =? 0xAD)
    else false
  else isPrintTable r.

(** [appendEscapedRune] for the double quote as delimiter, with
    [ASCIIonly] and [graphicOnly] both false. *)
Definition appendEscapedRune (r : Z) : string :=
  if (r =? 34) || (r =? 92) then String backslash (String (chr r) EmptyString)
  else if IsPrint r then EncodeRune r
  else if r =? 7 then "\a"
  else if r =? 8 then "\b"
  else if r =? 12 then "\f"
  else if r =? 10 then "\n"
  else if r =? 13 then "\r"
  else if r =? 9 then "\t"
  else if r =? 11 then "\v"
  else if (r <? 32) || (r =? 0x7F) then "\x" +:+ hexdigits 2 r
  else if negb (ValidRune r) then "\u" +:+ hexdigits 4 0xFFFD
  else if r <? 0x10000 then "\u" +:+ hexdigits 4 r
  else "\U" +:+ hexdigits 8 r.

(** The loop of [appendQuotedWith]: [skip] counts the bytes of the
    current rune still to be stepped over ([s = s[width:]]). *)
Fixpoint quoteLoop (skip : nat) (s : string) : string :=
  match s with
  | EmptyString => EmptyString
  | String c s' =>
    match skip with
    | S k => quoteLoop k s'
    | O =>
      let '(r, width) :=
        if byte_val c <? RuneSelf then (byte_val c, 1%nat)
        else DecodeRuneInString s in
      (if (width =? 1)%nat && (r =? RuneError)
       then "\x" +:+ hexdigits 2 (byte_val c)
       else appendEscapedRune r)
      +:+ quoteLoop (width - 1) s'
    end
  end.

(** [strconv.Quote(s)], the rendering of [%q]. *)
Definition Quote (s : string) : string :=
  String dquote (quoteLoop 0 s +:+ String dquote EmptyString).

End Quote.

End Strconv.

(** ** The extent of a string literal in the evaluated expression *)

Module Literal.
Import Utf8.

(** Scanning the characters of a double-quoted string literal of the
    script language, after its opening quote: a backslash takes the
    character after it along, an unescaped double quote ends the literal
    and the text after it is returned, and a line feed or a carriage
    return that is not escaped, or the end of the text, is an error. *)
Fixpoint scanBody (escaped : bool) (s : string) : option string :=
  match s with
  | EmptyString => None
  | String c s' =>
    if escaped then scanBody false s'
    else if byte_val c =? 92 then scanBody true s'
    else if byte_val c =? 34 then Some s'
    else if (byte_val c =? 10) || (byte_val c =? 13) then None
    else scanBody false s'
  end.

(** A byte that neither ends a literal nor starts an escape in it. *)
Definition plain (b : Z) : bool :=
  negb ((b =? 92) || (b =? 34) || (b =? 10) || (b =? 13)).

Fixpoint allPlain (s : string) : bool :=
  match s with
  | EmptyString => true
  | String c s' => plain (byte_val c) && allPlain s'
  end.

(** A piece of text that leaves the scan of a literal where it was. *)
Definition inert (p : string) : Prop :=
  forall k, scanBody false (p +:+ k) = scanBody false k.

(** The text after the string literal with which [s] starts. *)
Definition scan (s : string) : option string :=
  match s with
  | String c s' => if byte_val c =? 34 then scanBody false s' else None
  | EmptyString => None
  end.

End Literal.

(** ** The response of a render (package [ssr]) *)

(** Modelled from the spec: the declaration of [ssr.Response] is not among
    the sources.  The data model gives it as a status (an integer), headers
    (a mapping from strings to strings with unique keys, whose order is
    irrelevant) and a body (a string). *)
Record Response := mkResponse {
  Status : Z;
  Headers : gmap string string;
  Body : string
}.

(** The rendering of a signed integer by the verb [%d]. *)
Definition FormatInt (z : Z) : string :=
  DecimalString.NilZero.string_of_int (Z.to_int z).

(** ** JSON (package [encoding/json]) *)

Module Json.
Import Utf8.

Definition dquote : ascii := Strconv.dquote.
Definition backslash : ascii := Strconv.backslash.

(** The text [s] between double quotes. *)
Definition quoted (s : string) : string :=
  String dquote (s +:+ String dquote EmptyString).

(** The first [n] bytes of a string: [s[:n]]. *)
Fixpoint take (n : nat) (s : string) : string :=
  match n, s with
  | S n', String c s' => String c (take n' s')
  | _, _ => EmptyString
  end.

(** *** Encoding *)

(** [htmlSafeSet]: the ASCII bytes written as they are. *)
Definition htmlSafe (b : Z) : bool :=
  between 0x20 0x7F b &&
  negb ((b =? 34) || (b =? 38) || (b =? 60) || (b =? 62) || (b =? 92)).

(** The escape of an ASCII byte outside [htmlSafeSet]. *)
Definition escapeByte (b : Z) : string :=
  if (b =? 92) || (b =? 34) then String backslash (String (chr b) EmptyString)
  else if b =? 10 then "\n"
  else if b =? 13 then "\r"
  else if b =? 9 then "\t"
  else "\u00" +:+ String (Strconv.lowerhex (Z.shiftr b 4))
                 (String (Strconv.lowerhex (Z.land b 0xF)) EmptyString).

(** The loop of the string encoder, with the escaping of HTML on: [skip]
    counts the bytes of the current rune still to be stepped over.  A byte
    that starts no valid encoding is written as the escape of U+FFFD. *)
Fixpoint encodeLoop (skip : nat) (s : string) : string :=
  match s with
  | EmptyString => EmptyString
  | String c s' =>
    match skip with
    | S k => encodeLoop k s'
    | O =>
      let b := byte_val c in
      if b <? RuneSelf then
        (if htmlSafe b then String c EmptyString else escapeByte b)
        +:+ encodeLoop 0 s'
      else
        let '(r, size) := DecodeRuneInString s in
        if (r =? RuneError) && (size =? 1)%nat
        then "\ufffd" +:+ encodeLoop 0 s'
        else if (r =? 0x2028) || (r =? 0x2029)
        then ("\u202" +:+ String (Strconv.lowerhex (Z.land r 0xF)) EmptyString)
             +:+ encodeLoop (size - 1) s'
        else take size s +:+ encodeLoop (size - 1) s'
    end
  end.

Definition encodeString (s : string) : string :=
  String dquote (encodeLoop 0 s +:+ String dquote EmptyString).

Definition encodeEntry (kv : string * string) : string :=
  encodeString (fst kv) +:+ ":" +:+ encodeString (snd kv).

Fixpoint joinComma (l : list string) : string :=
  match l with
  | [] => EmptyString
  | [x] => x
  | x :: l' => x +:+ "," +:+ joinComma l'
  end.

(** The entries of a map in the order of their keys. *)
Definition sortedEntries (m : gmap string string) : list (string * string) :=
  merge_sort (fun a b => Is_true (String.leb (fst a) (fst b))) (map_to_list m).

(** A map from strings to strings, as an object. *)
Definition encodeMap (m : gmap string string) : string :=
  "{" +:+ joinComma (map encodeEntry (sortedEntries m)) +:+ "}".

(** The serialization of a response. *)
Definition encodeResponse (r : Response) : string :=
  "{" +:+ quoted "status" +:+ ":" +:+ FormatInt (Status r) +:+ ","
      +:+ quoted "headers" +:+ ":" +:+ encodeMap (Headers r) +:+ ","
      +:+ quoted "body" +:+ ":" +:+ encodeString (Body r) +:+ "}".

(** *** Decoding *)

(** A parsed JSON text; a number keeps its literal. *)
#[local] Unset Elimination Schemes.
Inductive value : Type :=
| Null
| Bool (b : bool)
| Number (lit : string)
| Str (s : string)
| Array (l : list value)
| Object (l : list (string * value)).
#[local] Set Elimination Schemes.

Definition isSpace (b : Z) : bool :=
  (b =? 32) || (b =? 9) || (b =? 13) || (b =? 10).

Fixpoint skipSpace (s : string) : string :=
  match s with
  | String c s' => if isSpace (byte_val c) then skipSpace s' else s
  | EmptyString => EmptyString
  end.

(** The value of a hexadecimal digit. *)
Definition hexVal (c : ascii) : option Z :=
  let b := byte_val c in
  if between 48 57 b then Some (b - 48)
  else if between 97 102 b then Some (b - 87)
  else if between 65 70 b then Some (b - 55)
  else None.

(** The number written by the four hexadecimal digits at the head of [s]. *)
Definition hex4 (s : string) : option Z :=
  match s with
  | String c1 (String c2 (String c3 (String c4 _))) =>
    d1 ← hexVal c1; d2 ← hexVal c2; d3 ← hexVal c3; d4 ← hexVal c4;
    Some (Z.lor (Z.lor (Z.lor (Z.shiftl d1 12) (Z.shiftl d2 8))
                       (Z.shiftl d3 4)) d4)
  | _ => None
  end.

(** [getu4]: the number of the escape [\uXXXX] at the head of [s]. *)
Definition getu4 (s : string) : option Z :=
  match s with
  | String c1 (String c2 s') =>
    if (byte_val c1 =? 92) && (byte_val c2 =? 117) then hex4 s' else None
  | _ => None
  end.

Definition isSurrogate (r : Z) : bool := between 0xD800 0xDFFF r.

(** [utf16.DecodeRune] *)
Definition decodeSurrogates (r1 r2 : Z) : Z :=
  if between 0xD800 0xDBFF r1 && between 0xDC00 0xDFFF r2
  then Z.lor (Z.shiftl (r1 - 0xD800) 10) (r2 - 0xDC00) + 0x10000
  else RuneError.

(** The loop of [unquote], after the opening quote: the text of the
    string and what follows its closing quote.  A control character, an
    escape that JSON does not have and a string without closing quote are
    errors; a byte that starts no valid encoding, and a surrogate escape
    without its pair, become U+FFFD. *)
Fixpoint unquoteLoop (skip : nat) (s : string) : option (string * string) :=
  match s with
  | EmptyString => None
  | String c s' =>
    match skip with
    | S k => unquoteLoop k s'
    | O =>
      let b := byte_val c in
      if b =? 34 then Some (EmptyString, s')
      else if b =? 92 then
        match s' with
        | EmptyString => None
        | String e s'' =>
          let eb := byte_val e in
          if eb =? 117 then
            rr ← hex4 s'';
            let '(r, width) :=
              if isSurrogate rr then
                match getu4 (drop 4 s'') with
                | Some rr1 =>
                  if decodeSurrogates rr rr1 =? RuneError
                  then (RuneError, 5%nat)
                  else (decodeSurrogates rr rr1, 11%nat)
                | None => (RuneError, 5%nat)
                end
              else (rr, 5%nat) in
            '(text, rest) ← unquoteLoop width s';
            Some (EncodeRune r +:+ text, rest)
          else
            ch ← (if (eb =? 34) || (eb =? 92) || (eb =? 47) then Some e
                  else if eb =? 98 then Some (chr 8)
                  else if eb =? 102 then Some (chr 12)
                  else if eb =? 110 then Some (chr 10)
                  else if eb =? 114 then Some (chr 13)
                  else if eb =? 116 then Some (chr 9)
                  else None);
            '(text, rest) ← unquoteLoop 1 s';
            Some (String ch text, rest)
        end
      else if b <? 32 then None
      else if b <? RuneSelf then
        '(text, rest) ← unquoteLoop 0 s';
        Some (String c text, rest)
      else
        let '(r, size) := DecodeRuneInString s in
        '(text, rest) ← unquoteLoop (size - 1) s';
        Some (EncodeRune r +:+ text, rest)
    end
  end.

(** The states of the scanner inside a number. *)
Inductive numState : Type :=
| NStart | NNeg | NZero | NInt | NDot | NFrac | NE | NESign | NExp.

Definition numAccept (st : numState) : bool :=
  match st with
  | NZero | NInt | NFrac | NExp => true
  | _ => false
  end.

Definition isDigit (b : Z) : bool := between 48 57 b.

Definition numStep (st : numState) (b : Z) : option numState :=
  let isE := (b =? 101) || (b =? 69) in
  match st with
  | NStart =>
    if b =? 45 then Some NNeg
    else if b =? 48 then Some NZero
    else if isDigit b then Some NInt else None
  | NNeg =>
    if b =? 48 then Some NZero
    else if isDigit b then Some NInt else None
  | NZero =>
    if b =? 46 then Some NDot else if isE then Some NE else None
  | NInt =>
    if isDigit b then Some NInt
    else if b =? 46 then Some NDot else if isE then Some NE else None
  | NDot => if isDigit b then Some NFrac else None
  | NFrac =>
    if isDigit b then Some NFrac else if isE then Some NE else None
  | NE =>
    if (b =? 43) || (b =? 45) then Some NESign
    else if isDigit b then Some NExp else None
  | NESign => if isDigit b then Some NExp else None
  | NExp => if isDigit b then Some NExp else None
  end.

(** A character that can follow the integer part of a number. *)
Definition endsNumber (c : ascii) : Prop :=
  numStep NInt (byte_val c) = None /\ numStep NZero (byte_val c) = None.

(** The literal of the number at the head of [s], and what follows it. *)
Fixpoint scanNumber (st : numState) (s : string) : option (string * string) :=
  match s with
  | EmptyString => if numAccept st then Some (EmptyString, EmptyString) else None
  | String c s' =>
    match numStep st (byte_val c) with
    | Some st' =>
      '(lit, rest) ← scanNumber st' s';
      Some (String c lit, rest)
    | None => if numAccept st then Some (EmptyString, s) else None
    end
  end.

(** What follows [word] at the head of [s]. *)
Definition expect (word s : string) : option string :=
  if String.prefix word s
  then Some (drop (String.length word) s) else None.

(** The members of an object after its opening brace, the object having
    one member at least; [pv] parses a value. *)
Definition parseMembers (pv : string -> option (value * string))
  : nat -> string -> option (list (string * value) * string) :=
  fix go (n : nat) (s : string) :=
    match n with
    | O => None
    | S n' =>
      match skipSpace s with
      | String c s1 =>
        if byte_val c =? 34 then
          '(key, s2) ← unquoteLoop 0 s1;
          s3 ← expect ":" (skipSpace s2);
          '(v, s4) ← pv s3;
          match skipSpace s4 with
          | String c4 s5 =>
            if byte_val c4 =? 44 then
              '(ms, s6) ← go n' s5;
              Some ((key, v) :: ms, s6)
            else if byte_val c4 =? 125 then Some ([(key, v)], s5)
            else None
          | EmptyString => None
          end
        else None
      | EmptyString => None
      end
    end.

(** The elements of an array after its opening bracket, the array having
    one element at least. *)
Definition parseElements (pv : string -> option (value * string))
  : nat -> string -> option (list value * string) :=
  fix go (n : nat) (s : string) :=
    match n with
    | O => None
    | S n' =>
      '(v, s1) ← pv s;
      match skipSpace s1 with
      | String c s2 =>
        if byte_val c =? 44 then
          '(vs, s3) ← go n' s2;
          Some (v :: vs, s3)
        else if byte_val c =? 93 then Some ([v], s2)
        else None
      | EmptyString => None
      end
    end.

(** The value at the head of [s], after white space, and what follows
    it; [fuel] bounds the depth of the value and the length of its arrays
    and objects. *)
Fixpoint parseValue (fuel : nat) (s : string) : option (value * string) :=
  match fuel with
  | O => None
  | S f =>
    match skipSpace s with
    | EmptyString => None
    | String c s1 =>
      let b := byte_val c in
      if b =? 34 then
        '(text, rest) ← unquoteLoop 0 s1;
        Some (Str text, rest)
      else if b =? 123 then
        match skipSpace s1 with
        | String c' s2 =>
          if byte_val c' =? 125 then Some (Object [], s2)
          else '(ms, rest) ← parseMembers (parseValue f) f s1;
               Some (Object ms, rest)
        | EmptyString => None
        end
      else if b =? 91 then
        match skipSpace s1 with
        | String c' s2 =>
          if byte_val c' =? 93 then Some (Array [], s2)
          else '(vs, rest) ← parseElements (parseValue f) f s1;
               Some (Array vs, rest)
        | EmptyString => None
        end
      else if b =? 116 then
        rest ← expect "true" (String c s1); Some (Bool true, rest)
      else if b =? 102 then
        rest ← expect "false" (String c s1); Some (Bool false, rest)
      else if b =? 110 then
        rest ← expect "null" (String c s1); Some (Null, rest)
      else if (b =? 45) || isDigit b then
        '(lit, rest) ← scanNumber NStart (String c s1);
        Some (Number lit, rest)
      else None
    end
  end.

(** The value that a whole text writes; [None] is a syntax error. *)
Definition parse (s : string) : option value :=
  '(v, rest) ← parseValue (S (String.length s)) s;
  match skipSpace rest with
  | EmptyString => Some v
  | _ => None
  end.

(** *** Decoding into a response *)

(** The text of the errors of the package is not modelled beyond their
    kind. *)
Definition syntaxError : error := Errorf "json: syntax error".
Definition typeError (field : string) : error :=
  Errorf ("json: cannot unmarshal into field " +:+ field).

(** [strconv.ParseInt(lit, 10, 64)] on the literal of a number. *)
Definition ParseInt (lit : string) : option Z :=
  d ← DecimalString.NilZero.int_of_string lit;
  let z := Z.of_int d in
  if (- 2 ^ 63 <=? z) && (z <? 2 ^ 63) then Some z else None.

(** The lower case of an ASCII letter. *)
Definition lower (b : Z) : Z := if between 65 90 b then b + 32 else b.

(** Whether the key of a member names the field [name] (in lower case):
    letters match whatever their case, and the long s (U+017F) matches
    an s. *)
Fixpoint foldEq (name key : string) : bool :=
  match name, key with
  | EmptyString, EmptyString => true
  | String n name', String k key' =>
    if byte_val k <? RuneSelf then
      (lower (byte_val k) =? byte_val n) && foldEq name' key'
    else
      match key' with
      | String k2 key'' =>
        (byte_val n =? 115) && (byte_val k =? 0xC5) && (byte_val k2 =? 0xBF)
        && foldEq name' key''
      | EmptyString => false
      end
  | _, _ => false
  end.

(** A response being decoded, and the first error met. *)
Definition decoding : Type := Response * option error.

Definition fail (e : error) (d : decoding) : decoding :=
  (fst d, match snd d with Some e0 => Some e0 | None => Some e end).

Definition decodeStatus (v : value) (d : decoding) : decoding :=
  match v with
  | Null => d
  | Number lit =>
    match ParseInt lit with
    | Some z => (mkResponse z (Headers (fst d)) (Body (fst d)), snd d)
    | None => fail (typeError "status") d
    end
  | _ => fail (typeError "status") d
  end.

(** One member of the object of the headers: a string is stored under
    its key, [null] and a value of another type store the empty string,
    the latter with an error. *)
Definition decodeHeader (d : decoding) (kv : string * value) : decoding :=
  let put text d :=
    (mkResponse (Status (fst d)) (<[fst kv := text]> (Headers (fst d)))
                (Body (fst d)), snd d) in
  match snd kv with
  | Str text => put text d
  | Null => put EmptyString d
  | _ => fail (typeError "headers") (put EmptyString d)
  end.

Definition decodeHeaders (v : value) (d : decoding) : decoding :=
  match v with
  | Null => (mkResponse (Status (fst d)) ∅ (Body (fst d)), snd d)
  | Object ms => foldl decodeHeader d ms
  | _ => fail (typeError "headers") d
  end.

Definition decodeBody (v : value) (d : decoding) : decoding :=
  match v with
  | Null => d
  | Str text => (mkResponse (Status (fst d)) (Headers (fst d)) text, snd d)
  | _ => fail (typeError "body") d
  end.

(** One member of the object of the response; a key that names no field
    is ignored. *)
Definition decodeField (d : decoding) (kv : string * value) : decoding :=
  if foldEq "status" (fst kv) then decodeStatus (snd kv) d
  else if foldEq "headers" (fst kv) then decodeHeaders (snd kv) d
  else if foldEq "body" (fst kv) then decodeBody (snd kv) d
  else d.

(** Decoding a value into a fresh response. *)
Definition decodeResponse (v : value) : result Response :=
  let fresh : decoding := (mkResponse 0 ∅ EmptyString, None) in
  let d := match v with
           | Null => fresh
           | Object ms => foldl decodeField fresh ms
           | _ => fail (typeError "Response") fresh
           end in
  match snd d with
  | Some e => Err e
  | None => Ok (fst d)
  end.

(** [json.Unmarshal(data, res)] for a fresh [ssr.Response]. *)
Definition Unmarshal (data : string) : result Response :=
  match parse data with
  | None => Err syntaxError
  | Some v => decodeResponse v
  end.

(** A string all of whose bytes belong to valid encodings of runes. *)
Fixpoint validLoop (skip : nat) (s : string) : bool :=
  match s with
  | EmptyString => true
  | String c s' =>
    match skip with
    | S k => validLoop k s'
    | O =>
      let '(r, size) := DecodeRuneInString s in
      negb ((r =? RuneError) && (size =? 1)%nat) && validLoop (size - 1) s'
    end
  end.

(** [utf8.ValidString] *)
Definition ValidString (s : string) : bool := validLoop 0 s.

(** The strings of a response are valid UTF-8. *)
Definition validStrings (r : Response) : Prop :=
  (forall k v, Headers r !! k = Some v ->
     ValidString k = true /\ ValidString v = true) /\
  ValidString (Body r) = true.

Definition validResponse (r : Response) : bool :=
  forallb (fun kv => ValidString (fst kv) && ValidString (snd kv))
          (map_to_list (Headers r))
  && ValidString (Body r).

(** What the parser makes of an entry of a map of strings. *)
Definition asMember (kv : string * string) : string * value :=
  (fst kv, Str (snd kv)).

Definition validEntry (kv : string * string) : Prop :=
  ValidString (fst kv) = true /\ ValidString (snd kv) = true.

End Json.

(** ** The renderer *)

(** [fs.FS], through the two operations used on it. *)
Record FS := mkFS {
  fsOpen : string -> result File;
  fsReadFile : string -> result string      (* fs.ReadFile(fsys, name) *)
}.

(** [js.VM]: the outcome of [Eval(unit, expr)]. *)
Definition VM := string -> string -> result string.

Record renderer := mkRenderer {
  fsys : FS;
  vm : VM
}.

(** What the host language supplies to the package. *)
Section Runtime.

(** The type of the values passed as props ([interface{}]). *)
Variable Props : Type.
(** [json.Marshal(props)] *)
Variable Marshal : Props -> result string.
(** [json.Unmarshal([]byte(result), res)] on a fresh [ssr.Response]. *)
Variable Unmarshal : string -> result Response.
(** The printable-rune tables consulted by [%q]. *)
Variable isPrintTable : Z -> bool.

(** The text given to [fmt.Sprintf] with the verbs [%s; bud.render(%q, %s)]. *)
Definition renderExpr (script route propBytes : string) : string :=
  script +:+ "; bud.render(" +:+ Strconv.Quote isPrintTable route +:+ ", "
         +:+ propBytes +:+ ")".

(** The method [Render] of the renderer: the calls made on the file system
    and on the engine, and the returned pair [(res, err)]. *)
Definition Render (r : renderer) (route : string) (props : Props)
  : trace * result Response :=
  match Marshal props with
  | Err err => ([], Err err)
  | Ok propBytes =>
    match fsReadFile (fsys r) "bud/view/_ssr.js" with
    | Err err => ([EReadFile "bud/view/_ssr.js"], Err err)
    | Ok script =>
      let expr := renderExpr script route propBytes in
      let calls := [EReadFile "bud/view/_ssr.js"; EEval "_ssr.js" expr] in
      match vm r "_ssr.js" expr with
      | Err err => (calls, Err err)
      | Ok result =>
        match Unmarshal result with
        | Err err => (calls, Err err)
        | Ok res =>
          if (Status res <? 100) || (Status res >? 999)
          then (calls, Err (Errorf ("view: invalid status code "
                                      +:+ FormatInt (Status res))))
          else (calls, Ok res)
        end
      end
    end
  end.

(** ** Request classification *)

Definition isClient (path : string) : bool :=
  Strings.HasPrefix path "/bud/node_modules/" ||
  Strings.HasPrefix path "/bud/view/".

(** ** The shared body of [respond] *)

(** The order in which [range] visits the entries of a map is not
    specified and changes from one execution to the next: [rangeOrder m] is
    the order of one execution, and a statement that compares two
    executions takes an order for each. *)
Variable rangeOrder : gmap string string -> list (string * string).

Definition writeResponse (res : Response) : trace :=
  map (fun kv => EHeaderSet (fst kv) (snd kv)) (rangeOrder (Headers res))
  ++ [EWriteHeader (Status res); EWrite (Body res)].

(** ** The live server *)

(** The logger is an interface without state of its own; its calls are
    events of the trace. *)
Variable Logger : Type.

Record liveServer := mkLiveServer {
  live_hfs : FileSystem;
  live_log : Logger;
  live_renderer : renderer
}.

Definition live_render (s : liveServer) (route : string) (props : Props)
  : trace * result Response :=
  Render (live_renderer s) route props.

Definition live_respond (s : liveServer) (path : string) (props : Props)
  : trace :=
  let '(calls, out) := live_render s path props in
  calls ++
  match out with
  | Err err =>
    [ELogError "view: render error" err;
     EHttpError (Error err) StatusInternalServerError]
  | Ok res => writeResponse res
  end.

Definition live_Handler (s : liveServer) (route : string) (props : Props)
  : Handler :=
  fun _ => live_respond s route props.

Definition live_Middleware (s : liveServer) (next : Handler) : Handler :=
  fun r =>
  if negb (isClient (URLPath r)) then next r
  else
    let name := Strings.TrimPrefix (URLPath r) "/" in
    match live_hfs s name with
    | Err err =>
      if IsNotExist err
      then [EOpenFailed name err; EHttpError (Error err) StatusNotFound]
      else [EOpenFailed name err;
            ELogError "view: open error" err;
            EHttpError (Error err) StatusInternalServerError]
    | Ok file =>
      [EOpened name file]
      ++ match Stat file with
         | Err err =>
           [ELogError "view: stat error" err;
            EHttpError (Error err) StatusInternalServerError]
         | Ok modtime =>
           (if Strings.HasPrefix (URLPath r) "/bud/node_modules/" ||
               Strings.HasSuffix (URLPath r) ".svelte"
            then [EHeaderSet "Content-Type" "application/javascript"]
            else [])
           ++ [EServeContent r (URLPath r) modtime file]
         end
      (* defer file.Close() *)
      ++ [EClosed file]
    end.

(** ** The static server *)

Record staticServer := mkStaticServer {
  static_hfs : FileSystem;
  static_log : Logger;
  static_renderer : renderer
}.

(** [http.FS]: the adapter from [fs.FS] to [http.FileSystem]. *)
Variable httpFS : FS -> FileSystem.

(** The client of the live server: a file system and an engine in one. *)
Record Client := mkClient {
  clientFS : FS;
  clientVM : VM
}.

(** The constructor [Proxy]. *)
Definition Proxy (client : Client) (log : Logger) : liveServer :=
  mkLiveServer (httpFS (clientFS client)) log
               (mkRenderer (clientFS client) (clientVM client)).

(** The constructor [Static]. *)
Definition Static (fsys : FS) (log : Logger) (vm : VM)
           (wrapProps : string -> Props -> Props) : staticServer :=
  mkStaticServer (httpFS fsys) log (mkRenderer fsys vm).

Definition static_render (s : staticServer) (path : string) (props : Props)
  : trace * result Response :=
  Render (static_renderer s) path props.

Definition static_respond (s : staticServer) (path : string) (props : Props)
  : trace :=
  let '(calls, out) := static_render s path props in
  calls ++
  match out with
  | Err err =>
    [ELogError "view: client open error" err;
     EHttpError (Error err) StatusInternalServerError]
  | Ok res => writeResponse res
  end.

Definition static_serveHTTP (s : staticServer) (r : Request) : trace :=
  match static_hfs s (URLPath r) with
  | Err err =>
    [EOpenFailed (URLPath r) err;
     ELogError "view: open error" err;
     EHttpError (Error err) StatusInternalServerError]
  | Ok file =>
    [EOpened (URLPath r) file]
    ++ match Stat file with
       | Err err =>
         [ELogError "view: stat error" err;
          EHttpError (Error err) StatusInternalServerError]
       | Ok modtime =>
         (if Strings.HasPrefix (URLPath r) "/bud/node_modules/"
          then [EHeaderAdd "Content-Type" "text/javascript"]
          else [])
         ++ [EServeContent r (URLPath r) modtime file]
       end
  end.

Definition static_Middleware (s : staticServer) (next : Handler) : Handler :=
  fun r =>
  if negb (isClient (URLPath r)) then next r
  else static_serveHTTP s r.

Definition static_Handler (s : staticServer) (route : string) (props : Props)
  : Handler :=
  fun _ => static_respond s route props.

End Runtime.

(** ** The header of a response (packages [net/textproto] and [net/http]) *)

Module Header.
Import Utf8.

(** [validHeaderFieldByte]: the bytes allowed in a token. *)
Definition validHeaderFieldByte (c : ascii) : bool :=
  let b := byte_val c in
  between 48 57 b || between 65 90 b || between 97 122 b ||
  existsb (Z.eqb b) [33; 35; 36; 37; 38; 39; 42; 43; 45; 46; 94; 95; 96; 124; 126].

(** The loop of [canonicalMIMEHeaderKey]: the first letter and every
    letter after a hyphen in upper case, the others in lower case. *)
Fixpoint canonLoop (upper : bool) (s : string) : string :=
  match s with
  | EmptyString => EmptyString
  | String c s' =>
    let b := byte_val c in
    let b' := if upper && between 97 122 b then b - 32
              else if negb upper && between 65 90 b then b + 32
              else b in
    String (chr b') (canonLoop (b' =? 45) s')
  end.

Fixpoint allValid (s : string) : bool :=
  match s with
  | EmptyString => true
  | String c s' => validHeaderFieldByte c && allValid s'
  end.

(** [textproto.CanonicalMIMEHeaderKey]: a key with a byte that is not
    allowed in a token is returned unchanged. *)
Definition CanonicalMIMEHeaderKey (s : string) : string :=
  if allValid s then canonLoop true s else s.

(** [http.Header]: a map from canonical keys to lists of values. *)
Abbreviation t := (gmap string (list string)).

Definition Set_ (h : t) (key value : string) : t :=
  <[CanonicalMIMEHeaderKey key := [value]]> h.

Definition Add (h : t) (key value : string) : t :=
  let k := CanonicalMIMEHeaderKey key in
  <[k := default [] (h !! k) ++ [value]]> h.

(** [h.Values(key)] *)
Definition Values (h : t) (key : string) : list string :=
  default [] (h !! CanonicalMIMEHeaderKey key).

(** The effect of one event on the header; only the calls that this
    package makes on [w.Header()] are interpreted. *)
Definition step (h : t) (e : event) : t :=
  match e with
  | EHeaderSet k v => Set_ h k v
  | EHeaderAdd k v => Add h k v
  | _ => h
  end.

(** The header after a trace. *)
Definition after (h : t) (tr : trace) : t := foldl step h tr.

(** The header with which [http.ServeContent] is first reached, if it is. *)
Fixpoint atServeContent (h : t) (tr : trace) : option t :=
  match tr with
  | [] => None
  | EServeContent _ _ _ _ :: _ => Some h
  | e :: tr' => atServeContent (step h e) tr'
  end.

End Header.

(** ** File handles left open by a trace *)

(** The identities of the handles opened and not closed afterwards. *)
Fixpoint openHandles (opened : list nat) (tr : trace) : list nat :=
  match tr with
  | [] => opened
  | EOpened _ f :: tr' => openHandles (fileId f :: opened) tr'
  | EClosed f :: tr' =>
    openHandles (filter (fun i => i ≠ fileId f) opened) tr'
  | _ :: tr' => openHandles opened tr'
  end.

Arguments liveServer Logger : clear implicits.
Arguments staticServer Logger : clear implicits.
Arguments live_hfs {Logger} _.
Arguments live_renderer {Logger} _.
Arguments static_hfs {Logger} _.
Arguments static_renderer {Logger} _.
Arguments live_Middleware {Logger} s next _.
Arguments static_Middleware {Logger} s next _.
Arguments static_serveHTTP {Logger} s r.
Arguments Render {Props} Marshal Unmarshal isPrintTable r route props.
Arguments live_render {Props} Marshal Unmarshal isPrintTable {Logger} s route props.
Arguments static_render {Props} Marshal Unmarshal isPrintTable {Logger} s path props.
Arguments live_respond {Props} Marshal Unmarshal isPrintTable rangeOrder {Logger} s path props.
Arguments static_respond {Props} Marshal Unmarshal isPrintTable rangeOrder {Logger} s path props.
Arguments live_Handler {Props} Marshal Unmarshal isPrintTable rangeOrder {Logger} s route props _.
Arguments static_Handler {Props} Marshal Unmarshal isPrintTable rangeOrder {Logger} s route props _.
Arguments Static {Props Logger} httpFS fsys log vm wrapProps.
Arguments Proxy {Logger} httpFS client log.

(** A middleware forwards a request when serving it is serving it with the
    next handler of the chain, whatever that handler is. *)
Definition forwards (mw : Handler -> Handler) (r : Request) : Prop :=
  forall next : Handler, mw next r = next r.


(** ** Kinds of events *)

(** The events a middleware emits between opening an asset and serving it. *)
Definition isContentTypeOverride (e : event) : Prop :=
  match e with
  | EHeaderSet k _ | EHeaderAdd k _ => k = "Content-Type"
  | _ => False
  end.

(** The calls a render makes: reads of the file system and evaluations. *)
Definition isRendererCall (e : event) : Prop :=
  match e with
  | EReadFile _ | EEval _ _ => True
  | _ => False
  end.

(** The evaluations requested of the engine by a trace: unit name and
    expression of each, in order. *)
Fixpoint evalCalls (tr : trace) : list (string * string) :=
  match tr with
  | [] => []
  | EEval unit expr :: tr' => (unit, expr) :: evalCalls tr'
  | _ :: tr' => evalCalls tr'
  end.

Definition setHeaders (l : list (string * string)) : trace :=
  map (fun kv => EHeaderSet (fst kv) (snd kv)) l.

(** ** Examples: a file system, an engine and the two servers over them *)

Module Example.

Definition notExist (name : string) : error :=
  mkError ("open " +:+ name +:+ ": file does not exist") true.

Definition runtimeFile : File := mkFile 1 (Ok 1700000000).

(** An asset source with the client runtime only, as the live server
    addresses it (no leading slash). *)
Definition liveAssets : FileSystem := fun name =>
  if String.eqb name "bud/node_modules/livebud/runtime"
  then Ok runtimeFile else Err (notExist name).

(** The same source as the static server addresses it. *)
Definition staticAssets : FileSystem := fun name =>
  if String.eqb name "/bud/node_modules/livebud/runtime"
  then Ok runtimeFile else Err (notExist name).

Definition bundle : FS :=
  mkFS (fun name => Err (notExist name))
       (fun name => if String.eqb name "bud/view/_ssr.js"
                    then Ok "var bud = {}" else Err (notExist name)).

Definition get (path : string) : Request := mkRequest "GET" path [].

Definition noNext : Handler := fun _ => [].

(** Props that are maps of strings, serialized as objects. *)
Definition Marshal (props : gmap string string) : result string :=
  Ok (Json.encodeMap props).

Definition world : gmap string string := {[ "name" := "world" ]}.

(** No rune above Latin-1 is taken as printable. *)
Definition table : Z -> bool := fun _ => false.

(** The answer of an engine that renders a greeting. *)
Definition greeting : string :=
  "{" +:+ Json.quoted "status" +:+ ":200,"
      +:+ Json.quoted "headers" +:+ ":{" +:+ Json.quoted "Content-Type"
      +:+ ":" +:+ Json.quoted "text/html" +:+ "},"
      +:+ Json.quoted "body" +:+ ":" +:+ Json.quoted "<h1>world</h1>" +:+ "}".

Definition greetingResponse : Response :=
  mkResponse 200 {[ "Content-Type" := "text/html" ]} "<h1>world</h1>".

(** An engine that answers every evaluation with the same text. *)
Definition echo (answer : string) : VM := fun _ _ => Ok answer.

Definition greeter : renderer := mkRenderer bundle (echo greeting).

Definition live : liveServer unit := mkLiveServer unit liveAssets tt greeter.

Definition static : staticServer unit :=
  mkStaticServer unit staticAssets tt greeter.

(** A response whose body is one byte that is not UTF-8. *)
Definition binaryResponse : Response :=
  mkResponse 200 ∅ (String (Utf8.chr 255) EmptyString).

End Example.

(** ** Observations on traces *)

(** The events that answer a request: an error page, a served asset, or a
    status line. *)
Definition answers (e : event) : bool :=
  match e with
  | EHttpError _ _ | EServeContent _ _ _ _ | EWriteHeader _ => true
  | _ => false
  end.

Fixpoint countAnswers (tr : trace) : nat :=
  match tr with
  | [] => O
  | e :: tr' => ((if answers e then 1 else 0) + countAnswers tr')%nat
  end.

(** The status codes that a trace gives to [w.WriteHeader]. *)
Fixpoint writtenStatuses (tr : trace) : list Z :=
  match tr with
  | [] => []
  | EWriteHeader code :: tr' => code :: writtenStatuses tr'
  | _ :: tr' => writtenStatuses tr'
  end.

(** The status codes that a trace gives to [http.Error]. *)
Fixpoint errorStatuses (tr : trace) : list Z :=
  match tr with
  | [] => []
  | EHttpError _ code :: tr' => code :: errorStatuses tr'
  | _ :: tr' => errorStatuses tr'
  end.

(** A trace without the calls of the logger. *)
Fixpoint withoutLogs (tr : trace) : trace :=
  match tr with
  | [] => []
  | ELogError _ _ :: tr' => withoutLogs tr'
  | e :: tr' => e :: withoutLogs tr'
  end.

(** The names given to [Open], in order. *)
Fixpoint openedNames (tr : trace) : list string :=
  match tr with
  | [] => []
  | EOpened name _ :: tr' => name :: openedNames tr'
  | EOpenFailed name _ :: tr' => name :: openedNames tr'
  | _ :: tr' => openedNames tr'
  end.

(** A string of printable ASCII bytes other than the double quote and the
    backslash. *)
Fixpoint plainText (s : string) : bool :=
  match s with
  | EmptyString => true
  | String c s' =>
    Utf8.between 0x20 0x7E (Utf8.byte_val c)
    && negb ((Utf8.byte_val c =? 34) || (Utf8.byte_val c =? 92))
    && plainText s'
  end.

(** * The other files of the repository *)

(** ** Lexical paths (package [path]) *)

Module Path.
Import Utf8.

Definition slash : ascii := "/"%char.
Definition dot : ascii := "."%char.

Definition isSlash (c : ascii) : bool := byte_val c =? 47.
Definition isDot (c : ascii) : bool := byte_val c =? 46.

(** [r == n || path[r] == '/'] for the text [s] that starts at index [r]. *)
Definition atEnd (s : string) : bool :=
  match s with
  | EmptyString => true
  | String c _ => isSlash c
  end.

(** The buffer of [Clean] is kept as the list of its bytes, the last one
    first; [out.w] is its length. *)
Definition buffer := list ascii.

(** The inner loop of the backtracking over [..]: bytes are dropped while
    more than [dotdot] are left and the byte dropped last is no slash. *)
Fixpoint dropSegment (dotdot : nat) (last : ascii) (out : buffer) : buffer :=
  match out with
  | [] => []
  | c :: out' =>
    if (dotdot <? length out)%nat && negb (isSlash last)
    then dropSegment dotdot c out'
    else out
  end.

(** [out.w--] followed by the inner loop. *)
Definition backtrack (dotdot : nat) (out : buffer) : buffer :=
  match out with
  | [] => []
  | c :: out' => dropSegment dotdot c out'
  end.

(** The loop of [Clean] over the text that is left to read.  [inSeg] is
    true while the bytes of a path element are being copied. *)
Fixpoint cleanLoop (rooted inSeg : bool) (out : buffer) (dotdot : nat)
         (s : string) : buffer :=
  match s with
  | EmptyString => out
  | String c s' =>
    if inSeg then
      if isSlash c then cleanLoop rooted false out dotdot s'
      else cleanLoop rooted true (c :: out) dotdot s'
    else if isSlash c then cleanLoop rooted false out dotdot s'
    else if isDot c && atEnd s' then cleanLoop rooted false out dotdot s'
    else
      let element :=
        let out1 :=
          if (rooted && negb (length out =? 1)%nat)
             || (negb rooted && negb (length out =? 0)%nat)
          then slash :: out else out in
        cleanLoop rooted true (c :: out1) dotdot s' in
      match s' with
      | String c2 s'' =>
        if isDot c && isDot c2 && atEnd s'' then
          if (dotdot <? length out)%nat then
            cleanLoop rooted false (backtrack dotdot out) dotdot s''
          else if negb rooted then
            let out1 := if (0 <? length out)%nat then slash :: out else out in
            let out2 := dot :: dot :: out1 in
            cleanLoop rooted false out2 (length out2) s''
          else cleanLoop rooted false out dotdot s''
        else element
      | EmptyString => element
      end
  end.

(** The text of a buffer. *)
Definition text (out : buffer) : string :=
  fold_left (fun s c => String c s) out EmptyString.

(** [path.Clean] *)
Definition Clean (p : string) : string :=
  match p with
  | EmptyString => "."
  | String c s' =>
    let out :=
      if isSlash c then cleanLoop true false [slash] 1 s'
      else cleanLoop false false [] 0 p in
    match out with
    | [] => "."
    | _ => text out
    end
  end.

(** The buffer that the loop of [Join] fills. *)
Fixpoint joinLoop (buf : string) (elem : list string) : string :=
  match elem with
  | [] => buf
  | e :: elem' =>
    let nonempty s := negb (String.eqb s EmptyString) in
    if nonempty buf || nonempty e
    then joinLoop ((if nonempty buf then buf +:+ "/" else buf) +:+ e) elem'
    else joinLoop buf elem'
  end.

(** [path.Join] *)
Definition Join (elem : list string) : string :=
  if forallb (fun e => String.eqb e EmptyString) elem then EmptyString
  else Clean (joinLoop EmptyString elem).

End Path.

(** ** Splitting and joining (package [strings]) *)

Module Split.

(** [strings.Split(s, sep)] for a separator [sep] of one byte. *)
Fixpoint Split (s : string) (sep : ascii) : list string :=
  match s with
  | EmptyString => [EmptyString]
  | String c s' =>
    if Ascii.eqb c sep then EmptyString :: Split s' sep
    else match Split s' sep with
         | w :: ws => String c w :: ws
         | [] => [String c EmptyString]
         end
  end.

(** [strings.Join(elems, sep)] *)
Fixpoint Join (elems : list string) (sep : string) : string :=
  match elems with
  | [] => EmptyString
  | [e] => e
  | e :: elems' => e +:+ sep +:+ Join elems' sep
  end.

End Split.

(** ** The loader of the web state (the unnamed source file) *)

Module Web.

(** An [Action] of the web state, as [loadActions] fills it. *)
Record Action := mkAction {
  ActionMethod : string;
  ActionRoute : string;
  ActionCallName : string
}.

Definition toBasePath (dir : string) : string :=
  if String.eqb dir "." then "/" else "/" +:+ dir.

Definition loadActionMethod (name : string) : string :=
  if String.eqb name "Create" then "Post"
  else if String.eqb name "Update" then "Patch"
  else if String.eqb name "Delete" then "Delete"
  else "Get".

Section Text.
(** The functions of the package [text] that the loader calls; the package
    is not part of the repository. *)
Variables textPath textSlug textSingular textTitle textLower textSnake
  : string -> string.

(** The loop of [loadControllerRoute] from index [i] on; [prev] is
    [segments[i-1]]. *)
Fixpoint routeLoop (i : nat) (prev : string) (segments : list string) : string :=
  match segments with
  | [] => EmptyString
  | seg :: rest =>
    (if Nat.odd i
     then "/" +:+ (":" +:+ textSlug (textSingular prev) +:+ "_id") +:+ "/"
     else EmptyString)
    +:+ textSlug seg +:+ routeLoop (S i) seg rest
  end.

(** The route of a list of segments taken two by two: a resource and the
    resource nested in it, with the parameter of the first in between. *)
Fixpoint pairsRoute (segments : list string) : string :=
  match segments with
  | [] => EmptyString
  | [a] => textSlug a
  | a :: b :: rest =>
    textSlug a +:+ "/:" +:+ textSlug (textSingular a) +:+ "_id/"
               +:+ textSlug b +:+ pairsRoute rest
  end.

Definition loadControllerRoute (controllerPath : string) : string :=
  "/" +:+ routeLoop 0 EmptyString (Split.Split (textPath controllerPath) "/").

Definition loadActionRoute (basePath actionName : string) : string :=
  if String.eqb actionName "Show" || String.eqb actionName "Update"
     || String.eqb actionName "Delete"
  then Path.Join [basePath; ":id"]
  else if String.eqb actionName "New" then Path.Join [basePath; "new"]
  else if String.eqb actionName "Edit" then Path.Join [basePath; ":id"; "edit"]
  else if String.eqb actionName "Index" || String.eqb actionName "Create"
  then basePath
  else Path.Join [basePath; textLower (textSnake actionName)].

Definition loadActionCallName (basePath actionName : string) : string :=
  let splitPath :=
    map (fun controller =>
           if (0 <? String.length controller)%nat
           then controller +:+ "Controller" else controller)
        (Split.Split (textTitle basePath) " ") in
  let baseCaller := Split.Join splitPath "." in
  if String.eqb baseCaller EmptyString then actionName
  else baseCaller +:+ "." +:+ actionName.

(** The body of the loop of [loadActions]: the action of the public method
    [actionName] of the controller in the directory [dir]. *)
Definition loadAction (dir actionName : string) : Action :=
  let basePath := toBasePath dir in
  mkAction (loadActionMethod actionName)
           (loadActionRoute (loadControllerRoute basePath) actionName)
           (loadActionCallName basePath actionName).

End Text.

End Web.

(** ** Virtual module files ([go/mod/virtual.go]) *)

Module Mod.

Record VirtualFile := mkVirtualFile {
  modulePath : string;
  dir : string
}.

Definition Virtual (modulePath dir : string) : VirtualFile :=
  mkVirtualFile modulePath dir.

Definition Directory (v : VirtualFile) : string := dir v.

Definition ModulePath (v : VirtualFile) : string := modulePath v.

Section Host.
(** [is.StdLib], the package variable [stdDir], [build.Default.GOPATH] and
    the outcome of [os.Stat]: none is declared in the sources. *)
Variable isStdLib : string -> bool.
Variable stdDir GOPATH : string.
Variable stat : string -> result unit.
Variable isPrintTable : Z -> bool.

(** [filepath.Join] where the separator is the slash. *)
Definition filepathJoin (elem : list string) : string := Path.Join elem.

(** The method [ResolveDirectory]: the paths given to [os.Stat], and the
    returned pair, whose directory is empty when there is an error. *)
Definition ResolveDirectory (v : VirtualFile) (importPath : string)
  : list string * result string :=
  if isStdLib importPath
  then ([], Ok (filepathJoin [stdDir; importPath]))
  else
    let dir := filepathJoin [GOPATH; "src"; importPath] in
    match stat dir with
    | Err err =>
      if IsNotExist err
      then ([dir],
            Err (Errorf (Strconv.Quote isPrintTable dir
                         +:+ " doesn't exist. Unable to resolve import path "
                         +:+ Strconv.Quote isPrintTable importPath)))
      else ([dir], Err err)
    | Ok _ => ([dir], Ok dir)
    end.

End Host.

End Mod.

(** ** The elements of a path *)

Module Elements.
Import Utf8 Path.

(** A text without slash. *)
Fixpoint noSlash (s : string) : bool :=
  match s with
  | EmptyString => true
  | String c s' => negb (isSlash c) && noSlash s'
  end.

(** The elements that [Clean] keeps when there is no [..]: those that are
    neither empty nor a single dot. *)
Definition keep (e : string) : bool :=
  negb (String.eqb e EmptyString || String.eqb e ".").

(** The bytes of a text, the last one first. *)
Fixpoint revBytes (acc : buffer) (s : string) : buffer :=
  match s with
  | EmptyString => acc
  | String c s' => revBytes (c :: acc) s'
  end.

(** The buffer after the elements [es] have been copied to it, each after
    a slash unless the buffer holds the root alone. *)
Fixpoint pushAll (out : buffer) (es : list string) : buffer :=
  match es with
  | [] => out
  | e :: es' =>
    pushAll (revBytes (if (length out =? 1)%nat then out else slash :: out) e)
            es'
  end.

(** What is left of a path after its first element: nothing, or a slash
    and the other elements. *)
Definition afterElement (es : list string) : string :=
  match es with
  | [] => EmptyString
  | _ => String slash (Split.Join es "/")
  end.

(** The elements of a rooted path, the root left out. *)
Definition elements (p : string) : list string :=
  match p with
  | String _ p' => List.filter keep (Split.Split p' slash)
  | EmptyString => []
  end.

(** Whether [..] is an element of a rooted path. *)
Definition hasDotDot (p : string) : bool :=
  match p with
  | String _ p' => existsb (String.eqb "..") (Split.Split p' slash)
  | EmptyString => false
  end.

(** An element that [Clean] leaves in a path: no slash in it, not empty,
    neither [.] nor [..]. *)
Definition plainElement (e : string) : bool :=
  noSlash e && keep e && negb (String.eqb ".." e).

(** A rooted path. *)
Definition rooted (p : string) : bool :=
  match p with
  | String c _ => isSlash c
  | EmptyString => false
  end.

End Elements.


(** ** Further answers of an engine *)

Module Sample.

(** An answer that is valid JSON and whose body is a number. *)
Definition numericBody : string :=
  "{" +:+ Json.quoted "status" +:+ ":200,"
      +:+ Json.quoted "body" +:+ ":5}".

End Sample.

(** The calls of [Header.Set] of a trace, key and value of each, in
    order. *)
Fixpoint headerSets (tr : trace) : list (string * string) :=
  match tr with
  | [] => []
  | EHeaderSet key value :: tr' => (key, value) :: headerSets tr'
  | _ :: tr' => headerSets tr'
  end.

(** ** The text that a string literal denotes *)

(** The verb [%q] writes its argument as a double-quoted string literal of
    the syntax of Go.  This module gives the text that such a literal
    denotes, by the rules of the language for interpreted string literals:
    a byte other than the backslash denotes itself, a line feed is not
    allowed, and the escape sequences are the simple ones, [\x] with two
    hexadecimal digits and three octal digits for a byte, and [\u] with
    four and [\U] with eight hexadecimal digits for the UTF-8 encoding of
    a code point that is valid. *)
Module Interpreted.
Import Utf8.

(** The number written by the [n] hexadecimal digits at the head of [s],
    after the digits whose number is [acc]. *)
Fixpoint hex (n : nat) (acc : Z) (s : string) : option Z :=
  match n with
  | O => Some acc
  | S n' =>
    match s with
    | String c s' =>
      d ← Json.hexVal c; hex n' (Z.lor (Z.shiftl acc 4) d) s'
    | EmptyString => None
    end
  end.

(** The value of an octal digit. *)
Definition octVal (c : ascii) : option Z :=
  if between 48 55 (byte_val c) then Some (byte_val c - 48) else None.

(** The bytes that the escape sequence at the head of [s] denotes, the
    backslash being read already, and the number of bytes of [s] that the
    sequence takes. *)
Definition escape (s : string) : option (string * nat) :=
  match s with
  | EmptyString => None
  | String c s' =>
    let b := byte_val c in
    let byte v := Some (String (chr v) EmptyString, 1%nat) in
    if b =? 97 then byte 7
    else if b =? 98 then byte 8
    else if b =? 102 then byte 12
    else if b =? 110 then byte 10
    else if b =? 114 then byte 13
    else if b =? 116 then byte 9
    else if b =? 118 then byte 11
    else if b =? 92 then byte 92
    else if b =? 34 then byte 34
    else if b =? 120 then
      v ← hex 2 0 s'; Some (String (chr v) EmptyString, 3%nat)
    else if b =? 117 then
      v ← hex 4 0 s';
      if ValidRune v then Some (EncodeRune v, 5%nat) else None
    else if b =? 85 then
      v ← hex 8 0 s';
      if ValidRune v then Some (EncodeRune v, 9%nat) else None
    else if between 48 55 b then
      match s' with
      | String c1 (String c2 _) =>
        d1 ← octVal c1; d2 ← octVal c2;
        let v := (b - 48) * 64 + d1 * 8 + d2 in
        if v <=? 255 then Some (String (chr v) EmptyString, 3%nat) else None
      | _ => None
      end
    else None
  end.

(** The text denoted by the literal whose opening quote is read, and the
    text after its closing quote; [skip] counts the bytes of the current
    escape sequence still to be stepped over. *)
Fixpoint valueLoop (skip : nat) (s : string) : option (string * string) :=
  match s with
  | EmptyString => None
  | String c s' =>
    match skip with
    | S k => valueLoop k s'
    | O =>
      if byte_val c =? 34 then Some (EmptyString, s')
      else if byte_val c =? 10 then None
      else if byte_val c =? 92 then
        '(bytes, n) ← escape s';
        '(text, rest) ← valueLoop n s';
        Some (bytes +:+ text, rest)
      else
        '(text, rest) ← valueLoop 0 s';
        Some (String c text, rest)
    end
  end.

(** The text denoted by the string literal with which [s] starts, and the
    text after the literal. *)
Definition value (s : string) : option (string * string) :=
  match s with
  | String c s' => if byte_val c =? 34 then valueLoop 0 s' else None
  | EmptyString => None
  end.

End Interpreted.

Module Routes.

(** A route with a double quote and a backslash in it. *)
Definition tricky : string :=
  "/a" +:+ String Strconv.dquote ("b\c").

(** The literal that denotes it: a backslash before the double quote and
    before the backslash. *)
Definition trickyLiteral : string :=
  String Strconv.dquote
    ("/a\" +:+ String Strconv.dquote ("b\\c" +:+ String Strconv.dquote EmptyString)).

End Routes.
(** * Properties *)

(** ** Classification and forwarding *)

Section Middleware.
Context {Logger : Type}.
Implicit Types (sl : liveServer Logger) (ss : staticServer Logger).
Implicit Types (next : Handler) (r : Request).

Lemma live_Middleware_pass sl next r :
  isClient (URLPath r) = false -> live_Middleware sl next r = next r.
Proof. intros H. unfold live_Middleware. now rewrite H. Qed.

Lemma static_Middleware_pass ss next r :
  isClient (URLPath r) = false -> static_Middleware ss next r = next r.
Proof. intros H. unfold static_Middleware. now rewrite H. Qed.

Lemma live_Middleware_own sl next next' r :
  isClient (URLPath r) = true ->
  live_Middleware sl next r = live_Middleware sl next' r.
Proof. intros H. unfold live_Middleware. now rewrite H. Qed.

Lemma static_Middleware_own ss next r :
  isClient (URLPath r) = true ->
  static_Middleware ss next r = static_serveHTTP ss r.
Proof. intros H. unfold static_Middleware. now rewrite H. Qed.

(** Two handlers that answer every request differently. *)
Lemma handlers_differ (t : trace) :
  exists next : Handler, forall r, next r <> t.
Proof.
  exists (fun _ => EWrite "" :: t). intros _ E.
  apply (f_equal length) in E. simpl in E. lia.
Qed.

Lemma live_forwards_iff sl r :
  forwards (live_Middleware sl) r <-> isClient (URLPath r) = false.
Proof.
  split.
  - intros F. destruct (isClient (URLPath r)) eqn:E; [|reflexivity].
    destruct (handlers_differ (live_Middleware sl (fun _ => []) r))
      as [next Hn].
    exfalso. apply (Hn r). rewrite <- (F next).
    now apply live_Middleware_own.
  - intros E next. now apply live_Middleware_pass.
Qed.

Lemma static_forwards_iff ss r :
  forwards (static_Middleware ss) r <-> isClient (URLPath r) = false.
Proof.
  split.
  - intros F. destruct (isClient (URLPath r)) eqn:E; [|reflexivity].
    destruct (handlers_differ (static_serveHTTP ss r)) as [next Hn].
    exfalso. apply (Hn r). rewrite <- (F next).
    now apply static_Middleware_own.
  - intros E next. now apply static_Middleware_pass.
Qed.

End Middleware.

(** ** Serving client assets *)

(** C4. For a request that the live middleware classifies as a client
    asset: when opening the asset fails with a not-found error the response
    is [http.Error] with status 404 and the error text; when opening fails
    with another error, or the stat of the opened file fails, the response
    is [http.Error] with status 500 and the error text; and when both
    succeed the asset is served by [http.ServeContent] with the modification
    time of the stat, preceded by nothing but a content-type override. *)
Theorem live_asset_responses {Logger} (s : liveServer Logger) next r :
  isClient (URLPath r) = true ->
  let name := Strings.TrimPrefix (URLPath r) "/" in
  (forall err, live_hfs s name = Err err -> IsNotExist err = true ->
     live_Middleware s next r =
     [EOpenFailed name err; EHttpError (Error err) 404]) /\
  (forall err, live_hfs s name = Err err -> IsNotExist err = false ->
     live_Middleware s next r =
     [EOpenFailed name err; ELogError "view: open error" err;
      EHttpError (Error err) 500]) /\
  (forall file err, live_hfs s name = Ok file -> Stat file = Err err ->
     live_Middleware s next r =
     [EOpened name file; ELogError "view: stat error" err;
      EHttpError (Error err) 500; EClosed file]) /\
  (forall file modtime, live_hfs s name = Ok file -> Stat file = Ok modtime ->
     exists pre,
       Forall isContentTypeOverride pre /\
       live_Middleware s next r =
       EOpened name file :: pre
         ++ [EServeContent r (URLPath r) modtime file; EClosed file]).
Proof.
  intros Hc name. unfold live_Middleware. rewrite Hc. cbn [negb]. fold name.
  repeat split.
  - intros err -> ->. reflexivity.
  - intros err -> ->. reflexivity.
  - intros file err -> ->. reflexivity.
  - intros file modtime -> ->.
    destruct (Strings.HasPrefix (URLPath r) "/bud/node_modules/" ||
              Strings.HasSuffix (URLPath r) ".svelte").
    + exists [EHeaderSet "Content-Type" "application/javascript"].
      split; [repeat constructor | reflexivity].
    + exists []. split; [constructor | reflexivity].
Qed.

(** C5. For a request that the static middleware classifies as a client
    asset, every error of the open or of the stat, a not-found error
    included, is answered by [http.Error] with status 500 and the error
    text; no such request is answered with status 404. *)
Theorem static_asset_errors {Logger} (s : staticServer Logger) next r :
  isClient (URLPath r) = true ->
  (forall err, static_hfs s (URLPath r) = Err err ->
     static_Middleware s next r =
     [EOpenFailed (URLPath r) err; ELogError "view: open error" err;
      EHttpError (Error err) 500]) /\
  (forall file err, static_hfs s (URLPath r) = Ok file -> Stat file = Err err ->
     static_Middleware s next r =
     [EOpened (URLPath r) file; ELogError "view: stat error" err;
      EHttpError (Error err) 500]) /\
  (forall text, ~ In (EHttpError text 404) (static_Middleware s next r)).
Proof.
  intros Hc. unfold static_Middleware. rewrite Hc. cbn [negb].
  unfold static_serveHTTP. repeat split.
  - intros err ->. reflexivity.
  - intros file err -> ->. reflexivity.
  - intros text. destruct (static_hfs s (URLPath r)) as [file|err].
    + destruct (Stat file) as [modtime|err];
        [destruct (Strings.HasPrefix (URLPath r) "/bud/node_modules/")|];
        cbn; intros H; repeat (destruct H as [H|H]; [discriminate H|]);
        exact H.
    + cbn. intros H. repeat (destruct H as [H|H]; [discriminate H|]). exact H.
Qed.

Lemma live_asset_responses_witness :
  live_Middleware Example.live Example.noNext
                  (Example.get "/bud/node_modules/missing.js")
  = [EOpenFailed "bud/node_modules/missing.js"
                 (Example.notExist "bud/node_modules/missing.js");
     EHttpError "open bud/node_modules/missing.js: file does not exist" 404].
Proof.
  apply (proj1 (live_asset_responses Example.live Example.noNext
                  (Example.get "/bud/node_modules/missing.js") eq_refl));
    reflexivity.
Defined.

Lemma static_asset_errors_witness :
  static_Middleware Example.static Example.noNext
                    (Example.get "/bud/node_modules/missing.js")
  = [EOpenFailed "/bud/node_modules/missing.js"
                 (Example.notExist "/bud/node_modules/missing.js");
     ELogError "view: open error"
               (Example.notExist "/bud/node_modules/missing.js");
     EHttpError "open /bud/node_modules/missing.js: file does not exist" 500].
Proof.
  apply (proj1 (static_asset_errors Example.static Example.noNext
                  (Example.get "/bud/node_modules/missing.js") eq_refl)).
  reflexivity.
Defined.

(** C6, as the claim states it, fails: no request is classified differently
    by the two variants, that is, forwarded by one and intercepted by the
    other. *)
Lemma no_request_classified_differently :
  ~ exists (Logger : Type) (sl : liveServer Logger) (ss : staticServer Logger)
           (r : Request),
      (forwards (live_Middleware sl) r /\ ~ forwards (static_Middleware ss) r)
      \/ (~ forwards (live_Middleware sl) r /\ forwards (static_Middleware ss) r).
Proof.
  intros (Logger & sl & ss & r & [[Hl Hs]|[Hl Hs]]).
  - apply Hs. apply static_forwards_iff. now apply live_forwards_iff in Hl.
  - apply Hl. apply live_forwards_iff. now apply static_forwards_iff in Hs.
Qed.

(** C6, amended. Both variants classify a request with the one test
    [isClient]: the path starts with [/bud/node_modules/] or with
    [/bud/view/].  A path that fails the test is forwarded unmodified to the
    next handler by both variants, and a path that passes it is forwarded by
    neither. *)
Theorem same_classification {Logger} (sl : liveServer Logger)
        (ss : staticServer Logger) (r : Request) :
  isClient (URLPath r) =
    (Strings.HasPrefix (URLPath r) "/bud/node_modules/" ||
     Strings.HasPrefix (URLPath r) "/bud/view/") /\
  (forwards (live_Middleware sl) r <-> isClient (URLPath r) = false) /\
  (forwards (static_Middleware ss) r <-> isClient (URLPath r) = false) /\
  (forwards (live_Middleware sl) r <-> forwards (static_Middleware ss) r).
Proof.
  split; [reflexivity|].
  split; [apply live_forwards_iff|].
  split; [apply static_forwards_iff|].
  rewrite live_forwards_iff, static_forwards_iff. reflexivity.
Qed.

(** ** File handles *)

Section Handles.
Context {Logger : Type}.

(** The live middleware closes the handle it opened, on every path. *)
Lemma live_closes_handle (s : liveServer Logger) r :
  isClient (URLPath r) = true ->
  openHandles [] (live_Middleware s (fun _ => []) r) = [].
Proof.
  intros Hc. unfold live_Middleware. rewrite Hc. cbn [negb].
  destruct (live_hfs s _) as [file|err].
  - destruct (Stat file) as [modtime|err].
    + destruct (_ || _); cbn; rewrite decide_False by tauto; reflexivity.
    + cbn. rewrite decide_False by tauto. reflexivity.
  - destruct (IsNotExist err); reflexivity.
Qed.

(** The static middleware returns with the handle it opened still open,
    whether the stat succeeds or not. *)
Lemma static_leaves_handle (s : staticServer Logger) next r file :
  isClient (URLPath r) = true ->
  static_hfs s (URLPath r) = Ok file ->
  openHandles [] (static_Middleware s next r) = [fileId file].
Proof.
  intros Hc Ho. unfold static_Middleware. rewrite Hc. cbn [negb].
  unfold static_serveHTTP. rewrite Ho.
  destruct (Stat file) as [modtime|err]; [destruct (Strings.HasPrefix _ _)|];
    reflexivity.
Qed.

End Handles.

(** C7 fails on the static variant. Serving the client runtime from the
    static server opens the asset and returns with its handle (of identity
    1) open: [serveHTTP] has no call of [Close], where the live middleware
    defers one. *)
Theorem static_handle_not_closed :
  static_Middleware Example.static Example.noNext
                    (Example.get "/bud/node_modules/livebud/runtime")
  = [EOpened "/bud/node_modules/livebud/runtime" Example.runtimeFile;
     EHeaderAdd "Content-Type" "text/javascript";
     EServeContent (Example.get "/bud/node_modules/livebud/runtime")
                   "/bud/node_modules/livebud/runtime" 1700000000
                   Example.runtimeFile] /\
  openHandles [] (static_Middleware Example.static Example.noNext
                    (Example.get "/bud/node_modules/livebud/runtime")) = [1%nat] /\
  openHandles [] (live_Middleware Example.live Example.noNext
                    (Example.get "/bud/node_modules/livebud/runtime")) = [].
Proof. repeat split. Qed.

(** ** Content-type overrides *)

Lemma canonical_content_type :
  Header.CanonicalMIMEHeaderKey "Content-Type" = "Content-Type".
Proof. reflexivity. Qed.

Lemma Add_fresh_is_Set (h : Header.t) (key value : string) :
  h !! Header.CanonicalMIMEHeaderKey key = None ->
  Header.Add h key value = Header.Set_ h key value.
Proof. intros E. unfold Header.Add, Header.Set_. now rewrite E. Qed.

(** C8 fails on the static variant.  On a response that already carries a
    content type, the static middleware reaches [http.ServeContent] with
    the earlier value still first and [text/javascript] appended to it:
    the content type is not set to [text/javascript], because [serveHTTP]
    calls [Header.Add].  The live middleware, under the same comment of the
    source, calls [Header.Set]: on the same response it reaches
    [http.ServeContent] with [application/javascript] as the only value. *)
Theorem static_content_type_appended :
  let h0 : Header.t := {[ "Content-Type" := ["text/html"] ]} in
  let r := Example.get "/bud/node_modules/livebud/runtime" in
  Strings.HasPrefix (URLPath r) "/bud/node_modules/" = true /\
  (exists h,
    Header.atServeContent h0
      (static_Middleware Example.static Example.noNext r) = Some h /\
    Header.Values h "Content-Type" = ["text/html"; "text/javascript"] /\
    h <> Header.Set_ h0 "Content-Type" "text/javascript") /\
  (exists h,
    Header.atServeContent h0
      (live_Middleware Example.live Example.noNext r) = Some h /\
    Header.Values h "Content-Type" = ["application/javascript"] /\
    h = Header.Set_ h0 "Content-Type" "application/javascript").
Proof.
  intros h0 r. split; [reflexivity|]. split.
  - eexists. split; [reflexivity|]. split.
    + unfold Header.Values. rewrite canonical_content_type.
      cbn. unfold Header.Add. rewrite canonical_content_type.
      rewrite lookup_insert_eq. unfold h0. rewrite lookup_singleton_eq.
      reflexivity.
    + cbn. unfold Header.Add, Header.Set_. rewrite canonical_content_type.
      intros E. apply (f_equal (fun m => m !! "Content-Type")) in E.
      rewrite !lookup_insert_eq in E. unfold h0 in E.
      rewrite lookup_singleton_eq in E. discriminate E.
  - eexists. split; [reflexivity|]. split; [|reflexivity].
    unfold Header.Values. rewrite canonical_content_type.
    cbn. unfold Header.Set_. rewrite canonical_content_type.
    rewrite lookup_insert_eq. reflexivity.
Qed.

(** The header with which each middleware reaches [http.ServeContent].
    When the asset is opened and its stat succeeds, the live
    middleware reaches [http.ServeContent] with [Content-Type] set to
    [application/javascript] exactly when the path starts with
    [/bud/node_modules/] or ends with [.svelte], and the static middleware
    reaches it with [text/javascript] added to the values of [Content-Type]
    exactly when the path starts with [/bud/node_modules/]; adding equals
    setting when the response carried no content type.  In all other cases
    the header is left as it was. *)
Theorem content_type_overrides {Logger} (sl : liveServer Logger)
        (ss : staticServer Logger) next r (h0 : Header.t)
        lfile lmod sfile smod :
  isClient (URLPath r) = true ->
  live_hfs sl (Strings.TrimPrefix (URLPath r) "/") = Ok lfile ->
  Stat lfile = Ok lmod ->
  static_hfs ss (URLPath r) = Ok sfile ->
  Stat sfile = Ok smod ->
  Header.atServeContent h0 (live_Middleware sl next r) =
    Some (if Strings.HasPrefix (URLPath r) "/bud/node_modules/" ||
             Strings.HasSuffix (URLPath r) ".svelte"
          then Header.Set_ h0 "Content-Type" "application/javascript"
          else h0) /\
  Header.atServeContent h0 (static_Middleware ss next r) =
    Some (if Strings.HasPrefix (URLPath r) "/bud/node_modules/"
          then Header.Add h0 "Content-Type" "text/javascript"
          else h0) /\
  (h0 !! "Content-Type" = None ->
   Header.Add h0 "Content-Type" "text/javascript" =
   Header.Set_ h0 "Content-Type" "text/javascript").
Proof.
  intros Hc Hlo Hls Hso Hss. repeat split.
  - unfold live_Middleware. rewrite Hc, Hlo, Hls. cbn [negb].
    destruct (_ || _); reflexivity.
  - unfold static_Middleware, static_serveHTTP. rewrite Hc, Hso, Hss.
    cbn [negb]. destruct (Strings.HasPrefix _ _); reflexivity.
  - intros E. apply Add_fresh_is_Set. now rewrite canonical_content_type.
Qed.

Lemma content_type_overrides_witness :
  Header.atServeContent ∅
    (live_Middleware Example.live Example.noNext
       (Example.get "/bud/node_modules/livebud/runtime")) =
    Some (Header.Set_ ∅ "Content-Type" "application/javascript") /\
  Header.atServeContent ∅
    (static_Middleware Example.static Example.noNext
       (Example.get "/bud/node_modules/livebud/runtime")) =
    Some (Header.Add ∅ "Content-Type" "text/javascript").
Proof.
  pose proof (content_type_overrides Example.live Example.static
                Example.noNext
                (Example.get "/bud/node_modules/livebud/runtime") ∅
                Example.runtimeFile 1700000000 Example.runtimeFile 1700000000
                eq_refl eq_refl eq_refl eq_refl eq_refl) as (Hl & Hs & _).
  split; [exact Hl | exact Hs].
Defined.

(** ** Writing the response of a render *)

Lemma after_app (h : Header.t) (t1 t2 : trace) :
  Header.after h (t1 ++ t2) = Header.after (Header.after h t1) t2.
Proof. unfold Header.after. apply foldl_app. Qed.

Lemma after_calls (h : Header.t) (calls : trace) :
  Forall isRendererCall calls -> Header.after h calls = h.
Proof.
  unfold Header.after. intros F. revert h.
  induction F as [|e calls He _ IH]; intros h; [reflexivity|].
  cbn. destruct e; try contradiction; apply IH.
Qed.

(** Setting the headers of a list one after the other: a canonical key that
    some entry has ends with the single value of one such entry, the last;
    a canonical key that no entry has keeps what it had. *)
Lemma after_setHeaders_hit (l : list (string * string)) (h : Header.t) c :
  (exists kv, kv ∈ l /\ Header.CanonicalMIMEHeaderKey (fst kv) = c) ->
  exists kv, kv ∈ l /\ Header.CanonicalMIMEHeaderKey (fst kv) = c /\
             Header.after h (setHeaders l) !! c = Some [snd kv].
Proof.
  induction l as [|x l IH] using rev_ind; intros (kv & Hin & Hc).
  - inversion Hin.
  - unfold setHeaders. rewrite map_app, after_app. cbn.
    unfold Header.Set_.
    destruct (decide (Header.CanonicalMIMEHeaderKey (fst x) = c)) as [E|N].
    + exists x. split; [apply elem_of_app; right; constructor|].
      split; [exact E|]. rewrite E. apply lookup_insert_eq.
    + apply elem_of_app in Hin as [Hin|Hin].
      * destruct IH as (kv' & Hin' & Hc' & Hl); [now exists kv|].
        exists kv'. split; [apply elem_of_app; now left|].
        split; [exact Hc'|]. rewrite lookup_insert_ne by exact N. exact Hl.
      * apply list_elem_of_singleton in Hin. subst x. contradiction.
Qed.

Lemma after_setHeaders_miss (l : list (string * string)) (h : Header.t) c :
  (forall kv, kv ∈ l -> Header.CanonicalMIMEHeaderKey (fst kv) <> c) ->
  Header.after h (setHeaders l) !! c = h !! c.
Proof.
  induction l as [|x l IH] using rev_ind; intros Hm; [reflexivity|].
  unfold setHeaders. rewrite map_app, after_app. cbn. unfold Header.Set_.
  rewrite lookup_insert_ne.
  - apply IH. intros kv Hin. apply Hm, elem_of_app. now left.
  - apply Hm, elem_of_app. right. constructor.
Qed.

Section Respond.
Context {Props Logger : Type}.
Variable Marshal : Props -> result string.
Variable Unmarshal : string -> result Response.
Variable isPrintTable : Z -> bool.
Variable rangeOrder : gmap string string -> list (string * string).

Lemma Render_calls (rd : renderer) route (props : Props) :
  Forall isRendererCall
         (fst (Render Marshal Unmarshal isPrintTable rd route props)).
Proof.
  unfold Render. destruct (Marshal props); [|constructor].
  destruct (fsReadFile _ _); [|repeat constructor].
  destruct (vm rd _ _); [|repeat constructor].
  destruct (Unmarshal _); [|repeat constructor].
  destruct (_ || _); repeat constructor.
Qed.

Lemma writeResponse_eq (res : Response) :
  writeResponse rangeOrder res =
  setHeaders (rangeOrder (Headers res))
    ++ [EWriteHeader (Status res); EWrite (Body res)].
Proof. reflexivity. Qed.

Lemma live_respond_eq (s : liveServer Logger) route props :
  live_respond Marshal Unmarshal isPrintTable rangeOrder s route props =
  fst (Render Marshal Unmarshal isPrintTable (live_renderer s) route props)
  ++ match snd (Render Marshal Unmarshal isPrintTable
                       (live_renderer s) route props) with
     | Err err => [ELogError "view: render error" err;
                   EHttpError (Error err) 500]
     | Ok res => writeResponse rangeOrder res
     end.
Proof.
  unfold live_respond, live_render. now destruct (Render _ _ _ _ _ _).
Qed.

Lemma static_respond_eq (s : staticServer Logger) route props :
  static_respond Marshal Unmarshal isPrintTable rangeOrder s route props =
  fst (Render Marshal Unmarshal isPrintTable (static_renderer s) route props)
  ++ match snd (Render Marshal Unmarshal isPrintTable
                       (static_renderer s) route props) with
     | Err err => [ELogError "view: client open error" err;
                   EHttpError (Error err) 500]
     | Ok res => writeResponse rangeOrder res
     end.
Proof.
  unfold static_respond, static_render. now destruct (Render _ _ _ _ _ _).
Qed.

Hypothesis rangeOrder_entries :
  forall m : gmap string string, rangeOrder m ≡ₚ map_to_list m.

(** The header once a response has been written: last write wins among
    the entries with one canonical key, every other key is untouched. *)
Lemma after_written (h0 : Header.t) (calls : trace) (res : Response) :
  Forall isRendererCall calls ->
  let h := Header.after h0 (calls ++ writeResponse rangeOrder res) in
  (forall k v, Headers res !! k = Some v ->
     exists k' v', Headers res !! k' = Some v' /\
       Header.CanonicalMIMEHeaderKey k' = Header.CanonicalMIMEHeaderKey k /\
       h !! Header.CanonicalMIMEHeaderKey k = Some [v']) /\
  (forall c, (forall k, is_Some (Headers res !! k) ->
                Header.CanonicalMIMEHeaderKey k <> c) ->
     h !! c = h0 !! c).
Proof.
  intros Hcalls h. subst h.
  rewrite after_app, (after_calls _ _ Hcalls), writeResponse_eq, after_app.
  change (Header.after ?x [EWriteHeader _; EWrite _]) with x.
  split.
  - intros k v Hk.
    destruct (after_setHeaders_hit (rangeOrder (Headers res)) h0
                (Header.CanonicalMIMEHeaderKey k)) as (kv & Hin & Hc & Hl).
    + exists (k, v). split; [|reflexivity].
      rewrite rangeOrder_entries. now apply elem_of_map_to_list.
    + destruct kv as [k' v']. exists k', v'.
      rewrite rangeOrder_entries in Hin.
      apply elem_of_map_to_list in Hin. auto.
  - intros c Hm. apply after_setHeaders_miss.
    intros [k v] Hin. rewrite rangeOrder_entries in Hin.
    apply elem_of_map_to_list in Hin. apply Hm. now exists v.
Qed.

End Respond.

(** C9. In both variants the handler returned by [Handler(route, props)]
    makes the calls of the render and then, when the render succeeds, sets
    each header of the response, writes the status and writes the body, in
    that order, so that among the entries with one canonical key the last
    one set is the value left in the header; when the render fails it
    answers with [http.Error], status 500 and the text of the error, and
    nothing of a response is written before. *)
Theorem respond_writes {Props Logger : Type}
        (Marshal : Props -> result string)
        (Unmarshal : string -> result Response) (isPrintTable : Z -> bool)
        (rangeOrder : gmap string string -> list (string * string))
        (sl : liveServer Logger) (ss : staticServer Logger)
        (route : string) (props : Props) (r : Request) (h0 : Header.t) :
  (forall m : gmap string string, rangeOrder m ≡ₚ map_to_list m) ->
  let lr := Render Marshal Unmarshal isPrintTable (live_renderer sl) route props in
  let sr := Render Marshal Unmarshal isPrintTable (static_renderer ss) route props in
  let lt := live_Handler Marshal Unmarshal isPrintTable rangeOrder sl route props r in
  let st := static_Handler Marshal Unmarshal isPrintTable rangeOrder ss route props r in
  let written (res : Response) (h : Header.t) :=
    (forall k v, Headers res !! k = Some v ->
       exists k' v', Headers res !! k' = Some v' /\
         Header.CanonicalMIMEHeaderKey k' = Header.CanonicalMIMEHeaderKey k /\
         h !! Header.CanonicalMIMEHeaderKey k = Some [v']) /\
    (forall c, (forall k, is_Some (Headers res !! k) ->
                  Header.CanonicalMIMEHeaderKey k <> c) ->
       h !! c = h0 !! c) in
  Forall isRendererCall (fst lr) /\
  Forall isRendererCall (fst sr) /\
  match snd lr with
  | Ok res =>
    lt = fst lr ++ setHeaders (rangeOrder (Headers res))
                ++ [EWriteHeader (Status res); EWrite (Body res)] /\
    written res (Header.after h0 lt)
  | Err err =>
    lt = fst lr ++ [ELogError "view: render error" err;
                    EHttpError (Error err) 500]
  end /\
  match snd sr with
  | Ok res =>
    st = fst sr ++ setHeaders (rangeOrder (Headers res))
                ++ [EWriteHeader (Status res); EWrite (Body res)] /\
    written res (Header.after h0 st)
  | Err err =>
    st = fst sr ++ [ELogError "view: client open error" err;
                    EHttpError (Error err) 500]
  end.
Proof.
  intros Hperm lr sr lt st written.
  split; [apply Render_calls|]. split; [apply Render_calls|].
  split.
  - subst lt. unfold live_Handler. rewrite live_respond_eq. fold lr.
    destruct (snd lr) as [res|err]; [|reflexivity].
    split; [reflexivity|].
    apply (after_written rangeOrder Hperm); apply Render_calls.
  - subst st. unfold static_Handler. rewrite static_respond_eq. fold sr.
    destruct (snd sr) as [res|err]; [|reflexivity].
    split; [reflexivity|].
    apply (after_written rangeOrder Hperm); apply Render_calls.
Qed.

(** ** The unused argument of [Static] *)

(** C10. The function given to [Static] as [wrapProps] is not kept in the
    server: two servers built with different functions are the same server,
    so their middleware and their route handlers answer every request
    alike, and the render receives the props as the caller gave them. *)
Theorem wrapProps_ignored {Props Logger : Type}
        (Marshal : Props -> result string)
        (Unmarshal : string -> result Response) (isPrintTable : Z -> bool)
        (rangeOrder : gmap string string -> list (string * string))
        (httpFS : FS -> FileSystem) (fsys : FS) (log : Logger) (vm : VM)
        (wrap1 wrap2 : string -> Props -> Props)
        (next : Handler) (route : string) (props : Props) (r : Request) :
  Static httpFS fsys log vm wrap1 = Static httpFS fsys log vm wrap2 /\
  static_Middleware (Static httpFS fsys log vm wrap1) next r =
  static_Middleware (Static httpFS fsys log vm wrap2) next r /\
  static_Handler Marshal Unmarshal isPrintTable rangeOrder
                 (Static httpFS fsys log vm wrap1) route props r =
  static_Handler Marshal Unmarshal isPrintTable rangeOrder
                 (Static httpFS fsys log vm wrap2) route props r /\
  static_render Marshal Unmarshal isPrintTable
                (Static httpFS fsys log vm wrap1) route props =
  Render Marshal Unmarshal isPrintTable (mkRenderer fsys vm) route props.
Proof. repeat split. Qed.

(** ** The outcome of a render *)

(** Decoding fails on a text that is not JSON, with a syntax error, and on
    a JSON value that does not fit the response, with the error of the
    first field that does not fit; it fails in no other case. *)
Lemma Unmarshal_fails (result : string) (e : error) :
  Json.Unmarshal result = Err e <->
  (Json.parse result = None /\ e = Json.syntaxError) \/
  (exists v, Json.parse result = Some v /\ Json.decodeResponse v = Err e).
Proof.
  unfold Json.Unmarshal. destruct (Json.parse result) as [v|]; split.
  - intros H. right. now exists v.
  - intros [[H _]|(v' & [= <-] & H)]; [discriminate H|exact H].
  - intros [= <-]. now left.
  - intros [[_ ->]|(v' & H & _)]; [reflexivity|discriminate H].
Qed.

(** C1, amended. [Render] returns an error, and no response, exactly when
    one of its stages fails, and the error is that of the first stage to
    fail: the serialization of the props, the read of [bud/view/_ssr.js],
    the evaluation by the engine, the decoding of the result of the engine
    into a response, or the check of the decoded status against 100..999,
    whose error is a new one with the text [view: invalid status code]
    followed by the status.  Otherwise it returns the decoded response.  So
    an engine that answers with status 0, 99, 1000 or -1 gets the error
    that names this status.  The decoding of [encoding/json] fails on a
    text that is not JSON and also on JSON that does not fit the response;
    a result that is valid JSON is not enough for the render to succeed. *)
Theorem Render_outcome {Props : Type} (Marshal : Props -> result string)
        (Unmarshal : string -> result Response) (isPrintTable : Z -> bool)
        (rd : renderer) (route : string) (props : Props) :
  let out := snd (Render Marshal Unmarshal isPrintTable rd route props) in
  let evaluated propBytes script :=
    vm rd "_ssr.js" (renderExpr isPrintTable script route propBytes) in
  let reached result :=
    exists propBytes script,
      Marshal props = Ok propBytes /\
      fsReadFile (fsys rd) "bud/view/_ssr.js" = Ok script /\
      evaluated propBytes script = Ok result in
  (forall e, out = Err e <->
     Marshal props = Err e \/
     (exists propBytes, Marshal props = Ok propBytes /\
        fsReadFile (fsys rd) "bud/view/_ssr.js" = Err e) \/
     (exists propBytes script, Marshal props = Ok propBytes /\
        fsReadFile (fsys rd) "bud/view/_ssr.js" = Ok script /\
        evaluated propBytes script = Err e) \/
     (exists result, reached result /\ Unmarshal result = Err e) \/
     (exists result res, reached result /\ Unmarshal result = Ok res /\
        (Status res < 100 \/ 999 < Status res) /\
        e = mkError ("view: invalid status code " +:+ FormatInt (Status res))
                    false)) /\
  (forall res, out = Ok res <->
     exists result, reached result /\ Unmarshal result = Ok res /\
                    100 <= Status res <= 999) /\
  map (fun status =>
         snd (Render Example.Marshal Json.Unmarshal Example.table
                (mkRenderer Example.bundle
                   (Example.echo
                      (Json.encodeResponse (mkResponse status ∅ EmptyString))))
                "/" Example.world))
      [0; 99; 1000; -1] =
    [Err (mkError "view: invalid status code 0" false);
     Err (mkError "view: invalid status code 99" false);
     Err (mkError "view: invalid status code 1000" false);
     Err (mkError "view: invalid status code -1" false)] /\
  (forall result e,
     Json.Unmarshal result = Err e <->
     (Json.parse result = None /\ e = Json.syntaxError) \/
     (exists v, Json.parse result = Some v /\ Json.decodeResponse v = Err e)).
Proof.
  intros out evaluated reached. subst out evaluated reached. unfold Render.
  destruct (Marshal props) as [propBytes|e0] eqn:EM; cbn [snd].
  2:{ split; [|split; [|split; [vm_compute; reflexivity|apply Unmarshal_fails]]].
      - intros e. split.
        + intros [= <-]. now left.
        + intros [[= <-]|[(?&[=]&_)|[(?&?&[=]&_)|[(?&(?&?&[=]&_)&_)
                 |(?&?&(?&?&[=]&_)&_)]]]]. reflexivity.
      - intros res. split; [discriminate|].
        intros (?&(?&?&[=]&_)&_). }
  destruct (fsReadFile (fsys rd) "bud/view/_ssr.js") as [script|e0] eqn:ER;
    cbn [snd].
  2:{ split; [|split; [|split; [vm_compute; reflexivity|apply Unmarshal_fails]]].
      - intros e. split.
        + intros [= <-]. right; left. now exists propBytes.
        + intros [[=]|[(?&_&[= <-])|[(?&?&_&[=]&_)|[(?&(?&?&_&[=]&_)&_)
                 |(?&?&(?&?&_&[=]&_)&_)]]]]. reflexivity.
      - intros res. split; [discriminate|].
        intros (?&(?&?&_&[=]&_)&_). }
  destruct (vm rd "_ssr.js" (renderExpr isPrintTable script route propBytes))
    as [result|e0] eqn:EV; cbn [snd].
  2:{ split; [|split; [|split; [vm_compute; reflexivity|apply Unmarshal_fails]]].
      - intros e. split.
        + intros [= <-]. right; right; left. now exists propBytes, script.
        + intros [[=]|[(?&_&[=])|[(?&?&[= <-]&[= <-]&H)
                 |[(?&(?&?&[= <-]&[= <-]&H)&_)
                 |(?&?&(?&?&[= <-]&[= <-]&H)&_)]]]];
            rewrite EV in H; congruence.
      - intros res. split; [discriminate|].
        intros (?&(?&?&[= <-]&[= <-]&H)&_). rewrite EV in H. discriminate. }
  assert (Hreach : forall result', (exists pb sc, Ok propBytes = Ok pb /\
             Ok script = Ok sc /\
             vm rd "_ssr.js" (renderExpr isPrintTable sc route pb) = Ok result')
            <-> result' = result).
  { intros result'. split.
    - intros (?&?&[= <-]&[= <-]&H). rewrite EV in H. congruence.
    - intros ->. now exists propBytes, script. }
  destruct (Unmarshal result) as [res0|e0] eqn:EU; cbn [snd].
  2:{ split; [|split; [|split; [vm_compute; reflexivity|apply Unmarshal_fails]]].
      - intros e. split.
        + intros [= <-]. do 3 right; left. exists result.
          split; [now apply Hreach|exact EU].
        + intros [[=]|[(?&_&[=])|[(?&?&[= <-]&[= <-]&H)|[(?&Hr&H)
                 |(?&?&Hr&H&_)]]]].
          * rewrite EV in H. discriminate.
          * apply Hreach in Hr. subst. congruence.
          * apply Hreach in Hr. subst. congruence.
      - intros res. split; [discriminate|].
        intros (?&Hr&H&_). apply Hreach in Hr. subst. congruence. }
  destruct ((Status res0 <? 100) || (Status res0 >? 999)) eqn:ES; cbn [snd].
  - assert (Hs : Status res0 < 100 \/ 999 < Status res0).
    { apply orb_true_iff in ES as [H|H]; [left|right]; lia. }
    split; [|split; [|split; [vm_compute; reflexivity|apply Unmarshal_fails]]].
    + intros e. split.
      * intros [= <-]. do 4 right. exists result, res0.
        split; [now apply Hreach|]. auto.
      * intros [[=]|[(?&_&[=])|[(?&?&[= <-]&[= <-]&H)|[(?&Hr&H)
               |(?&?&Hr&H&_&->)]]]].
        -- rewrite EV in H. discriminate.
        -- apply Hreach in Hr. subst. congruence.
        -- apply Hreach in Hr. subst. rewrite EU in H. now inversion H.
    + intros res. split; [discriminate|].
      intros (?&Hr&H&Hrange). apply Hreach in Hr. subst.
      rewrite EU in H. inversion H. subst. lia.
  - assert (Hs : 100 <= Status res0 <= 999).
    { apply orb_false_iff in ES as [H1 H2]. lia. }
    split; [|split; [|split; [vm_compute; reflexivity|apply Unmarshal_fails]]].
    + intros e. split; [discriminate|].
      intros [[=]|[(?&_&[=])|[(?&?&[= <-]&[= <-]&H)|[(?&Hr&H)
             |(?&?&Hr&H&Hrange&_)]]]].
      * rewrite EV in H. discriminate.
      * apply Hreach in Hr. subst. congruence.
      * apply Hreach in Hr. subst. rewrite EU in H. inversion H. subst. lia.
    + intros res. split.
      * intros [= <-]. exists result. split; [now apply Hreach|]. auto.
      * intros (?&Hr&H&_). apply Hreach in Hr. subst. congruence.
Qed.

(** C1, as the claim states it, fails.  The props are serialized, the
    bundle is read, the engine answers, its answer is valid JSON (an object
    with the status 200 and the number 5 as body), and no status outside
    100..999 is decoded; yet [Render] returns an error, that of the decoder,
    because the body is not a string. *)
Lemma Render_rejects_valid_JSON :
  let rd := mkRenderer Example.bundle (Example.echo Sample.numericBody) in
  Example.Marshal Example.world = Ok (Json.encodeMap Example.world) /\
  fsReadFile (fsys rd) "bud/view/_ssr.js" = Ok "var bud = {}" /\
  vm rd "_ssr.js"
     (renderExpr Example.table "var bud = {}" "/"
                 (Json.encodeMap Example.world)) = Ok Sample.numericBody /\
  Json.parse Sample.numericBody =
    Some (Json.Object [("status", Json.Number "200");
                       ("body", Json.Number "5")]) /\
  (forall res, Json.Unmarshal Sample.numericBody = Ok res ->
               100 <= Status res <= 999) /\
  snd (Render Example.Marshal Json.Unmarshal Example.table rd
              "/" Example.world) = Err (Json.typeError "body").
Proof.
  cbv zeta. split; [reflexivity|]. split; [reflexivity|].
  split; [reflexivity|]. split; [vm_compute; reflexivity|].
  split; [|vm_compute; reflexivity].
  intros res H. vm_compute in H. discriminate H.
Qed.

(** ** Bytes *)

Section Bytes.
Import Utf8.

Lemma append_cons c (a b : string) : String c a +:+ b = String c (a +:+ b).
Proof. reflexivity. Qed.

Lemma append_nil (b : string) : EmptyString +:+ b = b.
Proof. reflexivity. Qed.

Lemma append_assoc (a b c : string) : (a +:+ b) +:+ c = a +:+ (b +:+ c).
Proof.
  induction a as [|x a IH]; [reflexivity|].
  now rewrite !append_cons, IH.
Qed.

Lemma byte_val_range c : 0 <= byte_val c < 256.
Proof.
  unfold byte_val. pose proof (N_ascii_bounded c). lia.
Qed.

Lemma byte_val_chr b : 0 <= b < 256 -> byte_val (chr b) = b.
Proof.
  intros H. unfold byte_val, chr. rewrite Z.mod_small by lia.
  rewrite N_ascii_embedding by lia. lia.
Qed.

Lemma chr_byte_val c : chr (byte_val c) = c.
Proof.
  unfold chr, byte_val. pose proof (N_ascii_bounded c).
  rewrite Z.mod_small by lia. rewrite N2Z.id. apply ascii_N_embedding.
Qed.

(** A constant whose low [k] bits are clear, joined with a value of [k]
    bits, is their sum. *)
Lemma lor_low k a x :
  0 <= k -> 0 <= x < 2 ^ k -> Z.lor (a * 2 ^ k) x = a * 2 ^ k + x.
Proof.
  intros Hk Hx. symmetry. apply Z.add_nocarry_lor.
  apply Z.bits_inj'. intros n Hn.
  rewrite Z.land_spec, Z.bits_0.
  destruct (Z.lt_ge_cases n k) as [Hlt|Hge].
  - rewrite Z.mul_pow2_bits_low by lia. reflexivity.
  - destruct (Z.eq_dec x 0) as [->|Hne].
    + rewrite Z.bits_0. apply andb_false_r.
    + rewrite (Z.bits_above_log2 x n); [apply andb_false_r|lia|].
      apply Z.lt_le_trans with k; [|lia].
      apply Z.log2_lt_pow2; lia.
Qed.

Lemma land_low k x : 0 <= k -> Z.land x (2 ^ k - 1) = x mod 2 ^ k.
Proof.
  intros Hk. rewrite <- Z.land_ones by lia.
  rewrite Z.ones_equiv, Z.sub_1_r. reflexivity.
Qed.

End Bytes.

(** Reduce the binds of the option monad; put a concatenation in normal
    form. *)
Ltac bind_step := cbn [mbind option_bind].

Ltac norm_app :=
  repeat (rewrite append_cons || rewrite append_nil || rewrite append_assoc).

(** ** The quoted route is one string literal *)

Section Quoting.
Import Utf8 Strconv Literal.

Lemma allPlain_app a b : allPlain (a +:+ b) = allPlain a && allPlain b.
Proof.
  induction a as [|x a IH]; [reflexivity|].
  rewrite append_cons. cbn [allPlain]. rewrite IH. apply andb_assoc.
Qed.

Lemma inert_app a b : inert a -> inert b -> inert (a +:+ b).
Proof. intros Ha Hb k. now rewrite append_assoc, Ha, Hb. Qed.

Lemma inert_plain p : allPlain p = true -> inert p.
Proof.
  induction p as [|c p IH]; intros H k; [reflexivity|].
  cbn in H. apply andb_true_iff in H as [Hc Hp].
  unfold plain in Hc. apply negb_true_iff in Hc.
  repeat (apply orb_false_iff in Hc as [Hc ?]).
  rewrite append_cons. cbn [scanBody]. rewrite Hc, H1, H0, H. cbn [orb].
  now apply IH.
Qed.

Lemma inert_escape c p : allPlain p = true -> inert (String backslash (String c p)).
Proof.
  intros H k. rewrite !append_cons. cbn [scanBody].
  change (byte_val backslash =? 92) with true. cbn iota.
  now apply inert_plain.
Qed.

Lemma lowerhex_plain d : 0 <= d < 16 -> plain (byte_val (lowerhex d)) = true.
Proof.
  intros H. unfold lowerhex.
  destruct (d <? 10) eqn:E; rewrite byte_val_chr by lia; unfold plain;
    apply negb_true_iff; repeat (apply orb_false_iff; split); lia.
Qed.

Lemma hexdigits_plain n r : allPlain (hexdigits n r) = true.
Proof.
  induction n as [|n IH]; [reflexivity|]. cbn [hexdigits allPlain].
  rewrite IH, andb_true_r. apply lowerhex_plain.
  change 15 with (2 ^ 4 - 1). rewrite land_low by lia.
  apply Z.mod_pos_bound. lia.
Qed.

Lemma plain_high b : 128 <= b -> plain b = true.
Proof.
  intros H. unfold plain. apply negb_true_iff.
  repeat (apply orb_false_iff; split); lia.
Qed.

(** The byte [lead + x], written as the code writes it. *)
Lemma lead_byte_plain k a x :
  0 <= k -> 0 <= x < 2 ^ k -> 128 <= a * 2 ^ k -> a * 2 ^ k + 2 ^ k <= 256 ->
  plain (byte_val (chr (Z.lor (a * 2 ^ k) x))) = true.
Proof.
  intros Hk Hx Hlo Hhi. rewrite lor_low by assumption.
  rewrite byte_val_chr by lia. apply plain_high. lia.
Qed.

Lemma cont_byte_plain y :
  plain (byte_val (chr (Z.lor 0x80 (Z.land y 0x3F)))) = true.
Proof.
  change 0x80 with (2 * 2 ^ 6). change 0x3F with (2 ^ 6 - 1).
  rewrite land_low by lia. apply lead_byte_plain; try lia.
  apply Z.mod_pos_bound. lia.
Qed.

Lemma shiftr_bound r k n :
  0 <= k -> 0 <= r < n * 2 ^ k -> 0 <= Z.shiftr r k < n.
Proof.
  intros Hk Hr. rewrite Z.shiftr_div_pow2 by lia.
  assert (0 < 2 ^ k) by (apply Z.pow_pos_nonneg; lia).
  split; [apply Z.div_pos; lia|].
  apply Z.div_lt_upper_bound; lia.
Qed.

Lemma EncodeRune_plain r :
  (r < 128 -> plain r = true) -> allPlain (EncodeRune r) = true.
Proof.
  intros Hr. unfold EncodeRune, between, ValidRune, between, MaxRune.
  destruct ((0 <=? r) && (r <=? 127)) eqn:E1.
  { apply andb_true_iff in E1 as [? ?]. cbn.
    rewrite byte_val_chr by lia. rewrite Hr by lia. reflexivity. }
  destruct ((0 <=? r) && (r <=? 2047)) eqn:E2.
  { apply andb_true_iff in E2 as [? ?]. apply andb_false_iff in E1.
    cbn [allPlain]. rewrite cont_byte_plain.
    change 192 with (3 * 2 ^ 6).
    rewrite lead_byte_plain
      by (try lia; pose proof (shiftr_bound r 6 32); lia).
    reflexivity. }
  destruct (negb _) eqn:E3; [reflexivity|].
  apply negb_false_iff, orb_true_iff in E3.
  assert (0 <= r <= 1114111) by lia.
  destruct (r <=? 65535) eqn:E4.
  { unfold enc3. cbn [allPlain]. rewrite !cont_byte_plain.
    change 224 with (7 * 2 ^ 5).
    rewrite lead_byte_plain
      by (try lia; pose proof (shiftr_bound r 12 16); lia).
    reflexivity. }
  cbn [allPlain]. rewrite !cont_byte_plain.
  change 240 with (15 * 2 ^ 4).
  rewrite lead_byte_plain
    by (try lia; pose proof (shiftr_bound r 18 5); lia).
  reflexivity.
Qed.

Variable isPrintTable : Z -> bool.

Lemma escape_inert c p :
  allPlain p = true -> inert (String backslash (String c EmptyString) +:+ p).
Proof. intros H. rewrite !append_cons, append_nil. now apply inert_escape. Qed.

Lemma appendEscapedRune_inert r : inert (appendEscapedRune isPrintTable r).
Proof.
  unfold appendEscapedRune.
  destruct ((r =? 34) || (r =? 92)) eqn:E0; [now apply inert_escape|].
  apply orb_false_iff in E0 as [E34 E92].
  destruct (IsPrint isPrintTable r) eqn:EP.
  { apply inert_plain, EncodeRune_plain. intros Hr.
    unfold IsPrint, between in EP. unfold plain. apply negb_true_iff.
    destruct (r <=? 255) eqn:E255; [|lia].
    destruct (32 <=? r) eqn:A, (r <=? 126) eqn:B, (161 <=? r) eqn:C;
      cbn in EP; try discriminate EP;
      repeat (apply orb_false_iff; split); lia. }
  destruct (r =? 7); [now apply inert_escape|].
  destruct (r =? 8); [now apply inert_escape|].
  destruct (r =? 12); [now apply inert_escape|].
  destruct (r =? 10); [now apply inert_escape|].
  destruct (r =? 13); [now apply inert_escape|].
  destruct (r =? 9); [now apply inert_escape|].
  destruct (r =? 11); [now apply inert_escape|].
  destruct ((r <? 32) || (r =? 127));
    [apply (escape_inert "x"), hexdigits_plain|].
  destruct (negb (ValidRune r)); [apply (escape_inert "u"), hexdigits_plain|].
  destruct (r <? 65536); [apply (escape_inert "u")|apply (escape_inert "U")];
    apply hexdigits_plain.
Qed.

Lemma quoteLoop_inert s : forall skip, inert (quoteLoop isPrintTable skip s).
Proof.
  induction s as [|c s IH]; intros skip; [intros k; reflexivity|].
  cbn [quoteLoop]. destruct skip as [|skip]; [|apply IH].
  destruct (if byte_val c <? RuneSelf then (byte_val c, 1%nat)
            else DecodeRuneInString (String c s)) as [r width].
  apply inert_app; [|apply IH].
  destruct ((width =? 1)%nat && (r =? RuneError)).
  - apply (escape_inert "x"), hexdigits_plain.
  - apply appendEscapedRune_inert.
Qed.

(** Whatever the route and whatever follows it, the quoted route is
    scanned as one string literal that ends where the quotation ends. *)
Lemma Quote_is_one_literal (route rest : string) :
  scan (Quote isPrintTable route +:+ rest) = Some rest.
Proof.
  unfold Quote. rewrite append_cons. cbn [scan].
  change (byte_val dquote =? 34) with true. cbn iota.
  rewrite append_assoc, quoteLoop_inert, append_cons, append_nil.
  reflexivity.
Qed.

End Quoting.

(** ** UTF-8: encoding what was decoded *)

(** Evaluate the powers of two with a literal exponent, then call [lia]. *)
Ltac pow_lia :=
  repeat match goal with
         | |- context [2 ^ (Zpos ?p)] =>
           let v := eval compute in (2 ^ (Zpos p)) in
           change (2 ^ (Zpos p)) with v
         | H : context [2 ^ (Zpos ?p)] |- _ =>
           let v := eval compute in (2 ^ (Zpos p)) in
           change (2 ^ (Zpos p)) with v in H
         end;
  lia.

Section Utf8Facts.
Import Utf8.

Lemma between_spec lo hi b : between lo hi b = true <-> lo <= b <= hi.
Proof. unfold between. rewrite andb_true_iff. lia. Qed.

Lemma shiftl_mul x k : 0 <= k -> Z.shiftl x k = x * 2 ^ k.
Proof. intros. now apply Z.shiftl_mul_pow2. Qed.

Lemma shiftr_div x k : 0 <= k -> Z.shiftr x k = x / 2 ^ k.
Proof. intros. now apply Z.shiftr_div_pow2. Qed.

(** A continuation byte carries its six low bits. *)
Lemma cont_byte b y :
  128 <= b <= 191 -> y mod 64 = b - 128 ->
  Z.lor 0x80 (Z.land y 0x3F) = b.
Proof.
  intros Hb Hy. change 0x3F with (2 ^ 6 - 1). rewrite land_low by lia.
  change 0x80 with (2 * 2 ^ 6).
  rewrite lor_low by (try lia; apply Z.mod_pos_bound; lia).
  change (2 ^ 6) with 64. lia.
Qed.

Lemma lead_byte k a x b :
  0 <= k -> 0 <= x < 2 ^ k -> a * 2 ^ k + x = b -> Z.lor (a * 2 ^ k) x = b.
Proof. intros. rewrite lor_low; lia. Qed.

Lemma lor_add k a x y :
  0 <= k -> 0 <= x < 2 ^ k -> y = a * 2 ^ k -> Z.lor y x = y + x.
Proof. intros Hk Hx ->. now apply lor_low. Qed.

Lemma decode2 b0 b1 :
  0xC2 <= b0 <= 0xDF -> 0x80 <= b1 <= 0xBF ->
  Z.lor (Z.shiftl (Z.land b0 0x1F) 6) (Z.land b1 0x3F) =
  (b0 - 0xC0) * 64 + (b1 - 0x80).
Proof.
  intros H0 H1. change 0x1F with (2 ^ 5 - 1). change 0x3F with (2 ^ 6 - 1).
  rewrite !land_low, shiftl_mul by lia.
  rewrite lor_low by (try lia; apply Z.mod_pos_bound; lia).
  change (2 ^ 5) with 32. change (2 ^ 6) with 64.
  Z.div_mod_to_equations. lia.
Qed.

Lemma decode3 b0 b1 b2 :
  0xE0 <= b0 <= 0xEF -> 0x80 <= b1 <= 0xBF -> 0x80 <= b2 <= 0xBF ->
  Z.lor (Z.lor (Z.shiftl (Z.land b0 0x0F) 12) (Z.shiftl (Z.land b1 0x3F) 6))
        (Z.land b2 0x3F) =
  (b0 - 0xE0) * 4096 + (b1 - 0x80) * 64 + (b2 - 0x80).
Proof.
  intros H0 H1 H2.
  change 0x0F with (2 ^ 4 - 1). change 0x3F with (2 ^ 6 - 1).
  rewrite !land_low, !shiftl_mul by lia.
  assert (E0 : b0 mod 2 ^ 4 = b0 - 224)
    by (change (2 ^ 4) with 16; Z.div_mod_to_equations; lia).
  assert (E1 : b1 mod 2 ^ 6 = b1 - 128)
    by (change (2 ^ 6) with 64; Z.div_mod_to_equations; lia).
  assert (E2 : b2 mod 2 ^ 6 = b2 - 128)
    by (change (2 ^ 6) with 64; Z.div_mod_to_equations; lia).
  rewrite E0, E1, E2.
  rewrite (lor_add 12 (b0 - 224) ((b1 - 128) * 2 ^ 6)) by pow_lia.
  rewrite (lor_add 6 ((b0 - 224) * 64 + (b1 - 128)) (b2 - 128)) by pow_lia.
  pow_lia.
Qed.

Lemma decode4 b0 b1 b2 b3 :
  0xF0 <= b0 <= 0xF4 -> 0x80 <= b1 <= 0xBF -> 0x80 <= b2 <= 0xBF ->
  0x80 <= b3 <= 0xBF ->
  Z.lor (Z.lor (Z.lor (Z.shiftl (Z.land b0 0x07) 18)
                      (Z.shiftl (Z.land b1 0x3F) 12))
               (Z.shiftl (Z.land b2 0x3F) 6))
        (Z.land b3 0x3F) =
  (b0 - 0xF0) * 262144 + (b1 - 0x80) * 4096 + (b2 - 0x80) * 64 + (b3 - 0x80).
Proof.
  intros H0 H1 H2 H3.
  change 0x07 with (2 ^ 3 - 1). change 0x3F with (2 ^ 6 - 1).
  rewrite !land_low, !shiftl_mul by lia.
  assert (E0 : b0 mod 2 ^ 3 = b0 - 240)
    by (change (2 ^ 3) with 8; Z.div_mod_to_equations; lia).
  assert (E1 : b1 mod 2 ^ 6 = b1 - 128)
    by (change (2 ^ 6) with 64; Z.div_mod_to_equations; lia).
  assert (E2 : b2 mod 2 ^ 6 = b2 - 128)
    by (change (2 ^ 6) with 64; Z.div_mod_to_equations; lia).
  assert (E3 : b3 mod 2 ^ 6 = b3 - 128)
    by (change (2 ^ 6) with 64; Z.div_mod_to_equations; lia).
  rewrite E0, E1, E2, E3.
  rewrite (lor_add 18 (b0 - 240) ((b1 - 128) * 2 ^ 12)) by pow_lia.
  rewrite (lor_add 12 ((b0 - 240) * 64 + (b1 - 128)) ((b2 - 128) * 2 ^ 6))
    by pow_lia.
  rewrite (lor_add 6 (((b0 - 240) * 64 + (b1 - 128)) * 64 + (b2 - 128))
                   (b3 - 128)) by pow_lia.
  pow_lia.
Qed.

Ltac decide_between :=
  repeat match goal with
         | |- context [between ?lo ?hi ?b] =>
           let E := fresh "E" in
           destruct (between lo hi b) eqn:E;
           [apply between_spec in E
           |apply not_true_iff_false in E; rewrite between_spec in E];
           try (exfalso; pow_lia)
         end.

Lemma encode2 b0 b1 :
  0xC2 <= b0 <= 0xDF -> 0x80 <= b1 <= 0xBF ->
  EncodeRune ((b0 - 0xC0) * 64 + (b1 - 0x80)) =
  String (chr b0) (String (chr b1) EmptyString).
Proof.
  intros H0 H1. unfold EncodeRune. decide_between. cbn [negb].
  rewrite shiftr_div by lia. change 0xC0 with (3 * 2 ^ 6).
  rewrite (lead_byte 6 3 _ b0), (cont_byte b1);
    try (change (2 ^ 6) with 64; Z.div_mod_to_equations; lia).
  reflexivity.
Qed.

Lemma encode3 b0 b1 b2 :
  0xE0 <= b0 <= 0xEF -> 0x80 <= b1 <= 0xBF -> 0x80 <= b2 <= 0xBF ->
  (b0 = 0xE0 -> 0xA0 <= b1) -> (b0 = 0xED -> b1 <= 0x9F) ->
  EncodeRune ((b0 - 0xE0) * 4096 + (b1 - 0x80) * 64 + (b2 - 0x80)) =
  String (chr b0) (String (chr b1) (String (chr b2) EmptyString)).
Proof.
  intros H0 H1 H2 Hlo Hhi. unfold EncodeRune, ValidRune, MaxRune.
  decide_between; cbn [negb orb];
    try (destruct (_ <=? 65535) eqn:E65; [|lia]);
    unfold enc3; rewrite !shiftr_div by lia; change 0xE0 with (7 * 2 ^ 5);
    rewrite (lead_byte 5 7 _ b0), (cont_byte b1), (cont_byte b2);
    try reflexivity;
    try (change (2 ^ 5) with 32; change (2 ^ 6) with 64;
         change (2 ^ 12) with 4096; Z.div_mod_to_equations; lia).
Qed.

Lemma encode4 b0 b1 b2 b3 :
  0xF0 <= b0 <= 0xF4 -> 0x80 <= b1 <= 0xBF -> 0x80 <= b2 <= 0xBF ->
  0x80 <= b3 <= 0xBF ->
  (b0 = 0xF0 -> 0x90 <= b1) -> (b0 = 0xF4 -> b1 <= 0x8F) ->
  EncodeRune ((b0 - 0xF0) * 262144 + (b1 - 0x80) * 4096
              + (b2 - 0x80) * 64 + (b3 - 0x80)) =
  String (chr b0) (String (chr b1) (String (chr b2)
                                      (String (chr b3) EmptyString))).
Proof.
  intros H0 H1 H2 H3 Hlo Hhi. unfold EncodeRune, ValidRune, MaxRune.
  decide_between; cbn [negb orb].
  destruct (_ <=? 65535) eqn:E65; [lia|].
  rewrite !shiftr_div by lia. change 0xF0 with (15 * 2 ^ 4).
  rewrite (lead_byte 4 15 _ b0), (cont_byte b1), (cont_byte b2),
    (cont_byte b3);
    try reflexivity;
    try (change (2 ^ 4) with 16; change (2 ^ 6) with 64;
         change (2 ^ 12) with 4096; change (2 ^ 18) with 262144;
         Z.div_mod_to_equations; lia).
Qed.

(** The shape of a string that starts with a valid encoding of several
    bytes: the rune is encoded back to the bytes it was decoded from, and
    it is decoded from these bytes whatever follows them. *)
Lemma decode_encode c s r n :
  128 <= byte_val c ->
  DecodeRuneInString (String c s) = (r, n) ->
  (r =? RuneError) && (n =? 1)%nat = false ->
  (2 <= n <= 4)%nat /\
  (n <= String.length (String c s))%nat /\
  EncodeRune r = Json.take n (String c s) /\
  (forall k, DecodeRuneInString (Json.take n (String c s) +:+ k) = (r, n)).
Proof.
  intros Hc HD Hv.
  assert (Hbad : forall m, (RuneError, 1%nat) = (r, n) -> m) .
  { intros m [= <- <-]. discriminate Hv. }
  pose proof (byte_val_range c) as Rc.
  unfold DecodeRuneInString in HD. unfold RuneSelf in HD.
  destruct (byte_val c <? 128) eqn:E0; [lia|].
  destruct (between 194 223 (byte_val c)) eqn:B2.
  { destruct s as [|c1 s]; [now apply Hbad|].
    destruct (cont (byte_val c1)) eqn:C1; [|now apply Hbad].
    apply between_spec in B2. apply between_spec in C1.
    rewrite decode2 in HD by assumption. injection HD as <- <-.
    split; [lia|]. split; [cbn; lia|]. split.
    - rewrite encode2 by assumption. now rewrite !chr_byte_val.
    - intros k. cbn [Json.take]. rewrite !append_cons.
      unfold DecodeRuneInString, RuneSelf. rewrite E0.
      destruct (between 194 223 (byte_val c)) eqn:B2';
        [|apply not_true_iff_false in B2'; rewrite between_spec in B2'; lia].
      destruct (cont (byte_val c1)) eqn:C1';
        [|apply not_true_iff_false in C1'; unfold cont in C1';
          rewrite between_spec in C1'; lia].
      now rewrite decode2. }
  destruct (between 224 239 (byte_val c)) eqn:B3.
  { destruct s as [|c1 [|c2 s]]; [now apply Hbad..|].
    destruct (between _ _ (byte_val c1) && cont (byte_val c2)) eqn:C12;
      [|now apply Hbad].
    pose proof C12 as C12'.
    apply andb_true_iff in C12 as [C1 C2].
    apply between_spec in B3. apply between_spec in C1.
    apply between_spec in C2.
    assert (H1 : 128 <= byte_val c1 <= 191 /\
                 (byte_val c = 224 -> 160 <= byte_val c1) /\
                 (byte_val c = 237 -> byte_val c1 <= 159)).
    { destruct (byte_val c =? 224) eqn:A, (byte_val c =? 237) eqn:B; lia. }
    destruct H1 as (H1 & Hlo & Hhi).
    rewrite decode3 in HD by assumption. injection HD as <- <-.
    split; [lia|]. split; [cbn; lia|]. split.
    - rewrite encode3 by assumption. now rewrite !chr_byte_val.
    - intros k. cbn [Json.take]. rewrite !append_cons.
      unfold DecodeRuneInString, RuneSelf. rewrite E0, B2.
      destruct (between 224 239 (byte_val c)) eqn:B3';
        [|apply not_true_iff_false in B3'; rewrite between_spec in B3'; lia].
      rewrite C12'. now rewrite decode3. }
  destruct (between 240 244 (byte_val c)) eqn:B4; [|now apply Hbad].
  destruct s as [|c1 [|c2 [|c3 s]]]; [now apply Hbad..|].
  destruct (between _ _ (byte_val c1) && cont (byte_val c2)
            && cont (byte_val c3)) eqn:C123; [|now apply Hbad].
  pose proof C123 as C123'.
  apply andb_true_iff in C123 as [C12 C3].
  apply andb_true_iff in C12 as [C1 C2].
  apply between_spec in B4. apply between_spec in C1.
  apply between_spec in C2. apply between_spec in C3.
  assert (H1 : 128 <= byte_val c1 <= 191 /\
               (byte_val c = 240 -> 144 <= byte_val c1) /\
               (byte_val c = 244 -> byte_val c1 <= 143)).
  { destruct (byte_val c =? 240) eqn:A, (byte_val c =? 244) eqn:B; lia. }
  destruct H1 as (H1 & Hlo & Hhi).
  rewrite decode4 in HD by assumption. injection HD as <- <-.
  split; [lia|]. split; [cbn; lia|]. split.
  - rewrite encode4 by assumption. now rewrite !chr_byte_val.
  - intros k. cbn [Json.take]. rewrite !append_cons.
    unfold DecodeRuneInString, RuneSelf. rewrite E0, B2, B3.
    destruct (between 240 244 (byte_val c)) eqn:B4';
      [|apply not_true_iff_false in B4'; rewrite between_spec in B4'; lia].
    rewrite C123'. now rewrite decode4.
Qed.

End Utf8Facts.

(** ** JSON strings: decoding what was encoded *)

Section JsonStrings.
Import Utf8 Json.

Lemma drop_cons n c s : drop (S n) (String c s) = drop n s.
Proof. reflexivity. Qed.

Lemma drop_empty n : drop n EmptyString = EmptyString.
Proof. now destruct n. Qed.

Lemma take_drop n s : take n s +:+ drop n s = s.
Proof.
  revert s. induction n as [|n IH]; intros [|c s]; try reflexivity.
  cbn [take drop]. now rewrite append_cons, IH.
Qed.

Lemma drop_take_app n s k :
  (n <= String.length s)%nat -> drop n (take n s +:+ k) = k.
Proof.
  revert s. induction n as [|n IH]; intros [|c s] H; cbn in H;
    try reflexivity; try lia.
  cbn [take]. rewrite append_cons, drop_cons. apply IH. lia.
Qed.

Lemma length_drop n s :
  String.length (drop n s) = (String.length s - n)%nat.
Proof.
  revert s. induction n as [|n IH]; intros [|c s]; cbn; try lia.
  apply IH.
Qed.

Lemma encodeLoop_skip s : forall n, encodeLoop n s = encodeLoop 0 (drop n s).
Proof.
  induction s as [|c s IH]; intros [|n]; try reflexivity.
  cbn [encodeLoop]. rewrite drop_cons. apply IH.
Qed.

Lemma unquoteLoop_skip s :
  forall n, unquoteLoop n s = unquoteLoop 0 (drop n s).
Proof.
  induction s as [|c s IH]; intros [|n]; try reflexivity.
  cbn [unquoteLoop]. rewrite drop_cons. apply IH.
Qed.

Lemma validLoop_skip s : forall n, validLoop n s = validLoop 0 (drop n s).
Proof.
  induction s as [|c s IH]; intros [|n]; try reflexivity.
  cbn [validLoop]. rewrite drop_cons. apply IH.
Qed.

Lemma hexVal_lowerhex d :
  0 <= d < 16 -> hexVal (Strconv.lowerhex d) = Some d.
Proof.
  intros H.
  assert (E : d = 0 \/ d = 1 \/ d = 2 \/ d = 3 \/ d = 4 \/ d = 5 \/ d = 6 \/
              d = 7 \/ d = 8 \/ d = 9 \/ d = 10 \/ d = 11 \/ d = 12 \/
              d = 13 \/ d = 14 \/ d = 15) by lia.
  repeat (destruct E as [->|E]; [reflexivity|]). now subst.
Qed.

(** The escape of an ASCII byte [b] with four hexadecimal digits is read
    back as [b]. *)
Lemma hex4_byte b k :
  0 <= b < 128 ->
  hex4 (String "0" (String "0" (String (Strconv.lowerhex (Z.shiftr b 4))
          (String (Strconv.lowerhex (Z.land b 0xF)) k)))) = Some b.
Proof.
  intros H. unfold hex4.
  change (hexVal "0") with (Some 0). cbn [mbind option_bind].
  change 0xF with (2 ^ 4 - 1). rewrite land_low, shiftr_div by lia.
  change (2 ^ 4) with 16.
  rewrite !hexVal_lowerhex by (Z.div_mod_to_equations; lia).
  cbn [mbind option_bind]. f_equal.
  rewrite !shiftl_mul by lia. change (0 * 2 ^ 12) with 0.
  change (0 * 2 ^ 8) with 0. change (Z.lor 0 0) with 0.
  rewrite Z.lor_0_l. change (2 ^ 4) with 16.
  rewrite (lor_add 4 (b / 16) (b mod 16))
    by (change (2 ^ 4) with 16; Z.div_mod_to_equations; lia).
  Z.div_mod_to_equations. lia.
Qed.

Lemma EncodeRune_ascii b :
  0 <= b < 128 -> EncodeRune b = String (chr b) EmptyString.
Proof.
  intros H. unfold EncodeRune.
  destruct (between 0 127 b) eqn:E; [reflexivity|].
  apply not_true_iff_false in E. rewrite between_spec in E. lia.
Qed.

Lemma valid_ascii c s :
  byte_val c < 128 -> ValidString (String c s) = true -> ValidString s = true.
Proof.
  unfold ValidString. cbn [validLoop]. unfold DecodeRuneInString, RuneSelf.
  intros H. destruct (byte_val c <? 128) eqn:E; [|lia].
  intros V. apply andb_true_iff in V as [_ V]. exact V.
Qed.

Lemma valid_rune c s r n :
  DecodeRuneInString (String c s) = (r, n) ->
  ValidString (String c s) = true ->
  (r =? RuneError) && (n =? 1)%nat = false /\
  ValidString (drop n (String c s)) = true.
Proof.
  unfold ValidString. intros HD V0. pose proof V0 as V.
  cbn [validLoop] in V. rewrite HD in V.
  apply andb_true_iff in V as [V1 V2]. apply negb_true_iff in V1.
  split; [exact V1|]. rewrite validLoop_skip in V2.
  destruct n as [|n]; [exact V0|].
  rewrite drop_cons. now replace n with (S n - 1)%nat by lia.
Qed.


(** Decoding the encoding of a valid string gives the string back, and
    what follows the closing quote. *)
Lemma unquote_encode n : forall s rest,
  (String.length s <= n)%nat -> ValidString s = true ->
  unquoteLoop 0 (encodeLoop 0 s +:+ String dquote rest) = Some (s, rest).
Proof.
  induction n as [|n IH]; intros [|c s] rest Hlen Hv;
    try (cbn in Hlen; lia); try reflexivity.
  cbn in Hlen. pose proof (byte_val_range c) as Rc.
  cbn [encodeLoop]. unfold RuneSelf.
  destruct (byte_val c <? 128) eqn:E0.
  - (* an ASCII byte *)
    assert (IHs : unquoteLoop 0 (encodeLoop 0 s +:+ String dquote rest)
                  = Some (s, rest)).
    { apply IH; [lia|]. apply (valid_ascii c); [lia|exact Hv]. }
    destruct (htmlSafe (byte_val c)) eqn:ES.
    + unfold htmlSafe in ES. apply andb_true_iff in ES as [ES1 ES2].
      apply between_spec in ES1. apply negb_true_iff in ES2.
      repeat (apply orb_false_iff in ES2 as [ES2 ?]).
      norm_app. cbn [unquoteLoop].
      rewrite ES2. replace (byte_val c =? 92) with false by lia.
      replace (byte_val c <? 32) with false by lia.
      unfold RuneSelf. rewrite E0, IHs. reflexivity.
    + unfold escapeByte.
      destruct ((byte_val c =? 92) || (byte_val c =? 34)) eqn:EQ.
      { rewrite chr_byte_val. norm_app.
        cbn [unquoteLoop]. change (byte_val backslash =? 34) with false.
        change (byte_val backslash =? 92) with true. cbn iota.
        replace (byte_val c =? 117) with false by lia.
        replace ((byte_val c =? 34) || (byte_val c =? 92) ||
                 (byte_val c =? 47)) with true
          by (apply orb_true_iff in EQ as [EQ|EQ]; rewrite EQ;
              now rewrite ?orb_true_r).
        bind_step. rewrite IHs. reflexivity. }
      apply orb_false_iff in EQ as [E92 E34].
      destruct (byte_val c =? 10) eqn:E10.
      { norm_app. cbn [unquoteLoop].
        change (byte_val "\" =? 34) with false.
        change (byte_val "\" =? 92) with true. cbn iota.
        change (byte_val "n" =? 117) with false. cbn iota.
        change ((byte_val "n" =? 34) || _ || _) with false. cbn iota.
        change (byte_val "n" =? 98) with false.
        change (byte_val "n" =? 102) with false.
        change (byte_val "n" =? 110) with true. cbn iota. bind_step.
        rewrite IHs. bind_step.
        replace (chr 10) with c; [reflexivity|].
        rewrite <- (chr_byte_val c). f_equal. lia. }
      destruct (byte_val c =? 13) eqn:E13.
      { norm_app. cbn [unquoteLoop].
        change (byte_val "\" =? 34) with false.
        change (byte_val "\" =? 92) with true. cbn iota.
        change (byte_val "r" =? 117) with false. cbn iota.
        change ((byte_val "r" =? 34) || _ || _) with false. cbn iota.
        change (byte_val "r" =? 98) with false.
        change (byte_val "r" =? 102) with false.
        change (byte_val "r" =? 110) with false.
        change (byte_val "r" =? 114) with true. cbn iota. bind_step.
        rewrite IHs. bind_step.
        replace (chr 13) with c; [reflexivity|].
        rewrite <- (chr_byte_val c). f_equal. lia. }
      destruct (byte_val c =? 9) eqn:E9.
      { norm_app. cbn [unquoteLoop].
        change (byte_val "\" =? 34) with false.
        change (byte_val "\" =? 92) with true. cbn iota.
        change (byte_val "t" =? 117) with false. cbn iota.
        change ((byte_val "t" =? 34) || _ || _) with false. cbn iota.
        change (byte_val "t" =? 98) with false.
        change (byte_val "t" =? 102) with false.
        change (byte_val "t" =? 110) with false.
        change (byte_val "t" =? 114) with false.
        change (byte_val "t" =? 116) with true. cbn iota. bind_step.
        rewrite IHs. bind_step.
        replace (chr 9) with c; [reflexivity|].
        rewrite <- (chr_byte_val c). f_equal. lia. }
      norm_app. cbn [unquoteLoop].
      change (byte_val "\" =? 34) with false.
      change (byte_val "\" =? 92) with true. cbn iota.
      change (byte_val "u" =? 117) with true. cbn iota.
      rewrite hex4_byte by lia. bind_step.
      replace (isSurrogate (byte_val c)) with false
        by (symmetry; apply not_true_iff_false; unfold isSurrogate;
            rewrite between_spec; lia).
      rewrite IHs. bind_step.
      rewrite EncodeRune_ascii by lia.
      now rewrite chr_byte_val, append_cons, append_nil.
  - (* a rune of several bytes *)
    destruct (DecodeRuneInString (String c s)) as [r m] eqn:ED.
    destruct (valid_rune _ _ _ _ ED Hv) as [Hok Hvd].
    destruct (decode_encode c s r m ltac:(lia) ED Hok)
      as (Hm & Hml & Henc & Hpre).
    rewrite Hok.
    assert (IHs : unquoteLoop 0
                    (encodeLoop 0 (drop m (String c s)) +:+ String dquote rest)
                  = Some (drop m (String c s), rest)).
    { apply IH; [|exact Hvd]. rewrite length_drop. cbn [String.length]. lia. }
    assert (Hdrop : drop (m - 1) s = drop m (String c s)).
    { destruct m as [|m]; [lia|]. rewrite drop_cons. f_equal. lia. }
    rewrite encodeLoop_skip, Hdrop.
    destruct ((r =? 8232) || (r =? 8233)) eqn:ELS.
    + assert (Hhex : forall k, hex4 (String "2" (String "0" (String "2"
                       (String (Strconv.lowerhex (Z.land r 15)) k))))
                                 = Some r).
      { intros k. apply orb_true_iff in ELS as [ELS|ELS];
          apply Z.eqb_eq in ELS; subst r; reflexivity. }
      norm_app. cbn [unquoteLoop].
      change (byte_val "\" =? 34) with false.
      change (byte_val "\" =? 92) with true. cbn iota.
      change (byte_val "u" =? 117) with true. cbn iota.
      rewrite Hhex. bind_step.
      replace (isSurrogate r) with false
        by (apply orb_true_iff in ELS as [ELS|ELS]; apply Z.eqb_eq in ELS;
            subst r; reflexivity).
      rewrite IHs. bind_step. rewrite Henc. now rewrite take_drop.
    + destruct m as [|m]; [lia|]. cbn [take].
      rewrite append_assoc, append_cons. cbn [unquoteLoop].
      replace (byte_val c =? 34) with false by lia.
      replace (byte_val c =? 92) with false by lia.
      replace (byte_val c <? 32) with false by lia.
      unfold RuneSelf. rewrite E0.
      specialize (Hpre (encodeLoop 0 (drop (S m) (String c s))
                        +:+ String dquote rest)).
      cbn [take] in Hpre. rewrite append_cons in Hpre. rewrite Hpre.
      rewrite unquoteLoop_skip.
      replace (S m - 1)%nat with m by lia.
      rewrite drop_take_app by (cbn [String.length] in Hml; lia).
      rewrite IHs. bind_step. rewrite Henc. now rewrite take_drop.
Qed.

End JsonStrings.

(** ** JSON numbers: reading a formatted integer *)

Section JsonNumbers.
Import Utf8 Json.
Import Decimal.

Abbreviation digits := DecimalString.NilEmpty.string_of_uint.

Lemma to_int_norm z : Decimal.norm (Z.to_int z) = Z.to_int z.
Proof. rewrite <- DecimalZ.to_of. now rewrite DecimalZ.of_to. Qed.

(** The decimal writing of an integer: a single zero, or digits that
    start with a digit other than zero, with a sign before them when the
    integer is negative. *)
Lemma to_int_shape z :
  Z.to_int z = Pos zero \/
  exists u, (Z.to_int z = Pos u \/ Z.to_int z = Neg u) /\
            nzhead u = u /\ u <> Nil.
Proof.
  pose proof (to_int_norm z) as Hn.
  destruct (Z.to_int z) as [u|u]; cbn [Decimal.norm] in Hn.
  - injection Hn as Hn. unfold unorm in Hn.
    destruct (nzhead u) eqn:E;
      try (right; exists u; split; [now left|]; split;
           [congruence|intros ->; discriminate E]).
    left. now subst u.
  - right. exists u.
    destruct (nzhead u) eqn:E; try discriminate Hn;
      injection Hn as Hn; (split; [now right|]; split;
      [congruence|intros ->; discriminate E]).
Qed.

Lemma digits_scan u c k :
  numStep NInt (byte_val c) = None ->
  scanNumber NInt (digits u +:+ String c k) = Some (digits u, String c k).
Proof.
  intros Hc. induction u as [|u IH|u IH|u IH|u IH|u IH|u IH|u IH|u IH|u IH|u IH];
    cbn [DecimalString.NilEmpty.string_of_uint];
    [rewrite append_nil; cbn [scanNumber]; now rewrite Hc|..];
    rewrite append_cons; cbn [scanNumber];
    match goal with
    | |- context [numStep NInt (byte_val ?d)] =>
      change (numStep NInt (byte_val d)) with (Some NInt)
    end; cbn iota; rewrite IH; reflexivity.
Qed.

(** The first digit of a writing without leading zeros. *)
Lemma digits_head u :
  nzhead u = u -> u <> Nil ->
  exists h t, digits u = String h (digits t) /\
              between 49 57 (byte_val h) = true.
Proof.
  intros Hn Hu. destruct u as [|u|u|u|u|u|u|u|u|u|u];
    [contradiction|exfalso; now apply (DecimalFacts.nzhead_nonzero (D0 u) u)|..];
    eexists _, u; (split; [reflexivity|reflexivity]).
Qed.

Lemma FormatInt_scan z c k :
  endsNumber c ->
  scanNumber NStart (FormatInt z +:+ String c k)
  = Some (FormatInt z, String c k).
Proof.
  intros [Hc Hz]. unfold FormatInt.
  destruct (to_int_shape z) as [E|(u & [E|E] & Hn & Hu)]; rewrite E.
  - change (DecimalString.NilZero.string_of_int (Pos zero)) with "0".
    rewrite append_cons, append_nil. cbn [scanNumber].
    change (numStep NStart (byte_val "0")) with (Some NZero). cbn iota.
    cbn [scanNumber]. now rewrite Hz.
  - destruct (digits_head u Hn Hu) as (h & t & Hd & Hh).
    cbn [DecimalString.NilZero.string_of_int].
    replace (DecimalString.NilZero.string_of_uint u) with (digits u)
      by (now destruct u).
    rewrite Hd, append_cons. cbn [scanNumber].
    apply between_spec in Hh.
    replace (numStep NStart (byte_val h)) with (Some NInt).
    2:{ unfold numStep, isDigit, between.
        replace (byte_val h =? 45) with false by lia.
        replace (byte_val h =? 48) with false by lia.
        now replace ((48 <=? byte_val h) && (byte_val h <=? 57)) with true
          by lia. }
    rewrite (digits_scan t c k Hc). reflexivity.
  - destruct (digits_head u Hn Hu) as (h & t & Hd & Hh).
    cbn [DecimalString.NilZero.string_of_int].
    replace (DecimalString.NilZero.string_of_uint u) with (digits u)
      by (now destruct u).
    rewrite Hd, !append_cons. cbn [scanNumber].
    change (numStep NStart (byte_val "-")) with (Some NNeg). cbn iota.
    cbn [scanNumber]. apply between_spec in Hh.
    replace (numStep NNeg (byte_val h)) with (Some NInt).
    2:{ unfold numStep, isDigit, between.
        replace (byte_val h =? 48) with false by lia.
        now replace ((48 <=? byte_val h) && (byte_val h <=? 57)) with true
          by lia. }
    rewrite (digits_scan t c k Hc). reflexivity.
Qed.

(** A formatted integer starts with a sign or a digit. *)
Lemma FormatInt_head z :
  exists h t, FormatInt z = String h t /\
              (byte_val h = 45 \/ 48 <= byte_val h <= 57).
Proof.
  unfold FormatInt.
  destruct (to_int_shape z) as [E|(u & [E|E] & Hn & Hu)]; rewrite E.
  - exists "0"%char, EmptyString. split; [reflexivity|]. right.
    now vm_compute.
  - destruct (digits_head u Hn Hu) as (h & t & Hd & Hh).
    exists h, (digits t). cbn [DecimalString.NilZero.string_of_int].
    replace (DecimalString.NilZero.string_of_uint u) with (digits u)
      by (now destruct u).
    split; [exact Hd|]. apply between_spec in Hh. lia.
  - eexists "-"%char, _. split; [reflexivity|]. now left.
Qed.

Lemma ParseInt_FormatInt z :
  - 2 ^ 63 <= z < 2 ^ 63 -> ParseInt (FormatInt z) = Some z.
Proof.
  intros Hz. unfold ParseInt, FormatInt.
  rewrite DecimalString.NilZero.isi.
  - bind_step. rewrite DecimalZ.of_to.
    now replace ((- 2 ^ 63 <=? z) && (z <? 2 ^ 63)) with true by lia.
  - intros E. pose proof (to_int_norm z) as Hn. rewrite E in Hn.
    discriminate Hn.
  - intros E. pose proof (to_int_norm z) as Hn. rewrite E in Hn.
    discriminate Hn.
Qed.

End JsonNumbers.

(** ** JSON values: parsing what was encoded *)

Section JsonParse.
Import Utf8 Json.

Lemma parse_string f s rest :
  ValidString s = true ->
  parseValue (S f) (encodeString s +:+ rest) = Some (Str s, rest).
Proof.
  intros Hv. unfold encodeString. norm_app.
  cbn [parseValue skipSpace].
  change (isSpace (byte_val dquote)) with false. cbn iota.
  change (byte_val dquote =? 34) with true. cbn iota.
  rewrite (unquote_encode (String.length s)) by (try lia; exact Hv).
  reflexivity.
Qed.

Lemma parse_entry f n kv rest :
  validEntry kv ->
  parseMembers (parseValue (S f)) (S n) (encodeEntry kv +:+ rest) =
  match skipSpace rest with
  | String c s5 =>
    if byte_val c =? 44 then
      '(ms, s6) ← parseMembers (parseValue (S f)) n s5;
      Some (asMember kv :: ms, s6)
    else if byte_val c =? 125 then Some ([asMember kv], s5)
    else None
  | EmptyString => None
  end.
Proof.
  intros [Hk Hv].
  unfold encodeEntry, encodeString. norm_app.
  cbn [parseMembers skipSpace].
  change (isSpace (byte_val dquote)) with false. cbn iota.
  change (byte_val dquote =? 34) with true. cbn iota.
  rewrite (unquote_encode (String.length (fst kv))) by (try lia; exact Hk).
  bind_step. cbn [skipSpace].
  change (isSpace (byte_val ":")) with false. cbn iota.
  change (expect ":" (String ":" ?x)) with (Some x). bind_step.
  pose proof (parse_string f (snd kv) rest Hv) as Hp.
  unfold encodeString in Hp. rewrite append_cons, append_assoc in Hp.
  rewrite append_cons, append_nil in Hp. rewrite Hp. bind_step.
  reflexivity.
Qed.

Lemma parse_entries f l : forall n rest,
  l <> [] -> (length l <= n)%nat -> Forall validEntry l ->
  parseMembers (parseValue (S f)) n
               (joinComma (map encodeEntry l) +:+ String "}" rest) =
  Some (map asMember l, rest).
Proof.
  induction l as [|kv l IH]; intros n rest Hne Hn Hv; [contradiction|].
  destruct n as [|n]; [cbn in Hn; lia|].
  apply Forall_cons in Hv as [Hkv Hv]. cbn in Hn.
  destruct l as [|kv' l].
  - cbn [map joinComma]. rewrite parse_entry by exact Hkv.
    reflexivity.
  - change (joinComma (map encodeEntry (kv :: kv' :: l)))
      with (encodeEntry kv +:+ "," +:+ joinComma (map encodeEntry (kv' :: l))).
    norm_app. rewrite parse_entry by exact Hkv.
    cbn [skipSpace]. change (isSpace (byte_val ",")) with false. cbn iota.
    change (byte_val "," =? 44) with true. cbn iota.
    rewrite IH by (try discriminate; try exact Hv; cbn; cbn in Hn; lia).
    reflexivity.
Qed.

(** The object of a map is parsed back to its entries, in the order in
    which they were written. *)
Lemma parse_map g m rest :
  (0 < g)%nat -> (size m <= g)%nat ->
  (forall k v, m !! k = Some v ->
     ValidString k = true /\ ValidString v = true) ->
  parseValue (S g) (encodeMap m +:+ rest) =
  Some (Object (map asMember (sortedEntries m)), rest).
Proof.
  intros Hg Hsize Hv. unfold encodeMap. norm_app.
  assert (Hperm : sortedEntries m ≡ₚ map_to_list m)
    by apply merge_sort_Permutation.
  assert (Hvalid : Forall validEntry (sortedEntries m)).
  { apply Forall_forall. intros [k v] Hin. rewrite Hperm in Hin.
    apply elem_of_map_to_list in Hin. now apply Hv. }
  assert (Hlen : length (sortedEntries m) = size m).
  { rewrite Hperm. apply length_map_to_list. }
  cbn [parseValue skipSpace].
  change (isSpace (byte_val "{")) with false. cbn iota.
  change (byte_val "{" =? 34) with false.
  change (byte_val "{" =? 123) with true. cbn iota.
  destruct (sortedEntries m) as [|kv l] eqn:El.
  - cbn [map joinComma]. norm_app. reflexivity.
  - assert (Hhead : exists t, joinComma (map encodeEntry (kv :: l))
                              +:+ String "}" rest = String dquote t).
    { destruct l; cbn [map joinComma]; unfold encodeEntry, encodeString;
        norm_app; eauto. }
    destruct Hhead as [t Ht]. destruct g as [|f]; [lia|].
    rewrite parse_entries
      by (try discriminate; try exact Hvalid; rewrite Hlen; lia).
    rewrite Ht. cbn [skipSpace].
    change (isSpace (byte_val dquote)) with false. cbn iota.
    change (byte_val dquote =? 125) with false. cbn iota.
    reflexivity.
Qed.

Lemma parse_number f z c k :
  endsNumber c ->
  parseValue (S f) (FormatInt z +:+ String c k) =
  Some (Number (FormatInt z), String c k).
Proof.
  intros Hc. pose proof (FormatInt_scan z c k Hc) as Hs.
  destruct (FormatInt_head z) as (h & t & E & Hh).
  rewrite E in Hs |- *. rewrite append_cons in Hs |- *.
  pose proof (byte_val_range h) as Rh.
  cbn [parseValue skipSpace].
  replace (isSpace (byte_val h)) with false
    by (unfold isSpace; destruct Hh; lia).
  cbn iota.
  replace (byte_val h =? 34) with false by lia.
  replace (byte_val h =? 123) with false by lia.
  replace (byte_val h =? 91) with false by lia.
  replace (byte_val h =? 116) with false by lia.
  replace (byte_val h =? 102) with false by lia.
  replace (byte_val h =? 110) with false by lia.
  replace ((byte_val h =? 45) || isDigit (byte_val h)) with true
    by (unfold isDigit, between; destruct Hh; lia).
  rewrite Hs. reflexivity.
Qed.

(** One member of an object, whose value [pv] parses. *)
Lemma expect_colon x : expect ":" (String ":" x) = Some x.
Proof. unfold expect. now destruct x. Qed.

Lemma parse_member pv n key vt v rest :
  ValidString key = true ->
  pv (vt +:+ rest) = Some (v, rest) ->
  parseMembers pv (S n) (encodeString key +:+ String ":" (vt +:+ rest)) =
  match skipSpace rest with
  | String c s5 =>
    if byte_val c =? 44 then
      '(ms, s6) ← parseMembers pv n s5;
      Some ((key, v) :: ms, s6)
    else if byte_val c =? 125 then Some ([(key, v)], s5)
    else None
  | EmptyString => None
  end.
Proof.
  intros Hk Hp. unfold encodeString. norm_app.
  cbn [parseMembers skipSpace].
  change (isSpace (byte_val dquote)) with false. cbn iota.
  change (byte_val dquote =? 34) with true. cbn iota.
  rewrite (unquote_encode (String.length key)) by (try lia; exact Hk).
  bind_step. cbn [skipSpace].
  change (isSpace (byte_val ":")) with false. cbn iota.
  rewrite expect_colon. bind_step.
  rewrite Hp. bind_step. reflexivity.
Qed.

(** The serialization of a response is parsed back to an object with its
    three members. *)
Lemma object_open g key x :
  parseValue (S g) (String "{" (encodeString key +:+ x)) =
  '(ms, rest) ← parseMembers (parseValue g) g (encodeString key +:+ x);
  Some (Object ms, rest).
Proof.
  unfold encodeString. rewrite append_cons. cbn [parseValue skipSpace].
  change (isSpace (byte_val "{")) with false. cbn iota.
  change (byte_val "{" =? 34) with false.
  change (byte_val "{" =? 123) with true. cbn iota.
  change (isSpace (byte_val dquote)) with false. cbn iota.
  change (byte_val dquote =? 125) with false. cbn iota.
  reflexivity.
Qed.

Lemma comma_ends_number : endsNumber ",".
Proof. split; reflexivity. Qed.

(** The serialization of a response is parsed back to an object with its
    three members. *)
Lemma parse_response g r rest :
  (3 <= g)%nat -> (size (Headers r) < g)%nat -> validStrings r ->
  parseValue (S g) (encodeResponse r +:+ rest) =
  Some (Object [("status", Number (FormatInt (Status r)));
                ("headers",
                 Object (map asMember (sortedEntries (Headers r))));
                ("body", Str (Body r))], rest).
Proof.
  intros Hg Hsize [Hvh Hvb]. unfold encodeResponse.
  replace (quoted "status") with (encodeString "status") by reflexivity.
  replace (quoted "headers") with (encodeString "headers") by reflexivity.
  replace (quoted "body") with (encodeString "body") by reflexivity.
  norm_app. rewrite object_open.
  destruct g as [|[|[|g]]]; try lia.
  rewrite (parse_member _ _ "status" _ (Number (FormatInt (Status r))))
    by (try reflexivity; apply parse_number, comma_ends_number).
  cbn [skipSpace]. change (isSpace (byte_val ",")) with false. cbn iota.
  change (byte_val "," =? 44) with true. cbn iota.
  rewrite (parse_member _ _ "headers" _
             (Object (map asMember (sortedEntries (Headers r)))))
    by (try reflexivity; apply parse_map; try lia; exact Hvh).
  cbn [skipSpace]. change (isSpace (byte_val ",")) with false. cbn iota.
  change (byte_val "," =? 44) with true. cbn iota.
  rewrite (parse_member _ _ "body" _ (Str (Body r)))
    by (try reflexivity; apply parse_string; exact Hvb).
  cbn [skipSpace]. change (isSpace (byte_val "}")) with false. cbn iota.
  change (byte_val "}" =? 44) with false.
  change (byte_val "}" =? 125) with true. cbn iota.
  reflexivity.
Qed.

End JsonParse.

(** ** Decoding the serialization of a response *)

Section JsonDecode.
Import Utf8 Json.

Lemma length_append (a b : string) :
  String.length (a +:+ b) = (String.length a + String.length b)%nat.
Proof.
  induction a as [|c a IH]; [reflexivity|].
  rewrite append_cons. cbn [String.length]. now rewrite IH.
Qed.

Lemma append_empty_r (a : string) : a +:+ EmptyString = a.
Proof.
  induction a as [|c a IH]; [reflexivity|]. now rewrite append_cons, IH.
Qed.

Lemma length_joinComma (l : list string) :
  (forall x, x ∈ l -> (1 <= String.length x)%nat) ->
  (length l <= String.length (joinComma l))%nat.
Proof.
  induction l as [|x l IH]; intros H; [cbn; lia|].
  assert (Hx : (1 <= String.length x)%nat) by (apply H; constructor).
  destruct l as [|y l]; [cbn; lia|].
  change (joinComma (x :: y :: l)) with (x +:+ "," +:+ joinComma (y :: l)).
  rewrite !length_append. cbn [length].
  assert ((length (y :: l) <= String.length (joinComma (y :: l)))%nat).
  { apply IH. intros z Hz. apply H. now constructor. }
  cbn [length] in *. lia.
Qed.

Lemma length_encodeResponse r :
  (size (Headers r) + 3 <= String.length (encodeResponse r))%nat.
Proof.
  unfold encodeResponse, encodeMap. rewrite !length_append.
  assert ((size (Headers r)
           <= String.length (joinComma (map encodeEntry
                                          (sortedEntries (Headers r)))))%nat).
  { etransitivity; [|apply length_joinComma].
    - rewrite length_map. unfold sortedEntries.
      rewrite merge_sort_Permutation. now rewrite length_map_to_list.
    - intros x Hx. apply list_elem_of_fmap in Hx as (kv & -> & _).
      unfold encodeEntry, encodeString. rewrite append_cons.
      cbn [String.length]. lia. }
  cbn [String.length]. lia.
Qed.

Lemma foldl_decodeHeader l : forall st m0 b e,
  foldl decodeHeader (mkResponse st m0 b, e) (map asMember l) =
  (mkResponse st (foldl (fun m kv => <[fst kv := snd kv]> m) m0 l) b, e).
Proof.
  induction l as [|kv l IH]; intros st m0 b e; [reflexivity|].
  cbn [map foldl]. unfold decodeHeader at 2. cbn. apply IH.
Qed.

Lemma foldl_insert_reverse (l : list (string * string)) :
  foldl (fun m kv => <[fst kv := snd kv]> m) (∅ : gmap string string) l =
  list_to_map (reverse l).
Proof.
  induction l as [|x l IH] using rev_ind; [reflexivity|].
  rewrite foldl_app, reverse_app. cbn. now rewrite IH.
Qed.

Lemma foldl_insert_entries (m : gmap string string) l :
  l ≡ₚ map_to_list m ->
  foldl (fun m kv => <[fst kv := snd kv]> m) ∅ l = m.
Proof.
  intros Hp. rewrite foldl_insert_reverse. symmetry.
  apply list_to_map_flip. rewrite reverse_Permutation. now symmetry.
Qed.

(** Decoding the serialization of a response whose strings are valid
    UTF-8 and whose status is an [int] gives the response back. *)
Lemma Unmarshal_encodeResponse r :
  validStrings r -> - 2 ^ 63 <= Status r < 2 ^ 63 ->
  Unmarshal (encodeResponse r) = Ok r.
Proof.
  intros Hv Hs. unfold Unmarshal, parse.
  pose proof (length_encodeResponse r) as Hlen.
  rewrite <- (append_empty_r (encodeResponse r)) at 2.
  rewrite parse_response by (try exact Hv; lia).
  bind_step. cbn [skipSpace]. unfold decodeResponse.
  cbn [foldl]. unfold decodeField.
  change (foldEq "status" (fst ("status", ?v))) with true. cbn iota.
  cbn [snd]. unfold decodeStatus. rewrite ParseInt_FormatInt by exact Hs.
  cbn [fst snd Headers Body].
  change (foldEq "status" "headers") with false.
  change (foldEq "headers" "headers") with true. cbn iota.
  unfold decodeHeaders. rewrite foldl_decodeHeader.
  rewrite (foldl_insert_entries (Headers r))
    by apply merge_sort_Permutation.
  change (foldEq "status" "body") with false.
  change (foldEq "headers" "body") with false.
  change (foldEq "body" "body") with true. cbn iota.
  unfold decodeBody. cbn [fst snd Status Headers].
  now destruct r.
Qed.

End JsonDecode.

(** ** The round trip of a response through a render *)

Lemma validResponse_strings r :
  Json.validResponse r = true -> Json.validStrings r.
Proof.
  unfold Json.validResponse, Json.validStrings. intros H.
  apply andb_true_iff in H as [Hh Hb]. split; [|exact Hb].
  intros k v Hkv. rewrite forallb_forall in Hh.
  specialize (Hh (k, v)). cbn [fst snd] in Hh.
  apply andb_true_iff, Hh, list_elem_of_In. now apply elem_of_map_to_list.
Qed.

(** C3, as the claim states it, fails: for the response with status 200,
    no headers and the single byte 255 as body, an engine that returns the
    serialization of the response makes [Render] succeed with another body,
    the three bytes of U+FFFD. *)
Lemma roundtrip_replaces_invalid_bytes :
  let r := Example.binaryResponse in
  100 <= Status r <= 999 /\
  exists r',
    snd (Render Example.Marshal Json.Unmarshal Example.table
                (mkRenderer Example.bundle (Example.echo (Json.encodeResponse r)))
                "/" Example.world) = Ok r' /\
    Body r' = String (Utf8.chr 239) (String (Utf8.chr 191)
                (String (Utf8.chr 189) EmptyString)) /\
    Body r' <> Body r.
Proof.
  split; [cbn; lia|]. eexists. split; [vm_compute; reflexivity|].
  split; [reflexivity|]. intros E. discriminate E.
Qed.

(** C3, amended. For every response whose status is between 100 and 999
    and whose header keys, header values and body are valid UTF-8, when the
    engine returns the serialization of the response, [Render] succeeds and
    returns this response: same status, same headers, same body.  And with
    the props [name: world] and an engine that answers with the greeting of
    status 200, content type [text/html] and body [<h1>world</h1>],
    [Render] of the route [/] returns exactly this triple. *)
Theorem Render_roundtrip {Props : Type} (Marshal : Props -> result string)
        (isPrintTable : Z -> bool) (rd : renderer) (route : string)
        (props : Props) (propBytes script : string) (r : Response) :
  100 <= Status r <= 999 ->
  Json.validResponse r = true ->
  Marshal props = Ok propBytes ->
  fsReadFile (fsys rd) "bud/view/_ssr.js" = Ok script ->
  vm rd "_ssr.js" (renderExpr isPrintTable script route propBytes)
    = Ok (Json.encodeResponse r) ->
  snd (Render Marshal Json.Unmarshal isPrintTable rd route props) = Ok r /\
  snd (Render Example.Marshal Json.Unmarshal Example.table Example.greeter
              "/" Example.world) = Ok Example.greetingResponse.
Proof.
  intros Hs Hv EM ER EV. split; [|vm_compute; reflexivity].
  unfold Render. rewrite EM, ER, EV.
  rewrite Unmarshal_encodeResponse
    by (try (apply validResponse_strings; exact Hv); lia).
  replace ((Status r <? 100) || (Status r >? 999)) with false by lia.
  reflexivity.
Qed.

(** ** The route that the quoted literal denotes *)

Section LiteralValue.
Import Utf8 Strconv Literal Interpreted.

Lemma valueLoop_skip s : forall n, valueLoop n s = valueLoop 0 (drop n s).
Proof.
  induction s as [|c s IH]; intros [|n]; try reflexivity.
  cbn [valueLoop]. rewrite drop_cons. apply IH.
Qed.

Lemma quoteLoop_skip t s :
  forall n, quoteLoop t n s = quoteLoop t 0 (drop n s).
Proof.
  induction s as [|c s IH]; intros [|n]; try reflexivity.
  cbn [quoteLoop]. rewrite drop_cons. apply IH.
Qed.

Lemma drop_length_app e k : drop (String.length e) (e +:+ k) = k.
Proof.
  induction e as [|c e IH]; [reflexivity|].
  rewrite append_cons. exact IH.
Qed.

Lemma length_take n s :
  (n <= String.length s)%nat -> String.length (Json.take n s) = n.
Proof.
  revert s. induction n as [|n IH]; intros [|c s] H; cbn in H |- *;
    try reflexivity; try lia.
  rewrite IH; [reflexivity|lia].
Qed.

(** Bytes that are neither a quote, a backslash nor a line break denote
    themselves. *)
Lemma valueLoop_plain p k :
  allPlain p = true ->
  valueLoop 0 (p +:+ k) =
  '(text, rest) ← valueLoop 0 k; Some (p +:+ text, rest).
Proof.
  induction p as [|c p IH]; intros H.
  - rewrite append_nil. now destruct (valueLoop 0 k) as [[text rest]|].
  - cbn in H. apply andb_true_iff in H as [Hc Hp].
    unfold plain in Hc. apply negb_true_iff in Hc.
    repeat (apply orb_false_iff in Hc as [Hc ?]).
    rewrite append_cons. cbn [valueLoop]. rewrite Hc, H1, H0.
    rewrite (IH Hp). now destruct (valueLoop 0 k) as [[text rest]|].
Qed.

(** An escape sequence denotes its bytes, and the literal goes on after
    it. *)
Lemma valueLoop_escape e bytes k :
  escape (e +:+ k) = Some (bytes, String.length e) ->
  valueLoop 0 (String backslash e +:+ k) =
  '(text, rest) ← valueLoop 0 k; Some (bytes +:+ text, rest).
Proof.
  intros H. rewrite append_cons. cbn [valueLoop].
  change (byte_val backslash =? 34) with false.
  change (byte_val backslash =? 10) with false.
  change (byte_val backslash =? 92) with true. cbn iota.
  rewrite H. bind_step. cbn iota beta.
  now rewrite valueLoop_skip, drop_length_app.
Qed.

Lemma hex_hexdigits n : forall acc r k,
  hex n acc (hexdigits n r +:+ k) =
  Some (acc * 2 ^ (4 * Z.of_nat n) + r mod 2 ^ (4 * Z.of_nat n)).
Proof.
  induction n as [|n IH]; intros acc r k.
  - cbn [hex hexdigits]. f_equal. change (2 ^ (4 * Z.of_nat 0)) with 1.
    rewrite Z.mod_1_r. lia.
  - cbn [hex hexdigits]. rewrite append_cons.
    change 0xF with (2 ^ 4 - 1). rewrite land_low by lia.
    rewrite hexVal_lowerhex by (apply Z.mod_pos_bound; lia).
    bind_step. rewrite IH. f_equal.
    replace (4 * Z.of_nat (S n)) with (4 * Z.of_nat n + 4) by lia.
    rewrite Z.pow_add_r by lia.
    rewrite shiftl_mul, shiftr_div by lia.
    assert (HP : 0 < 2 ^ (4 * Z.of_nat n)) by (apply Z.pow_pos_nonneg; lia).
    rewrite (Z.rem_mul_r r (2 ^ (4 * Z.of_nat n)) (2 ^ 4)) by lia.
    rewrite lor_low by (try lia; apply Z.mod_pos_bound; lia).
    ring.
Qed.

Lemma hex_digits n r k :
  0 <= r < 2 ^ (4 * Z.of_nat n) -> hex n 0 (hexdigits n r +:+ k) = Some r.
Proof.
  intros H. rewrite hex_hexdigits, Z.mod_small by exact H. f_equal; lia.
Qed.

Lemma ValidRune_range r : ValidRune r = true -> 0 <= r <= 1114111.
Proof.
  unfold ValidRune, MaxRune. intros H.
  apply orb_true_iff in H as [H|H]; apply between_spec in H; lia.
Qed.

Variable isPrintTable : Z -> bool.

(** What [appendEscapedRune] writes for a valid rune denotes the encoding
    of the rune. *)
Lemma value_escaped r k :
  ValidRune r = true ->
  valueLoop 0 (appendEscapedRune isPrintTable r +:+ k) =
  '(text, rest) ← valueLoop 0 k; Some (EncodeRune r +:+ text, rest).
Proof.
  intros Hv. pose proof (ValidRune_range r Hv) as Hr.
  unfold appendEscapedRune.
  destruct ((r =? 34) || (r =? 92)) eqn:E0.
  { apply (valueLoop_escape (String (chr r) EmptyString)).
    apply orb_true_iff in E0 as [E|E]; apply Z.eqb_eq in E; subst r;
      reflexivity. }
  apply orb_false_iff in E0 as [E34 E92].
  destruct (IsPrint isPrintTable r) eqn:EP.
  { apply valueLoop_plain, EncodeRune_plain. intros Hlt.
    unfold IsPrint, between in EP. unfold plain. apply negb_true_iff.
    destruct (r <=? 255) eqn:E255; [|lia].
    destruct (32 <=? r) eqn:A, (r <=? 126) eqn:B, (161 <=? r) eqn:C;
      cbn in EP; try discriminate EP;
      repeat (apply orb_false_iff; split); lia. }
  destruct (r =? 7) eqn:E7.
  { apply Z.eqb_eq in E7. subst r. now apply (valueLoop_escape "a"). }
  destruct (r =? 8) eqn:E8.
  { apply Z.eqb_eq in E8. subst r. now apply (valueLoop_escape "b"). }
  destruct (r =? 12) eqn:E12.
  { apply Z.eqb_eq in E12. subst r. now apply (valueLoop_escape "f"). }
  destruct (r =? 10) eqn:E10.
  { apply Z.eqb_eq in E10. subst r. now apply (valueLoop_escape "n"). }
  destruct (r =? 13) eqn:E13.
  { apply Z.eqb_eq in E13. subst r. now apply (valueLoop_escape "r"). }
  destruct (r =? 9) eqn:E9.
  { apply Z.eqb_eq in E9. subst r. now apply (valueLoop_escape "t"). }
  destruct (r =? 11) eqn:E11.
  { apply Z.eqb_eq in E11. subst r. now apply (valueLoop_escape "v"). }
  destruct ((r <? 32) || (r =? 127)) eqn:EC.
  { assert (Hb : 0 <= r < 128)
      by (apply orb_true_iff in EC as [EC|EC]; lia).
    rewrite append_cons.
    apply (valueLoop_escape (String "x" (hexdigits 2 r))).
    rewrite append_cons. unfold escape.
    change (byte_val "x") with 120. cbn [Z.eqb Pos.eqb]. cbv zeta.
    rewrite hex_digits by (change (2 ^ (4 * Z.of_nat 2)) with 256; lia).
    bind_step. now rewrite EncodeRune_ascii by lia. }
  rewrite Hv. cbn [negb].
  destruct (r <? 65536) eqn:E16.
  - rewrite append_cons.
    apply (valueLoop_escape (String "u" (hexdigits 4 r))).
    rewrite append_cons. unfold escape.
    change (byte_val "u") with 117. cbn [Z.eqb Pos.eqb]. cbv zeta.
    rewrite hex_digits by (change (2 ^ (4 * Z.of_nat 4)) with 65536; lia).
    bind_step. now rewrite Hv.
  - rewrite append_cons.
    apply (valueLoop_escape (String "U" (hexdigits 8 r))).
    rewrite append_cons. unfold escape.
    change (byte_val "U") with 85. cbn [Z.eqb Pos.eqb]. cbv zeta.
    rewrite hex_digits
      by (change (2 ^ (4 * Z.of_nat 8)) with 4294967296; lia).
    bind_step. now rewrite Hv.
Qed.

(** A rune decoded from more than one byte is a valid rune. *)
Lemma decoded_valid c s r n :
  128 <= byte_val c ->
  DecodeRuneInString (String c s) = (r, n) ->
  (r =? RuneError) && (n =? 1)%nat = false ->
  ValidRune r = true.
Proof.
  intros Hc HD HE.
  destruct (decode_encode c s r n Hc HD HE) as (Hn & Hlen & Henc & Hdec).
  specialize (Hdec EmptyString). rewrite append_empty_r, <- Henc in Hdec.
  destruct (ValidRune r) eqn:Hv; [reflexivity|exfalso].
  assert (Hnot : ~ (0 <= r <= 2047)).
  { intros Hr. unfold ValidRune in Hv. apply orb_false_iff in Hv as [Hv _].
    apply not_true_iff_false in Hv. rewrite between_spec in Hv. lia. }
  unfold EncodeRune in Hdec.
  destruct (between 0 127 r) eqn:E1; [apply between_spec in E1; lia|].
  destruct (between 0 2047 r) eqn:E2; [apply between_spec in E2; lia|].
  rewrite Hv in Hdec. cbn [negb] in Hdec.
  vm_compute in Hdec. injection Hdec as Hr _. subst r.
  vm_compute in Hv. discriminate Hv.
Qed.

Lemma value_quoteLoop n : forall s rest,
  (String.length s <= n)%nat ->
  valueLoop 0 (quoteLoop isPrintTable 0 s +:+ String dquote rest) =
  Some (s, rest).
Proof.
  induction n as [|n IH]; intros [|c s] rest Hlen;
    try (cbn in Hlen; lia); try reflexivity.
  cbn in Hlen. pose proof (byte_val_range c) as Rc.
  cbn [quoteLoop]. unfold RuneSelf.
  destruct (byte_val c <? 128) eqn:E0.
  - (* an ASCII byte *)
    replace ((1 =? 1)%nat && (byte_val c =? RuneError)) with false
      by (unfold RuneError; cbn [Nat.eqb andb]; lia).
    rewrite append_assoc, value_escaped.
    + change (1 - 1)%nat with 0%nat. rewrite IH by lia. bind_step.
      rewrite EncodeRune_ascii, chr_byte_val by lia. reflexivity.
    + unfold ValidRune. apply orb_true_iff. left. apply between_spec. lia.
  - destruct (DecodeRuneInString (String c s)) as [r width] eqn:ED.
    destruct ((width =? 1)%nat && (r =? RuneError)) eqn:EE.
    + (* a byte that starts no encoding *)
      apply andb_true_iff in EE as [EW _]. apply Nat.eqb_eq in EW. subst width.
      change (1 - 1)%nat with 0%nat. rewrite append_assoc, append_cons.
      rewrite (valueLoop_escape (String "x" (hexdigits 2 (byte_val c)))
                                (String c EmptyString)).
      * rewrite IH by lia. reflexivity.
      * rewrite append_cons. unfold escape.
        change (byte_val "x") with 120. cbn [Z.eqb Pos.eqb]. cbv zeta.
        rewrite hex_digits
          by (change (2 ^ (4 * Z.of_nat 2)) with 256; lia).
        bind_step. now rewrite chr_byte_val.
    + (* the encoding of a rune *)
      rewrite andb_comm in EE.
      destruct (decode_encode c s r width ltac:(lia) ED EE)
        as (Hn & Hl & Henc & _).
      pose proof (decoded_valid c s r width ltac:(lia) ED EE) as Hv.
      rewrite append_assoc, value_escaped by exact Hv.
      rewrite quoteLoop_skip.
      replace (drop (width - 1) s) with (drop width (String c s))
        by (destruct width as [|w]; [lia|];
            now replace (S w - 1)%nat with w by lia).
      rewrite IH by (rewrite length_drop; cbn [String.length]; lia).
      bind_step. rewrite Henc, take_drop. reflexivity.
Qed.

(** The literal that [%q] writes for a route denotes the route, byte for
    byte, and ends where the quotation ends. *)
Lemma value_Quote (route rest : string) :
  value (Quote isPrintTable route +:+ rest) = Some (route, rest).
Proof.
  unfold Quote. rewrite append_cons. cbn [value].
  change (byte_val dquote =? 34) with true. cbn iota.
  rewrite append_assoc, append_cons, append_nil.
  now apply (value_quoteLoop (String.length route)).
Qed.

End LiteralValue.

(** C2. When the props are serialized and the bundle is read, [Render]
    calls the engine once, with the unit name [_ssr.js] and with the
    expression made of the bundle, the text [; bud.render(], the route as
    [%q] quotes it, a comma and a space, the serialized props as they are, and
    a closing parenthesis.  The quoted route is one string literal of the
    expression whatever double quotes and backslashes the route has: the
    literal ends where the quotation ends, before the comma, and the text
    that it denotes is the route, byte for byte.  A double quote and a
    backslash of the route are each written after a backslash: the route
    [/a], double quote, [b\c] is written as the literal [/a\], double
    quote, [b\\c] between two double quotes. *)
Theorem Render_invocation {Props : Type} (Marshal : Props -> result string)
        (Unmarshal : string -> result Response) (isPrintTable : Z -> bool)
        (rd : renderer) (route : string) (props : Props)
        (propBytes script : string) :
  Marshal props = Ok propBytes ->
  fsReadFile (fsys rd) "bud/view/_ssr.js" = Ok script ->
  let quoted := Strconv.Quote isPrintTable route in
  evalCalls (fst (Render Marshal Unmarshal isPrintTable rd route props)) =
    [("_ssr.js",
      script +:+ "; bud.render(" +:+ quoted +:+ ", " +:+ propBytes +:+ ")")] /\
  Literal.scan (quoted +:+ ", " +:+ propBytes +:+ ")") =
    Some (", " +:+ propBytes +:+ ")") /\
  Interpreted.value (quoted +:+ ", " +:+ propBytes +:+ ")") =
    Some (route, ", " +:+ propBytes +:+ ")") /\
  Strconv.Quote isPrintTable Routes.tricky = Routes.trickyLiteral.
Proof.
  intros EM ER quoted.
  split; [|split; [apply Quote_is_one_literal
                  |split; [apply value_Quote|vm_compute; reflexivity]]].
  unfold Render. rewrite EM, ER. fold quoted.
  destruct (vm rd _ _); [|reflexivity].
  destruct (Unmarshal _); [|reflexivity].
  destruct (_ || _); reflexivity.
Qed.

Lemma Render_roundtrip_witness :
  snd (Render Example.Marshal Json.Unmarshal Example.table
              (mkRenderer Example.bundle
                 (Example.echo (Json.encodeResponse Example.greetingResponse)))
              "/" Example.world) = Ok Example.greetingResponse.
Proof.
  apply (Render_roundtrip Example.Marshal Example.table
           (mkRenderer Example.bundle
              (Example.echo (Json.encodeResponse Example.greetingResponse)))
           "/" Example.world (Json.encodeMap Example.world) "var bud = {}"
           Example.greetingResponse);
    [cbn; lia|vm_compute; reflexivity|reflexivity..].
Defined.

Lemma Render_invocation_witness :
  evalCalls (fst (Render Example.Marshal Json.Unmarshal Example.table
                         Example.greeter Routes.tricky Example.world)) =
    [("_ssr.js",
      "var bud = {}" +:+ "; bud.render("
        +:+ Routes.trickyLiteral +:+ ", "
        +:+ Json.encodeMap Example.world +:+ ")")] /\
  Literal.scan (Routes.trickyLiteral +:+ ", "
                  +:+ Json.encodeMap Example.world +:+ ")") =
    Some (", " +:+ Json.encodeMap Example.world +:+ ")") /\
  Interpreted.value (Routes.trickyLiteral +:+ ", "
                       +:+ Json.encodeMap Example.world +:+ ")") =
    Some (Routes.tricky, ", " +:+ Json.encodeMap Example.world +:+ ")").
Proof.
  destruct (Render_invocation Example.Marshal Json.Unmarshal Example.table
              Example.greeter Routes.tricky Example.world
              (Json.encodeMap Example.world) "var bud = {}"
              eq_refl eq_refl) as (H1 & H2 & H3 & H4).
  rewrite H4 in H1, H2, H3. exact (conj H1 (conj H2 H3)).
Defined.

Lemma respond_writes_witness :
  live_Handler Example.Marshal Json.Unmarshal Example.table map_to_list
               Example.live "/" Example.world (Example.get "/") =
  fst (Render Example.Marshal Json.Unmarshal Example.table Example.greeter
              "/" Example.world)
  ++ [EHeaderSet "Content-Type" "text/html";
      EWriteHeader 200; EWrite "<h1>world</h1>"].
Proof.
  pose proof (respond_writes Example.Marshal Json.Unmarshal Example.table
                map_to_list Example.live Example.static "/" Example.world
                (Example.get "/") ∅
                (fun m => Permutation_refl (map_to_list m))) as H.
  cbv zeta in H. destruct H as (_ & _ & H & _).
  assert (E : snd (Render Example.Marshal Json.Unmarshal Example.table
                          (live_renderer Example.live) "/" Example.world)
              = Ok Example.greetingResponse) by (vm_compute; reflexivity).
  rewrite E in H. destruct H as [H _]. rewrite H.
  reflexivity.
Defined.

(** * Further properties of the view runtime *)

(** ** File handles of the two middlewares *)

(** X1. After the live middleware has served a request, no file handle that
    it opened is left open: a request for a client asset leaves none, on
    every path, and any other request leaves what the next handler leaves. *)
Theorem live_Middleware_handles {Logger} (s : liveServer Logger) next r :
  openHandles [] (live_Middleware s next r) =
  if isClient (URLPath r) then [] else openHandles [] (next r).
Proof.
  unfold live_Middleware. destruct (isClient (URLPath r)); [|reflexivity].
  cbn [negb]. destruct (live_hfs s _) as [file|err].
  - destruct (Stat file) as [modtime|err].
    + destruct (_ || _); cbn; rewrite decide_False by tauto; reflexivity.
    + cbn. rewrite decide_False by tauto. reflexivity.
  - destruct (IsNotExist err); reflexivity.
Qed.

(** X2. After the static middleware has served a request for a client
    asset, the handle of the asset is still open whenever the open
    succeeded, whether the stat succeeded or not; no handle is open when the
    open failed. *)
Theorem static_Middleware_handles {Logger} (s : staticServer Logger) next r :
  openHandles [] (static_Middleware s next r) =
  if isClient (URLPath r)
  then match static_hfs s (URLPath r) with
       | Ok file => [fileId file]
       | Err _ => []
       end
  else openHandles [] (next r).
Proof.
  unfold static_Middleware. destruct (isClient (URLPath r)); [|reflexivity].
  cbn [negb]. unfold static_serveHTTP.
  destruct (static_hfs s (URLPath r)) as [file|err]; [|reflexivity].
  destruct (Stat file) as [modtime|err]; [destruct (Strings.HasPrefix _ _)|];
    reflexivity.
Qed.

(** ** One answer for each request *)

Section Answers.
Context {Props Logger : Type}.
Variable Marshal : Props -> result string.
Variable Unmarshal : string -> result Response.
Variable isPrintTable : Z -> bool.
Variable rangeOrder : gmap string string -> list (string * string).

Lemma Render_Ok_status (rd : renderer) route (props : Props) res :
  snd (Render Marshal Unmarshal isPrintTable rd route props) = Ok res ->
  100 <= Status res <= 999.
Proof.
  unfold Render. destruct (Marshal props); [|discriminate].
  destruct (fsReadFile _ _); [|discriminate].
  destruct (vm rd _ _); [|discriminate].
  destruct (Unmarshal _) as [res0|]; [|discriminate].
  destruct ((Status res0 <? 100) || (Status res0 >? 999)) eqn:E;
    [discriminate|].
  intros [= <-]. apply orb_false_iff in E as [? ?]. lia.
Qed.

Lemma writtenStatuses_app t1 t2 :
  writtenStatuses (t1 ++ t2) = writtenStatuses t1 ++ writtenStatuses t2.
Proof.
  induction t1 as [|e t1 IH]; [reflexivity|].
  destruct e; cbn; now rewrite IH.
Qed.

Lemma errorStatuses_app t1 t2 :
  errorStatuses (t1 ++ t2) = errorStatuses t1 ++ errorStatuses t2.
Proof.
  induction t1 as [|e t1 IH]; [reflexivity|].
  destruct e; cbn; now rewrite IH.
Qed.

Lemma statuses_calls calls :
  Forall isRendererCall calls ->
  writtenStatuses calls = [] /\ errorStatuses calls = [].
Proof.
  induction 1 as [|e calls He _ [IH1 IH2]]; [now split|].
  destruct e; try contradiction; now split.
Qed.

Lemma statuses_setHeaders l :
  writtenStatuses (setHeaders l) = [] /\ errorStatuses (setHeaders l) = [].
Proof. induction l as [|kv l [IH1 IH2]]; now split. Qed.

(** What a trace tells of the status of the answer: one status in
    100..999 given to [WriteHeader], or status 500 given to [http.Error]. *)
Lemma respond_status (rd : renderer) route (props : Props) msg tr :
  tr = fst (Render Marshal Unmarshal isPrintTable rd route props)
       ++ match snd (Render Marshal Unmarshal isPrintTable rd route props) with
          | Err err => [ELogError msg err; EHttpError (Error err) 500]
          | Ok res => writeResponse rangeOrder res
          end ->
  (exists code, 100 <= code <= 999 /\
                writtenStatuses tr = [code] /\ errorStatuses tr = []) \/
  (writtenStatuses tr = [] /\ errorStatuses tr = [500]).
Proof.
  intros ->. rewrite writtenStatuses_app, errorStatuses_app.
  destruct (statuses_calls _ (Render_calls Marshal Unmarshal isPrintTable
                                rd route props)) as [-> ->].
  destruct (snd (Render _ _ _ _ _ _)) as [res|err] eqn:E.
  - left. exists (Status res). split; [now apply (Render_Ok_status _ _ _ _ E)|].
    rewrite writeResponse_eq, writtenStatuses_app, errorStatuses_app.
    destruct (statuses_setHeaders (rangeOrder (Headers res))) as [-> ->].
    now split.
  - right. now split.
Qed.

End Answers.

(** X3. Whatever the renderer, the file system and the engine do, the
    route handler of either variant gives the response one status: either
    it calls [WriteHeader] once, with a status between 100 and 999 (the
    codes that [WriteHeader] accepts), and never [http.Error], or it calls
    [http.Error] once, with status 500, and never [WriteHeader]. *)
Theorem Handler_status {Props Logger : Type}
        (Marshal : Props -> result string)
        (Unmarshal : string -> result Response) (isPrintTable : Z -> bool)
        (rangeOrder : gmap string string -> list (string * string))
        (sl : liveServer Logger) (ss : staticServer Logger)
        (route : string) (props : Props) (r : Request) :
  let oneStatus tr :=
    (exists code, 100 <= code <= 999 /\
                  writtenStatuses tr = [code] /\ errorStatuses tr = []) \/
    (writtenStatuses tr = [] /\ errorStatuses tr = [500]) in
  oneStatus (live_Handler Marshal Unmarshal isPrintTable rangeOrder
                          sl route props r) /\
  oneStatus (static_Handler Marshal Unmarshal isPrintTable rangeOrder
                            ss route props r).
Proof.
  cbv zeta. split.
  - eapply respond_status. unfold live_Handler. apply live_respond_eq.
  - eapply respond_status. unfold static_Handler. apply static_respond_eq.
Qed.

(** X4. A request for a client asset is answered exactly once by either
    middleware, by [http.Error] or by [http.ServeContent]; the live
    middleware gives [http.Error] no status but 404 and 500, the static
    middleware none but 500. *)
Theorem Middleware_answers_once {Logger} (sl : liveServer Logger)
        (ss : staticServer Logger) next r :
  isClient (URLPath r) = true ->
  countAnswers (live_Middleware sl next r) = 1%nat /\
  countAnswers (static_Middleware ss next r) = 1%nat /\
  (forall code, In code (errorStatuses (live_Middleware sl next r)) ->
                code = 404 \/ code = 500) /\
  (forall code, In code (errorStatuses (static_Middleware ss next r)) ->
                code = 500).
Proof.
  intros Hc. unfold live_Middleware, static_Middleware, static_serveHTTP.
  rewrite Hc. cbn [negb].
  destruct (live_hfs sl _) as [lf|le], (static_hfs ss _) as [sf|se];
    try destruct (Stat lf) as [lm|le]; try destruct (Stat sf) as [sm|se];
    try destruct (IsNotExist le);
    try destruct (Strings.HasPrefix (URLPath r) "/bud/node_modules/");
    try destruct (Strings.HasSuffix (URLPath r) ".svelte");
    cbn; repeat split; intros code H; intuition.
Qed.

Lemma Middleware_answers_once_witness :
  countAnswers (live_Middleware Example.live Example.noNext
                  (Example.get "/bud/view/index.svelte")) = 1%nat /\
  countAnswers (static_Middleware Example.static Example.noNext
                  (Example.get "/bud/view/index.svelte")) = 1%nat.
Proof.
  pose proof (Middleware_answers_once Example.live Example.static
                Example.noNext (Example.get "/bud/view/index.svelte")
                eq_refl) as (H1 & H2 & _).
  split; [exact H1 | exact H2].
Defined.

(** ** The two variants of the route handler *)

Lemma withoutLogs_app t1 t2 :
  withoutLogs (t1 ++ t2) = withoutLogs t1 ++ withoutLogs t2.
Proof.
  induction t1 as [|e t1 IH]; [reflexivity|].
  destruct e; cbn; now rewrite IH.
Qed.

Lemma withoutLogs_setHeaders l : withoutLogs (setHeaders l) = setHeaders l.
Proof.
  induction l as [|kv l IH]; [reflexivity|].
  change (setHeaders (kv :: l))
    with (EHeaderSet (fst kv) (snd kv) :: setHeaders l).
  cbn [withoutLogs]. now rewrite IH.
Qed.

Lemma headerSets_calls (calls : trace) :
  Forall isRendererCall calls -> headerSets (withoutLogs calls) = [].
Proof.
  induction 1 as [|e calls He _ IH]; [reflexivity|].
  destruct e; try contradiction; exact IH.
Qed.

(** X5. A live server and a static server that share their renderer, so
    that the file system and the engine answer both alike, answer a route
    alike: for every route, props and request, and whatever the orders in
    which the two executions range over the headers of the response, the
    two traces without what is logged are the same calls of the renderer,
    then header sets that are the same up to their order, then the same
    status and body or the same error page. *)
Theorem Handlers_agree {Props Logger : Type}
        (Marshal : Props -> result string)
        (Unmarshal : string -> result Response) (isPrintTable : Z -> bool)
        (orderL orderS : gmap string string -> list (string * string))
        (sl : liveServer Logger) (ss : staticServer Logger)
        (route : string) (props : Props) (r1 r2 : Request) :
  live_renderer sl = static_renderer ss ->
  (forall m, orderL m ≡ₚ map_to_list m) ->
  (forall m, orderS m ≡ₚ map_to_list m) ->
  exists calls setsL setsS tail,
    withoutLogs (live_Handler Marshal Unmarshal isPrintTable orderL
                              sl route props r1) =
      calls ++ setHeaders setsL ++ tail /\
    withoutLogs (static_Handler Marshal Unmarshal isPrintTable orderS
                                ss route props r2) =
      calls ++ setHeaders setsS ++ tail /\
    setsL ≡ₚ setsS /\
    headerSets calls = [] /\ headerSets tail = [].
Proof.
  intros E HL HS. unfold live_Handler, static_Handler.
  rewrite live_respond_eq, static_respond_eq, E, !withoutLogs_app.
  pose proof (Render_calls Marshal Unmarshal isPrintTable
                (static_renderer ss) route props) as Hc.
  apply headerSets_calls in Hc.
  exists (withoutLogs
            (fst (Render Marshal Unmarshal isPrintTable
                         (static_renderer ss) route props))).
  destruct (snd (Render _ _ _ _ _ _)) as [res|err].
  - exists (orderL (Headers res)), (orderS (Headers res)),
           [EWriteHeader (Status res); EWrite (Body res)].
    rewrite !writeResponse_eq, !withoutLogs_app, !withoutLogs_setHeaders.
    repeat split; try assumption.
    now rewrite HL, HS.
  - exists [], [], [EHttpError (Error err) 500].
    repeat split; try assumption. reflexivity.
Qed.

Lemma Handlers_agree_witness :
  exists calls setsL setsS tail,
    withoutLogs (live_Handler Example.Marshal Json.Unmarshal Example.table
                   map_to_list Example.live "/" Example.world
                   (Example.get "/")) =
      calls ++ setHeaders setsL ++ tail /\
    withoutLogs (static_Handler Example.Marshal Json.Unmarshal Example.table
                   (fun m => reverse (map_to_list m)) Example.static "/"
                   Example.world (Example.get "/about")) =
      calls ++ setHeaders setsS ++ tail /\
    setsL ≡ₚ setsS /\
    headerSets calls = [] /\ headerSets tail = [].
Proof.
  apply (Handlers_agree Example.Marshal Json.Unmarshal Example.table
           map_to_list (fun m => reverse (map_to_list m))
           Example.live Example.static "/" Example.world
           (Example.get "/") (Example.get "/about")).
  - reflexivity.
  - intros m. apply Permutation_refl.
  - intros m. apply reverse_Permutation.
Defined.

(** ** Routes without special characters *)

(** X6. A route made of printable ASCII characters other than the double
    quote and the backslash enters the evaluated expression unchanged,
    between two double quotes. *)
Theorem Quote_plainText (isPrintTable : Z -> bool) (route : string) :
  plainText route = true ->
  Strconv.Quote isPrintTable route =
  String Strconv.dquote (route +:+ String Strconv.dquote EmptyString).
Proof.
  intros H. unfold Strconv.Quote. f_equal.
  induction route as [|c s IH]; [reflexivity|].
  cbn [plainText] in H. apply andb_true_iff in H as [H Hs].
  apply andb_true_iff in H as [Hp Hq].
  apply between_spec in Hp. apply negb_true_iff, orb_false_iff in Hq.
  destruct Hq as [H34 H92].
  cbn [Strconv.quoteLoop]. unfold Utf8.RuneSelf.
  replace (Utf8.byte_val c <? 128) with true by lia.
  replace ((1 =? 1)%nat && (Utf8.byte_val c =? Utf8.RuneError)) with false
    by (unfold Utf8.RuneError; cbn [Nat.eqb andb]; lia).
  unfold Strconv.appendEscapedRune. rewrite H34, H92. cbn [orb].
  replace (Strconv.IsPrint isPrintTable (Utf8.byte_val c)) with true.
  2:{ unfold Strconv.IsPrint, Utf8.between.
      replace (Utf8.byte_val c <=? 255) with true by lia.
      now replace ((32 <=? Utf8.byte_val c) && (Utf8.byte_val c <=? 126))
        with true by lia. }
  rewrite EncodeRune_ascii by lia. rewrite chr_byte_val.
  rewrite !append_cons, append_nil. f_equal. now apply IH.
Qed.

Lemma Quote_plainText_witness :
  Strconv.Quote Example.table "/posts/10/comments" =
  String Strconv.dquote
         ("/posts/10/comments" +:+ String Strconv.dquote EmptyString).
Proof. apply Quote_plainText. reflexivity. Defined.

(** ** The paths of client assets *)

Lemma prefix_empty s : String.prefix EmptyString s = true.
Proof. now destruct s. Qed.

Lemma prefix_cons_inv a s1 s2 :
  String.prefix (String a s1) s2 = true ->
  exists s2', s2 = String a s2' /\ String.prefix s1 s2' = true.
Proof.
  destruct s2 as [|b s2]; [discriminate|]. cbn.
  destruct (ascii_dec a b) as [->|]; [|discriminate]. eauto.
Qed.

Lemma isClient_under_bud path :
  isClient path = true ->
  exists rest, path = "/bud/" +:+ rest /\
               Strings.TrimPrefix path "/" = "bud/" +:+ rest.
Proof.
  assert (Hsub : forall s, String.substring 0 (String.length s) s = s).
  { induction s as [|c s IH]; [reflexivity|]. cbn. now rewrite IH. }
  assert (Hkey : forall rest,
            Strings.TrimPrefix ("/bud/" +:+ rest) "/" = "bud/" +:+ rest).
  { intros rest. unfold Strings.TrimPrefix, Strings.HasPrefix.
    rewrite !append_cons, append_nil. cbn [String.prefix].
    destruct (ascii_dec "/" "/") as [_|N]; [|contradiction].
    rewrite ?prefix_empty. cbn [String.length Nat.sub String.substring].
    now rewrite Hsub. }
  unfold isClient, Strings.HasPrefix. intros H.
  apply orb_true_iff in H as [H|H];
    repeat (apply prefix_cons_inv in H as (? & -> & H));
    match goal with
    | |- ex (fun _ => String _ (String _ (String _ (String _ (String _ ?R))))
                      = _ /\ _) =>
      exists R; split; [reflexivity|exact (Hkey R)]
    end.
Qed.

(** X7. Neither middleware touches a request whose path does not start
    with [/bud/]: it is forwarded to the next handler as it is, and the
    answer is the answer of that handler. *)
Theorem outside_bud_forwarded {Logger} (sl : liveServer Logger)
        (ss : staticServer Logger) (r : Request) :
  Strings.HasPrefix (URLPath r) "/bud/" = false ->
  forwards (live_Middleware sl) r /\ forwards (static_Middleware ss) r.
Proof.
  intros H.
  assert (Hc : isClient (URLPath r) = false).
  { destruct (isClient (URLPath r)) eqn:E; [|reflexivity].
    destruct (isClient_under_bud _ E) as (rest & Hp & _).
    rewrite Hp in H. unfold Strings.HasPrefix in H.
    rewrite !append_cons, append_nil in H. cbn [String.prefix] in H.
    repeat match type of H with
           | context [ascii_dec ?a ?a] =>
             destruct (ascii_dec a a) as [_|N]; [|contradiction]
           end.
    now rewrite prefix_empty in H. }
  split; [now apply live_forwards_iff | now apply static_forwards_iff].
Qed.

Lemma outside_bud_forwarded_witness :
  forwards (live_Middleware Example.live) (Example.get "/budget") /\
  forwards (static_Middleware Example.static) (Example.get "/budget").
Proof.
  apply (outside_bud_forwarded Example.live Example.static
           (Example.get "/budget")).
  reflexivity.
Defined.

(** X8. For a client asset the two middlewares open one file each, under
    different names: the static middleware opens the path of the request,
    and the live middleware opens this path without its leading slash. *)
Theorem opened_names {Logger} (sl : liveServer Logger)
        (ss : staticServer Logger) next (r : Request) :
  isClient (URLPath r) = true ->
  exists name,
    URLPath r = String "/" name /\
    openedNames (live_Middleware sl next r) = [name] /\
    openedNames (static_Middleware ss next r) = [URLPath r].
Proof.
  intros Hc. destruct (isClient_under_bud _ Hc) as (rest & Hp & Ht).
  exists ("bud/" +:+ rest). split; [exact Hp|].
  unfold live_Middleware, static_Middleware, static_serveHTTP.
  rewrite Hc, Ht. cbn [negb]. split.
  - destruct (live_hfs sl _) as [f|e].
    + destruct (Stat f); [destruct (_ || _)|]; reflexivity.
    + destruct (IsNotExist e); reflexivity.
  - destruct (static_hfs ss _) as [f|e]; [|reflexivity].
    destruct (Stat f); [destruct (Strings.HasPrefix _ _)|]; reflexivity.
Qed.

Lemma opened_names_witness :
  exists name,
    "/bud/view/index.svelte" = String "/" name /\
    openedNames (live_Middleware Example.live Example.noNext
                   (Example.get "/bud/view/index.svelte")) = [name] /\
    openedNames (static_Middleware Example.static Example.noNext
                   (Example.get "/bud/view/index.svelte"))
    = ["/bud/view/index.svelte"].
Proof.
  apply (opened_names Example.live Example.static Example.noNext
           (Example.get "/bud/view/index.svelte")).
  reflexivity.
Defined.

(** * The lexical paths of the loader *)

Section PathFacts.
Import Utf8 Path Elements.

Lemma isSlash_eq c : isSlash c = true -> c = slash.
Proof.
  unfold isSlash. intros H. apply Z.eqb_eq in H.
  rewrite <- (chr_byte_val c), H. reflexivity.
Qed.

Lemma isDot_eq c : isDot c = true -> c = dot.
Proof.
  unfold isDot. intros H. apply Z.eqb_eq in H.
  rewrite <- (chr_byte_val c), H. reflexivity.
Qed.

Lemma eqb_slash c : Ascii.eqb c slash = isSlash c.
Proof.
  destruct (isSlash c) eqn:E.
  - apply isSlash_eq in E. now subst.
  - apply Ascii.eqb_neq. intros ->. discriminate E.
Qed.

(** *** Splitting at the slashes *)

Lemma Split_nonempty s sep : Split.Split s sep <> [].
Proof.
  induction s as [|c s IH]; [discriminate|]. cbn.
  destruct (Ascii.eqb c sep); [discriminate|].
  destruct (Split.Split s sep); [contradiction|discriminate].
Qed.

Lemma Split_noSlash s : Forall (fun e => noSlash e = true) (Split.Split s slash).
Proof.
  induction s as [|c s IH]; [repeat constructor|].
  cbn [Split.Split]. rewrite eqb_slash.
  destruct (isSlash c) eqn:E; [now constructor|].
  destruct (Split.Split s slash) as [|w ws]; [repeat constructor; cbn;
    now rewrite E|].
  inversion IH; subst. constructor; [cbn; now rewrite E|assumption].
Qed.

Lemma Join_Split s : Split.Join (Split.Split s slash) "/" = s.
Proof.
  induction s as [|c s IH]; [reflexivity|].
  cbn [Split.Split]. rewrite eqb_slash.
  pose proof (Split_nonempty s slash) as Hne.
  destruct (isSlash c) eqn:E.
  - apply isSlash_eq in E. subst c.
    destruct (Split.Split s slash) as [|w ws]; [contradiction|].
    change (Split.Join (EmptyString :: w :: ws) "/")
      with (EmptyString +:+ "/" +:+ Split.Join (w :: ws) "/").
    now rewrite IH.
  - destruct (Split.Split s slash) as [|w ws]; [contradiction|].
    destruct ws as [|w' ws].
    + cbn in IH |- *. now rewrite IH.
    + change (Split.Join (String c w :: w' :: ws) "/")
        with (String c (w +:+ "/" +:+ Split.Join (w' :: ws) "/")).
      now rewrite <- IH.
Qed.

Lemma Split_app a b :
  Split.Split (a +:+ String slash b) slash =
  Split.Split a slash ++ Split.Split b slash.
Proof.
  induction a as [|c a IH].
  - rewrite append_nil. cbn [Split.Split]. now rewrite Ascii.eqb_refl.
  - rewrite append_cons. cbn [Split.Split]. rewrite IH.
    destruct (Ascii.eqb c slash); [reflexivity|].
    pose proof (Split_nonempty a slash).
    destruct (Split.Split a slash); [contradiction|reflexivity].
Qed.

Lemma Split_one e : noSlash e = true -> Split.Split e slash = [e].
Proof.
  induction e as [|c e IH]; [reflexivity|]. cbn [noSlash Split.Split].
  intros H. apply andb_true_iff in H as [Hc He]. rewrite eqb_slash.
  apply negb_true_iff in Hc. rewrite Hc, (IH He). reflexivity.
Qed.

Lemma Split_Join l :
  l <> [] -> Forall (fun e => noSlash e = true) l ->
  Split.Split (Split.Join l "/") slash = l.
Proof.
  induction l as [|e l IH]; [contradiction|]. intros _ H.
  apply Forall_cons in H as [He Hl]. destruct l as [|e' l].
  - now apply Split_one.
  - change (Split.Join (e :: e' :: l) "/")
      with (e +:+ String slash (Split.Join (e' :: l) "/")).
    rewrite Split_app, Split_one, IH by (assumption || discriminate).
    reflexivity.
Qed.

(** *** Copying an element *)

Lemma copy_element r e : forall out d s,
  noSlash e = true -> atEnd s = true ->
  cleanLoop r true out d (e +:+ s) = cleanLoop r false (revBytes out e) d s.
Proof.
  induction e as [|c e IH]; intros out d s He Hs.
  - rewrite append_nil. destruct s as [|c s]; [reflexivity|].
    cbn in Hs. cbn [cleanLoop revBytes]. now rewrite Hs.
  - cbn [noSlash] in He. apply andb_true_iff in He as [Hc He].
    apply negb_true_iff in Hc. rewrite append_cons.
    cbn [cleanLoop revBytes]. rewrite Hc. now apply IH.
Qed.

Lemma Join_cons e es :
  Split.Join (e :: es) "/" = e +:+ afterElement es.
Proof.
  destruct es; [cbn; now rewrite append_empty_r|reflexivity].
Qed.

Lemma atEnd_afterElement es : atEnd (afterElement es) = true.
Proof. now destruct es. Qed.

Lemma cleanLoop_afterElement r out d es :
  cleanLoop r false out d (afterElement es) =
  match es with
  | [] => out
  | _ => cleanLoop r false out d (Split.Join es "/")
  end.
Proof. now destruct es. Qed.

(** The first bytes of an element that is kept decide that it is copied. *)
Lemma element_start c e s :
  noSlash (String c e) = true -> atEnd s = true ->
  String.eqb (String c e) "." = false ->
  String.eqb (String c e) ".." = false ->
  isSlash c = false /\ isDot c && atEnd (e +:+ s) = false /\
  match e +:+ s with
  | String c2 s'' => isDot c && isDot c2 && atEnd s'' = false
  | EmptyString => True
  end.
Proof.
  intros Hn Hs H1 H2. cbn [noSlash] in Hn.
  apply andb_true_iff in Hn as [Hc He]. apply negb_true_iff in Hc.
  split; [exact Hc|].
  destruct (isDot c) eqn:Ed; [|repeat split; now destruct (e +:+ s)].
  apply isDot_eq in Ed. subst c. cbn [andb].
  destruct e as [|c2 e].
  - discriminate H1.
  - cbn [noSlash] in He. apply andb_true_iff in He as [Hc2 He].
    apply negb_true_iff in Hc2. rewrite append_cons. cbn [atEnd].
    split; [exact Hc2|].
    destruct (isDot c2) eqn:Ed2; [|reflexivity].
    apply isDot_eq in Ed2. subst c2. cbn [andb].
    destruct e as [|c3 e]; [discriminate H2|].
    cbn [noSlash] in He. apply andb_true_iff in He as [Hc3 _].
    apply negb_true_iff in Hc3. rewrite append_cons. exact Hc3.
Qed.

(** The loop of [Clean] over a rooted path without [..]: the elements that
    are neither empty nor a dot are copied, in order. *)
Lemma cleanLoop_elements es : forall out,
  Forall (fun e => noSlash e = true) es ->
  existsb (String.eqb "..") es = false ->
  cleanLoop true false out 1 (Split.Join es "/") =
  pushAll out (List.filter keep es).
Proof.
  induction es as [|e es IH]; intros out Hn Hd; [reflexivity|].
  apply Forall_cons in Hn as [He Hes]. cbn [existsb] in Hd.
  apply orb_false_iff in Hd as [Hd Hds]. rewrite String.eqb_sym in Hd.
  assert (Hrest : forall out', cleanLoop true false out' 1 (afterElement es) =
                               pushAll out' (List.filter keep es)).
  { intros out'. rewrite cleanLoop_afterElement. destruct es; [reflexivity|].
    now apply IH. }
  rewrite Join_cons. cbn [List.filter]. unfold keep at 1.
  destruct e as [|c e].
  - rewrite append_nil. apply Hrest.
  - change (String.eqb (String c e) EmptyString) with false. cbn [orb].
    destruct (String.eqb (String c e) ".") eqn:E1; cbn [negb].
    + apply String.eqb_eq in E1. injection E1 as -> ->.
      rewrite append_cons, append_nil. cbn [cleanLoop].
      change (isSlash ".") with false. change (isDot ".") with true.
      rewrite atEnd_afterElement. cbn [andb]. apply Hrest.
    + destruct (element_start c e (afterElement es) He
                  (atEnd_afterElement es) E1 Hd) as (Hc & Hdot & Hdd).
      rewrite append_cons. cbn [cleanLoop pushAll]. rewrite Hc, Hdot.
      cbn [andb negb orb]. rewrite orb_false_r.
      assert (Hcopy :
        cleanLoop true true
          (c :: (if negb (length out =? 1)%nat then slash :: out else out)) 1
          (e +:+ afterElement es) =
        pushAll (revBytes (if (length out =? 1)%nat then out else slash :: out)
                          (String c e))
                (List.filter keep es)).
      { cbn [noSlash] in He. apply andb_true_iff in He as [_ He].
        rewrite copy_element by (try exact He; apply atEnd_afterElement).
        rewrite Hrest. cbn [revBytes]. now destruct (length out =? 1)%nat. }
      destruct (e +:+ afterElement es) as [|c2 s''].
      * exact Hcopy.
      * rewrite Hdd. exact Hcopy.
Qed.

(** *** The text of the buffer *)

Lemma fold_text out : forall acc,
  fold_left (fun s c => String c s) out acc = text out +:+ acc.
Proof.
  unfold text. induction out as [|c out IH]; intros acc; [reflexivity|].
  cbn [fold_left]. rewrite IH, (IH (String c EmptyString)).
  now rewrite append_assoc.
Qed.

Lemma text_cons c out : text (c :: out) = text out +:+ String c EmptyString.
Proof. unfold text at 1. cbn [fold_left]. apply fold_text. Qed.

Lemma text_revBytes e : forall out, text (revBytes out e) = text out +:+ e.
Proof.
  induction e as [|c e IH]; intros out; cbn [revBytes].
  - now rewrite append_empty_r.
  - rewrite IH, text_cons. now rewrite append_assoc.
Qed.

Lemma length_revBytes e : forall out,
  length (revBytes out e) = (length out + String.length e)%nat.
Proof.
  induction e as [|c e IH]; intros out; cbn [revBytes String.length]; [lia|].
  rewrite IH. cbn [length]. lia.
Qed.

Lemma keep_nonempty e : keep e = true -> (1 <= String.length e)%nat.
Proof. destruct e; [discriminate|cbn; lia]. Qed.

Lemma pushAll_text_deep es : forall out,
  Forall (fun e => keep e = true) es -> (2 <= length out)%nat ->
  text (pushAll out es) = text out +:+ afterElement es.
Proof.
  induction es as [|e es IH]; intros out Hk Hl.
  - cbn. now rewrite append_empty_r.
  - apply Forall_cons in Hk as [He Hes]. cbn [pushAll].
    replace (length out =? 1)%nat with false by (symmetry; apply Nat.eqb_neq; lia).
    rewrite IH by (try exact Hes; rewrite length_revBytes; cbn [length]; lia).
    rewrite text_revBytes, text_cons.
    change (afterElement (e :: es)) with (String slash (Split.Join (e :: es) "/")).
    rewrite Join_cons. norm_app. reflexivity.
Qed.

Lemma pushAll_text_root es c :
  Forall (fun e => keep e = true) es ->
  text (pushAll [c] es) = String c (Split.Join es "/").
Proof.
  intros Hk. destruct es as [|e es]; [reflexivity|].
  apply Forall_cons in Hk as [He Hes]. cbn [pushAll length Nat.eqb].
  rewrite pushAll_text_deep
    by (try exact Hes; rewrite length_revBytes; cbn [length];
        pose proof (keep_nonempty e He); lia).
  rewrite text_revBytes, Join_cons. reflexivity.
Qed.

Lemma pushAll_nonempty es : forall out, out <> [] -> pushAll out es <> [].
Proof.
  induction es as [|e es IH]; intros out H; [exact H|].
  cbn [pushAll]. apply IH. intros E. apply (f_equal (@length _)) in E.
  rewrite length_revBytes in E.
  destruct out; [contradiction|]. destruct (_ =? _)%nat; cbn in E; lia.
Qed.

Lemma filter_keep es : Forall (fun e => keep e = true) (List.filter keep es).
Proof.
  apply Forall_forall. intros e H. apply list_elem_of_In in H.
  now apply List.filter_In in H.
Qed.

(** [Clean] on a rooted path without [..]: the root and the elements that
    are neither empty nor a dot, with one slash between them. *)
Lemma Clean_elements p :
  rooted p = true -> hasDotDot p = false ->
  Clean p = String slash (Split.Join (elements p) "/").
Proof.
  destruct p as [|c p]; [discriminate|]. cbn [rooted hasDotDot elements].
  intros Hr Hd.
  assert (Hout : cleanLoop true false [slash] 1 p =
                 pushAll [slash] (List.filter keep (Split.Split p slash))).
  { rewrite <- (Join_Split p) at 1.
    apply cleanLoop_elements; [apply Split_noSlash|exact Hd]. }
  unfold Clean. rewrite Hr, Hout.
  pose proof (pushAll_nonempty (List.filter keep (Split.Split p slash))
                [slash] ltac:(discriminate)) as Hne.
  rewrite <- (pushAll_text_root _ slash (filter_keep (Split.Split p slash))).
  now destruct (pushAll _ _).
Qed.

(** *** Joining a rooted path and elements *)

Lemma joinLoop_elements xs : forall buf,
  buf <> EmptyString -> Forall (fun e => plainElement e = true) xs ->
  joinLoop buf xs = buf +:+ afterElement xs.
Proof.
  induction xs as [|x xs IH]; intros buf Hb Hx.
  - cbn. now rewrite append_empty_r.
  - apply Forall_cons in Hx as [Hx Hxs]. cbn [joinLoop].
    replace (String.eqb buf EmptyString) with false
      by (symmetry; now apply String.eqb_neq).
    cbn [negb orb]. rewrite IH; [|now destruct buf|exact Hxs].
    change (afterElement (x :: xs)) with (String slash (Split.Join (x :: xs) "/")).
    rewrite Join_cons. norm_app. reflexivity.
Qed.

Lemma plainElement_spec e :
  plainElement e = true ->
  noSlash e = true /\ keep e = true /\ String.eqb ".." e = false.
Proof.
  unfold plainElement. intros H. apply andb_true_iff in H as [H H3].
  apply andb_true_iff in H as [H1 H2]. apply negb_true_iff in H3. auto.
Qed.

Lemma existsb_dotdot_plain xs :
  Forall (fun e => plainElement e = true) xs ->
  existsb (String.eqb "..") xs = false.
Proof.
  induction 1 as [|x xs Hx _ IH]; [reflexivity|]. cbn [existsb].
  apply plainElement_spec in Hx as (_ & _ & ->). exact IH.
Qed.

Lemma filter_keep_plain xs :
  Forall (fun e => plainElement e = true) xs -> List.filter keep xs = xs.
Proof.
  induction 1 as [|x xs Hx _ IH]; [reflexivity|]. cbn [List.filter].
  apply plainElement_spec in Hx as (_ & -> & _). now rewrite IH.
Qed.

(** [Join] of a rooted path without [..] and of plain elements: the
    elements of the path, then the others. *)
Lemma Join_elements p xs :
  rooted p = true -> hasDotDot p = false ->
  Forall (fun e => plainElement e = true) xs ->
  Path.Join (p :: xs) = String slash (Split.Join (elements p ++ xs) "/").
Proof.
  intros Hr Hd Hx. unfold Path.Join.
  destruct p as [|c p]; [discriminate|].
  change (forallb _ (String c p :: xs)) with false. cbn iota.
  cbn [joinLoop]. change (String.eqb EmptyString EmptyString) with true.
  change (String.eqb (String c p) EmptyString) with false.
  cbn [negb orb]. rewrite append_nil.
  rewrite joinLoop_elements by (try exact Hx; discriminate).
  destruct xs as [|x xs].
  - cbn [afterElement]. rewrite append_empty_r, app_nil_r.
    now apply Clean_elements.
  - assert (Hs : Split.Split (p +:+ String slash (Split.Join (x :: xs) "/")) slash
                 = Split.Split p slash ++ x :: xs).
    { rewrite Split_app. f_equal. apply Split_Join; [discriminate|].
      eapply Forall_impl; [exact Hx|]. intros e He.
      now apply plainElement_spec in He. }
    cbn [afterElement]. rewrite append_cons.
    rewrite Clean_elements.
    + cbn [elements]. rewrite Hs, List.filter_app.
      now rewrite (filter_keep_plain (x :: xs)).
    + exact Hr.
    + cbn [hasDotDot] in Hd |- *. rewrite Hs, existsb_app, Hd.
      now apply existsb_dotdot_plain.
Qed.

(** *** Rooted paths stay rooted *)

Lemma dropSegment_root c : forall out,
  last out = Some slash -> last (dropSegment 1 c out) = Some slash.
Proof.
  intros out. revert c. induction out as [|c' out IH]; intros c H;
    [discriminate|].
  cbn [dropSegment]. destruct ((1 <? length (c' :: out))%nat && _) eqn:E;
    [|exact H].
  apply andb_true_iff in E as [E _]. apply Nat.ltb_lt in E. cbn in E.
  destruct out as [|c'' out]; [cbn in E; lia|]. apply IH. exact H.
Qed.

Lemma cleanLoop_root s : forall inSeg out,
  last out = Some slash ->
  last (cleanLoop true inSeg out 1 s) = Some slash.
Proof.
  assert (Hpush : forall c out, last out = Some slash ->
                                last (c :: out) = Some slash).
  { intros c [|c' out] H; [discriminate|exact H]. }
  induction s as [s IH] using (well_founded_induction
                                 (well_founded_ltof _ String.length)).
  intros inSeg out H. destruct s as [|c s]; [exact H|].
  assert (IH1 : forall inSeg out, last out = Some slash ->
                  last (cleanLoop true inSeg out 1 s) = Some slash).
  { intros. apply IH; [unfold ltof; cbn; lia|assumption]. }
  cbn [cleanLoop]. destruct inSeg.
  { destruct (isSlash c); apply IH1; auto. }
  destruct (isSlash c); [now apply IH1|].
  destruct (isDot c && atEnd s); [now apply IH1|].
  cbn [andb negb orb]. rewrite orb_false_r.
  assert (Helem : last (cleanLoop true true
                    (c :: (if negb (length out =? 1)%nat
                           then slash :: out else out)) 1 s) = Some slash).
  { apply IH1, Hpush. destruct (negb _); [now apply Hpush|exact H]. }
  destruct s as [|c2 s]; [exact Helem|].
  destruct (isDot c && isDot c2 && atEnd s); [|exact Helem].
  destruct (1 <? length out)%nat eqn:E.
  - apply IH; [unfold ltof; cbn; lia|].
    destruct out as [|c0 out]; [discriminate|]. cbn [backtrack].
    apply dropSegment_root. apply Nat.ltb_lt in E.
    destruct out; [cbn in E; lia|exact H].
  - apply IH; [unfold ltof; cbn; lia|exact H].
Qed.

Lemma text_last out c : last out = Some c -> rooted (text out) = isSlash c.
Proof.
  intros H. destruct (last_Some out c) as [(top & ->) _]; [exact H|].
  unfold text. rewrite fold_left_app. reflexivity.
Qed.

Lemma Clean_rooted p : rooted p = true -> rooted (Clean p) = true.
Proof.
  destruct p as [|c p]; [discriminate|]. cbn [rooted]. intros Hr.
  unfold Clean. rewrite Hr.
  pose proof (cleanLoop_root p false [slash] eq_refl) as H.
  destruct (cleanLoop true false [slash] 1 p) eqn:E; [discriminate|].
  now rewrite (text_last _ _ H).
Qed.

Lemma rooted_app a b : rooted a = true -> rooted (a +:+ b) = true.
Proof. destruct a; [discriminate|]. now rewrite append_cons. Qed.

Lemma joinLoop_rooted xs : forall buf,
  rooted buf = true -> rooted (joinLoop buf xs) = true.
Proof.
  induction xs as [|x xs IH]; intros buf H; [exact H|].
  cbn [joinLoop]. destruct buf as [|c buf]; [discriminate|].
  change (String.eqb (String c buf) EmptyString) with false.
  cbn [negb orb]. apply IH. rewrite append_assoc. now apply rooted_app.
Qed.

(** [Join] of a rooted path and of anything else is a rooted path. *)
Lemma Join_rooted p xs : rooted p = true -> rooted (Path.Join (p :: xs)) = true.
Proof.
  intros H. unfold Path.Join. destruct p as [|c p]; [discriminate|].
  change (forallb _ (String c p :: xs)) with false. cbn iota.
  apply Clean_rooted. cbn [joinLoop].
  change (String.eqb EmptyString EmptyString) with true.
  change (String.eqb (String c p) EmptyString) with false.
  cbn [negb orb]. rewrite append_nil. now apply joinLoop_rooted.
Qed.

End PathFacts.

(** * The actions of the loader *)

Section WebFacts.
Import Path Elements Web.
Variables textPath textSlug textSingular textTitle textLower textSnake
  : string -> string.

Lemma plain_id : plainElement ":id" = true. Proof. reflexivity. Qed.
Lemma plain_new : plainElement "new" = true. Proof. reflexivity. Qed.
Lemma plain_edit : plainElement "edit" = true. Proof. reflexivity. Qed.

(** X9. For a rooted base path without [..] among its elements, the route
    of [Show], [Update] and [Delete] is made of the elements of the base
    path followed by [:id], that of [New] of these elements followed by
    [new], and that of [Edit] of these elements followed by [:id] and
    [edit], each time with the root first and one slash between two
    elements: empty elements and dots of the base path are dropped, and
    the root path gives [/:id], [/new] and [/:id/edit]. *)
Theorem loadActionRoute_elements (base : string) :
  rooted base = true -> hasDotDot base = false ->
  let route xs := String slash (Split.Join (elements base ++ xs) "/") in
  loadActionRoute textLower textSnake base "Show" = route [":id"] /\
  loadActionRoute textLower textSnake base "Update" = route [":id"] /\
  loadActionRoute textLower textSnake base "Delete" = route [":id"] /\
  loadActionRoute textLower textSnake base "New" = route ["new"] /\
  loadActionRoute textLower textSnake base "Edit" = route [":id"; "edit"].
Proof.
  intros Hr Hd route. unfold loadActionRoute.
  repeat split; cbn [String.eqb Ascii.eqb Bool.eqb orb andb];
    apply Join_elements; try assumption; repeat constructor.
Qed.

(** X10. Every action that [loadActions] makes has a rooted route,
    whatever the directory of the controller, the name of the method and
    the functions of the package [text]. *)
Theorem action_route_rooted (dir actionName : string) :
  rooted (ActionRoute (loadAction textPath textSlug textSingular textTitle
                                  textLower textSnake dir actionName)) = true.
Proof.
  unfold loadAction. cbn [ActionRoute].
  set (base := loadControllerRoute textPath textSlug textSingular _).
  assert (Hb : rooted base = true) by reflexivity.
  unfold loadActionRoute.
  repeat match goal with
         | |- context [if ?b then _ else _] => destruct b
         end; try exact Hb; now apply Join_rooted.
Qed.

Lemma Join_inj l1 l2 :
  l1 <> [] -> l2 <> [] ->
  Forall (fun e => noSlash e = true) l1 ->
  Forall (fun e => noSlash e = true) l2 ->
  Split.Join l1 "/" = Split.Join l2 "/" -> l1 = l2.
Proof.
  intros H1 H2 F1 F2 E.
  rewrite <- (Split_Join l1 H1 F1), <- (Split_Join l2 H2 F2). now rewrite E.
Qed.

Lemma elements_noSlash p : Forall (fun e => noSlash e = true) (elements p).
Proof.
  destruct p as [|c p]; [constructor|]. cbn [elements].
  apply Forall_forall. intros e H. apply list_elem_of_In in H.
  apply List.filter_In in H as [H _].
  pose proof (Split_noSlash p) as F. rewrite Forall_forall in F.
  apply F. now apply list_elem_of_In.
Qed.

Lemma elements_kept p : List.filter keep (elements p) = elements p.
Proof.
  destruct p as [|c p]; [reflexivity|]. cbn [elements].
  induction (Split.Split p slash) as [|e l IH]; [reflexivity|].
  cbn [List.filter]. destruct (keep e) eqn:E; [|exact IH].
  cbn [List.filter]. now rewrite E, IH.
Qed.

(** A rooted path is not the path of its elements and of more elements. *)
Lemma base_not_longer base xs :
  rooted base = true -> xs <> [] ->
  Forall (fun e => plainElement e = true) xs ->
  base <> String slash (Split.Join (elements base ++ xs) "/").
Proof.
  intros Hr Hx Fx E. destruct base as [|c p]; [discriminate|].
  injection E as _ E.
  assert (Hs : Split.Split p slash = elements (String c p) ++ xs).
  { rewrite E at 1. apply Split_Join.
    - destruct (elements (String c p)); [exact Hx|discriminate].
    - apply Forall_app. split; [apply elements_noSlash|].
      eapply Forall_impl; [exact Fx|]. intros e He.
      now apply plainElement_spec in He. }
  assert (Hf : elements (String c p) = elements (String c p) ++ xs).
  { change (elements (String c p))
      with (List.filter keep (Split.Split p slash)) at 1.
    rewrite Hs, List.filter_app, elements_kept.
    now rewrite (filter_keep_plain xs Fx). }
  apply (f_equal (@length _)) in Hf. rewrite length_app in Hf.
  destruct xs; [contradiction|cbn in Hf; lia].
Qed.

(** X11. For a rooted base path without [..] among its elements, the seven
    conventional actions get seven different pairs of a method and a
    route. *)
Theorem conventional_actions_distinct (base : string) :
  rooted base = true -> hasDotDot base = false ->
  NoDup (map (fun name => (loadActionMethod name,
                           loadActionRoute textLower textSnake base name))
             ["Index"; "Show"; "New"; "Edit"; "Create"; "Update"; "Delete"]).
Proof.
  intros Hr Hd.
  destruct (loadActionRoute_elements base Hr Hd)
    as (Hshow & Hupdate & Hdelete & Hnew & Hedit).
  cbn [map]. rewrite Hshow, Hupdate, Hdelete, Hnew, Hedit.
  change (loadActionRoute textLower textSnake base "Index") with base.
  change (loadActionRoute textLower textSnake base "Create") with base.
  change (loadActionMethod "Index") with "Get".
  change (loadActionMethod "Show") with "Get".
  change (loadActionMethod "New") with "Get".
  change (loadActionMethod "Edit") with "Get".
  change (loadActionMethod "Create") with "Post".
  change (loadActionMethod "Update") with "Patch".
  change (loadActionMethod "Delete") with "Delete".
  assert (Hj : forall xs ys,
            xs <> ys ->
            Forall (fun e => plainElement e = true) xs ->
            Forall (fun e => plainElement e = true) ys ->
            xs <> [] -> ys <> [] ->
            String slash (Split.Join (elements base ++ xs) "/") <>
            String slash (Split.Join (elements base ++ ys) "/")).
  { intros xs ys Hne Fx Fy Hx Hy E. injection E as E.
    apply Join_inj in E.
    - apply app_inv_head in E. contradiction.
    - destruct (elements base); [exact Hx|discriminate].
    - destruct (elements base); [exact Hy|discriminate].
    - apply Forall_app. split; [apply elements_noSlash|].
      eapply Forall_impl; [exact Fx|]. intros e He.
      now apply plainElement_spec in He.
    - apply Forall_app. split; [apply elements_noSlash|].
      eapply Forall_impl; [exact Fy|]. intros e He.
      now apply plainElement_spec in He. }
  assert (Hb : forall xs, xs <> [] ->
            Forall (fun e => plainElement e = true) xs ->
            base <> String slash (Split.Join (elements base ++ xs) "/")).
  { intros xs Hx Fx. now apply base_not_longer. }
  repeat (apply NoDup_cons; split);
    try apply NoDup_nil;
    rewrite ?not_elem_of_cons; repeat split;
    try apply not_elem_of_nil;
    try (intros E; apply pair_equal_spec in E as [E1 E2];
         first [discriminate E1
               |revert E2; first [apply Hb | apply Hj];
                try discriminate; repeat constructor]).
Qed.

End WebFacts.

Lemma loadActionRoute_elements_witness :
  Web.loadActionRoute (fun s => s) (fun s => s) "/" "Show" = "/:id" /\
  Web.loadActionRoute (fun s => s) (fun s => s) "//users/./" "Edit"
  = "/users/:id/edit".
Proof.
  pose proof (loadActionRoute_elements (fun s => s) (fun s => s) "/"
                eq_refl eq_refl) as (H1 & _).
  pose proof (loadActionRoute_elements (fun s => s) (fun s => s) "//users/./"
                eq_refl eq_refl) as (_ & _ & _ & _ & H2).
  split; [exact H1 | exact H2].
Defined.

Lemma conventional_actions_distinct_witness :
  NoDup (map (fun name => (Web.loadActionMethod name,
                           Web.loadActionRoute (fun s => s) (fun s => s)
                                               "/users" name))
             ["Index"; "Show"; "New"; "Edit"; "Create"; "Update"; "Delete"]).
Proof.
  apply (conventional_actions_distinct (fun s => s) (fun s => s) "/users");
    reflexivity.
Defined.

Section RouteFacts.
Import Web.
Variables textPath textSlug textSingular textTitle : string -> string.

Lemma routeLoop_even i prev : forall segments,
  Nat.even i = true ->
  routeLoop textSlug textSingular i prev segments =
  pairsRoute textSlug textSingular segments.
Proof.
  intros segments. revert i prev.
  induction segments as [segments IH]
    using (well_founded_induction (well_founded_ltof _ (@length string))).
  intros i prev Hi. destruct segments as [|a [|b rest]].
  - reflexivity.
  - cbn [routeLoop pairsRoute]. rewrite <- Nat.negb_even, Hi. cbn [negb].
    now rewrite append_nil, append_empty_r.
  - cbn [routeLoop pairsRoute]. rewrite <- Nat.negb_even, Hi. cbn [negb].
    rewrite Nat.odd_succ, Hi.
    rewrite (IH rest) by first [unfold ltof; cbn; lia | cbn; exact Hi].
    norm_app. reflexivity.
Qed.

(** X12. The route of a controller takes the segments of its path two by
    two: a segment at an even position is written as it is slugged, right
    after what precedes it, and a segment at an odd position is written
    after a slash, the parameter named after the singular of the segment
    before it, and another slash.  So the third segment follows the second
    without a slash between them. *)
Theorem loadControllerRoute_pairs (controllerPath : string) :
  loadControllerRoute textPath textSlug textSingular controllerPath =
  "/" +:+ pairsRoute textSlug textSingular
                     (Split.Split (textPath controllerPath) "/").
Proof. unfold loadControllerRoute. now rewrite routeLoop_even. Qed.

Lemma Split_single s sep :
  Split.Split s sep = [EmptyString] -> s = EmptyString.
Proof.
  destruct s as [|c s]; [reflexivity|]. cbn [Split.Split].
  pose proof (Split_nonempty s sep) as Hne.
  destruct (Ascii.eqb c sep).
  - intros [= E]. contradiction.
  - destruct (Split.Split s sep); [contradiction|discriminate].
Qed.

Lemma append_is_empty a b : a +:+ b = EmptyString -> a = EmptyString.
Proof. destruct a; [reflexivity|discriminate]. Qed.

(** X13. The name under which an action is called is the name of the
    action alone exactly when the title of the base path is empty;
    otherwise it is a caller that is not empty, a dot and the name of the
    action. *)
Theorem loadActionCallName_cases (basePath actionName : string) :
  (textTitle basePath = EmptyString ->
   loadActionCallName textTitle basePath actionName = actionName) /\
  (textTitle basePath <> EmptyString ->
   exists caller, caller <> EmptyString /\
     loadActionCallName textTitle basePath actionName
     = caller +:+ "." +:+ actionName).
Proof.
  unfold loadActionCallName. split.
  - intros ->. reflexivity.
  - intros Ht.
    destruct (String.eqb _ EmptyString) eqn:E.
    + exfalso. apply Ht. apply String.eqb_eq in E.
      pose proof (Split_nonempty (textTitle basePath) " ") as Hne.
      destruct (Split.Split (textTitle basePath) " ") as [|w ws] eqn:Es;
        [contradiction|].
      destruct ws as [|w' ws].
      * cbn in E. destruct w; [now apply (Split_single _ " ")|discriminate E].
      * exfalso. cbn [map] in E.
        change (Split.Join (?a :: ?b :: ?l) ".")
          with (a +:+ "." +:+ Split.Join (b :: l) ".") in E.
        destruct (if (0 <? String.length w)%nat then w +:+ "Controller" else w);
          discriminate E.
    + apply String.eqb_neq in E. eauto.
Qed.

End RouteFacts.

Lemma loadActionCallName_cases_witness :
  Web.loadActionCallName (fun _ => EmptyString) "/" "Index" = "Index" /\
  exists caller, caller <> EmptyString /\
    Web.loadActionCallName (fun _ => "Users Comments") "/users/comments" "Show"
    = caller +:+ "." +:+ "Show".
Proof.
  split.
  - apply (proj1 (loadActionCallName_cases (fun _ => EmptyString) "/" "Index")).
    reflexivity.
  - apply (proj2 (loadActionCallName_cases (fun _ => "Users Comments")
                    "/users/comments" "Show")).
    discriminate.
Defined.

(** X14. The base path of a controller directory is rooted, and two
    directories have the same base path only when they are the same
    directory or when each of them is the dot or the empty text, which both
    give the root. *)
Theorem toBasePath_same (d1 d2 : string) :
  Elements.rooted (Web.toBasePath d1) = true /\
  (Web.toBasePath d1 = Web.toBasePath d2 <->
   d1 = d2 \/ ((d1 = "." \/ d1 = EmptyString) /\ (d2 = "." \/ d2 = EmptyString))).
Proof.
  unfold Web.toBasePath. split; [now destruct (String.eqb d1 ".")|].
  destruct (String.eqb_spec d1 ".") as [->|E1],
           (String.eqb_spec d2 ".") as [->|E2].
  - split; [intros _; now left|reflexivity].
  - rewrite append_cons, append_nil. split.
    + intros [= <-]. auto.
    + intros [<-|[_ [->| ->]]]; try contradiction; reflexivity.
  - rewrite append_cons, append_nil. split.
    + intros [= ->]. auto.
    + intros [->|[[->| ->] _]]; try contradiction; reflexivity.
  - rewrite !append_cons, !append_nil. split.
    + intros [= ->]. auto.
    + intros [->|[[->| ->] [->| ->]]]; try contradiction; reflexivity.
Qed.

(** * Virtual module files *)

Section ModFacts.
Import Path Elements Mod.
Variable isStdLib : string -> bool.
Variable stdDir GOPATH : string.
Variable stat : string -> result unit.
Variable isPrintTable : Z -> bool.

(** X15. [ResolveDirectory] calls [os.Stat] at most once, and not at all
    for an import of the standard library; it returns an error exactly when
    the import is not of the standard library and the stat fails; and the
    error it returns is never a not-exist error: a missing directory is
    reported by a new error, not by the error of the stat. *)
Theorem ResolveDirectory_errors (v : VirtualFile) (importPath : string) :
  let calls := fst (ResolveDirectory isStdLib stdDir GOPATH stat isPrintTable
                                     v importPath) in
  let out := snd (ResolveDirectory isStdLib stdDir GOPATH stat isPrintTable
                                   v importPath) in
  let dir := filepathJoin [GOPATH; "src"; importPath] in
  calls = (if isStdLib importPath then [] else [dir]) /\
  ((exists e, out = Err e) <->
   isStdLib importPath = false /\ exists e, stat dir = Err e) /\
  (forall e, out = Err e -> IsNotExist e = false) /\
  (forall d, out = Ok d ->
     d = if isStdLib importPath then filepathJoin [stdDir; importPath]
         else dir).
Proof.
  cbv zeta. unfold ResolveDirectory.
  destruct (isStdLib importPath).
  - cbn [fst snd]. split; [reflexivity|]. split; [|split].
    + split; [intros [e He]; discriminate He|intros [Hf _]; discriminate Hf].
    + intros e He. discriminate He.
    + intros d Hd. now injection Hd as <-.
  - destruct (stat _) as [[]|err] eqn:Es.
    + cbn [fst snd]. split; [reflexivity|]. split; [|split].
      * split; [intros [e He]; discriminate He
               |intros [_ [e He]]; discriminate He].
      * intros e He. discriminate He.
      * intros d Hd. now injection Hd as <-.
    + destruct (IsNotExist err) eqn:En; cbn [fst snd];
        (split; [reflexivity|]); (split; [|split]).
      * split; [intros _; split; [reflexivity|now exists err]
               |intros _; eexists; reflexivity].
      * intros e He. injection He as <-. reflexivity.
      * intros d Hd. discriminate Hd.
      * split; [intros _; split; [reflexivity|now exists err]
               |intros _; eexists; reflexivity].
      * intros e He. injection He as <-. exact En.
      * intros d Hd. discriminate Hd.
Qed.

Lemma joinLoop_nonempty xs : forall buf,
  buf <> EmptyString -> joinLoop buf xs = buf +:+ afterElement xs.
Proof.
  induction xs as [|x xs IH]; intros buf Hb.
  - cbn. now rewrite append_empty_r.
  - cbn [joinLoop].
    replace (String.eqb buf EmptyString) with false
      by (symmetry; now apply String.eqb_neq).
    cbn [negb orb]. rewrite IH by (now destruct buf).
    change (afterElement (x :: xs)) with (String slash (Split.Join (x :: xs) "/")).
    rewrite Join_cons. norm_app. reflexivity.
Qed.

(** Joining a path that is not empty with a second path, or with the
    elements of the second path, is the same. *)
Lemma Join_split_second a p :
  a <> EmptyString ->
  Path.Join [a; p] = Path.Join (a :: Split.Split p slash).
Proof.
  intros Ha. unfold Path.Join. destruct a as [|c a]; [contradiction|].
  change (forallb _ [String c a; p]) with false.
  change (forallb _ (String c a :: Split.Split p slash)) with false.
  cbn iota. f_equal.
  assert (Hh : forall xs,
             joinLoop EmptyString (String c a :: xs) = joinLoop (String c a) xs)
    by reflexivity.
  rewrite !Hh, !joinLoop_nonempty by discriminate.
  pose proof (Split_nonempty p slash) as Hne.
  pose proof (Join_Split p) as Hj.
  destruct (Split.Split p slash) as [|w ws]; [contradiction|].
  cbn [afterElement]. rewrite Hj. reflexivity.
Qed.

(** X16. For an import of the standard library, and a standard directory
    that is not the empty text, the directory that [ResolveDirectory]
    returns is the join of the standard directory and of the elements of
    the import path, one by one. *)
Theorem ResolveDirectory_std (v : VirtualFile) (importPath : string) :
  stdDir <> EmptyString -> isStdLib importPath = true ->
  snd (ResolveDirectory isStdLib stdDir GOPATH stat isPrintTable v importPath)
  = Ok (filepathJoin (stdDir :: Split.Split importPath "/")).
Proof.
  intros Hs Hi. unfold ResolveDirectory. rewrite Hi. cbn [snd].
  unfold filepathJoin. now rewrite Join_split_second.
Qed.

End ModFacts.

Lemma ResolveDirectory_std_witness :
  snd (Mod.ResolveDirectory (fun p => String.eqb p "net/http")
         "/usr/local/go/src" "/home/gopher/go"
         (fun d => Err (Example.notExist d)) Example.table
         (Mod.Virtual "app.com" "/app") "net/http")
  = Ok "/usr/local/go/src/net/http".
Proof.
  apply (ResolveDirectory_std (fun p => String.eqb p "net/http")
           "/usr/local/go/src" "/home/gopher/go"
           (fun d => Err (Example.notExist d)) Example.table
           (Mod.Virtual "app.com" "/app") "net/http");
    [discriminate|reflexivity].
Defined.
